(** * Arena Forge: undo/redo and scene-state synchronisation

    A shallow embedding of the editor core of arena-forge:
    - the object factory ([src/core/ObjectFactory.js]) and the materials
      library;
    - the scene serializer with its snapshot undo, on top of the undo-manager
      package, and [LevelEditor.loadScene] / [LevelEditor.importScene];
    - the property updater and the grid manager;
    - the command classes under [src/editor/commands]: [SetPositionCommand],
      [SetPropertyValueCommand], [RemoveObjectCommand], [MultiCmdsCommand].
    - what these lean on and what stands beside them: the event bus
      ([EditorEvents]), the asset registry and the script manager with
      their commands, [ObjectFactory.clone], the scale and rotation
      commands, the JSON form of commands, the bounds of the grid and the
      drag controller ([InputManager.js]).
    The history stack of the command editor ([History.js]) is not among the
    sources; the module [History] follows the specification instead and
    says so.

    JavaScript values are a tagged union ([jsval]); numbers are exact
    rationals or an infinity, and [JSON.parse] rounds a literal beyond the
    range of doubles to zero or to an infinity; apart from that nothing
    below speaks of IEEE rounding, and the numeric work of three.js (world
    matrices, Euler angles) stays a parameter; where the code adds or
    multiplies, the rounding of the result is the engine's ([Num.Engine]).
    A value used as a property key, in a template or in arithmetic is
    converted first, which throws for some objects ([ToString],
    [ToPrimitive]).  Whether the page has the element of the scene tree
    panel is a parameter of the editor ([sceneTree]).  An expression that
    can raise returns an [outcome]; a method that mutates [this] or the
    editor is a function from the state before to the outcome and the
    state after, and the state after is kept when the method throws, as in
    JavaScript. *)

From Stdlib Require Import String Ascii List ZArith QArith Qabs Qround Lqa Lia Bool Arith.
From Stdlib Require Import DecimalString.
From stdpp Require Import base list.
Import ListNotations.

Local Open Scope string_scope.
Local Open Scope list_scope.

(* ===================================================================== *)
(** * JavaScript values and exceptions *)
(* ===================================================================== *)

Module JS.

(** The exceptions the modelled code can raise. *)
Inductive exn : Type :=
| TypeError (msg : string)
| SyntaxError (msg : string).

(** Result of an expression that may throw. *)
Inductive outcome (A : Type) : Type :=
| Ok (a : A)
| Throw (e : exn).
Arguments Ok {A} a.
Arguments Throw {A} e.

Definition bind {A B} (m : outcome A) (k : A -> outcome B) : outcome B :=
  match m with
  | Ok a => k a
  | Throw e => Throw e
  end.

Definition is_ok {A} (m : outcome A) : bool :=
  match m with Ok _ => true | Throw _ => false end.

(** The values of the model.  A number is a finite double, written as the
    rational it is, or one of the two infinities ([JSON.parse] gives one
    for a literal beyond the range of doubles). *)
#[warnings="-register-all"]
Inductive jsval : Type :=
| VUndefined
| VNull
| VBool (b : bool)
| VNum (q : Q)
| VInfinity (negative : bool)
| VStr (s : string)
| VArr (items : list jsval) (props : list (string * jsval))
| VObj (fields : list (string * jsval)).

(** ToBoolean.  (There is no NaN among the rationals.) *)
Definition truthy (v : jsval) : bool :=
  match v with
  | VUndefined | VNull => false
  | VBool b => b
  | VNum q => negb (Qeq_bool q 0)
  | VInfinity _ => true
  | VStr s => negb (String.eqb s "")
  | VArr _ _ | VObj _ => true
  end.

(** Own-property lookup in an object literal (a key is bound once). *)
Fixpoint own (fields : list (string * jsval)) (k : string) : option jsval :=
  match fields with
  | [] => None
  | (k', v) :: rest => if String.eqb k' k then Some v else own rest k
  end.

(** [o.k = v] on an object literal: replace in place, or append. *)
Fixpoint set_own (fields : list (string * jsval)) (k : string) (v : jsval)
  : list (string * jsval) :=
  match fields with
  | [] => [(k, v)]
  | (k', w) :: rest =>
      if String.eqb k' k then (k', v) :: rest else (k', w) :: set_own rest k v
  end.

(** [v.k] for the data property names the editor reads ([objects], [data],
    [type], [position], [rotation], [scale], [materialType], [size],
    [width], [x], ...): none of them is defined on [Object.prototype],
    [Array.prototype] or a primitive wrapper, so the read is an own-property
    lookup on an object (for an array: among the named properties set on
    it) and [undefined] on a primitive, and it throws on [undefined] and
    [null]. *)
Definition getprop (v : jsval) (k : string) : outcome jsval :=
  match v with
  | VUndefined =>
      Throw (TypeError ("Cannot read properties of undefined (reading '" ++ k ++ "')"))
  | VNull =>
      Throw (TypeError ("Cannot read properties of null (reading '" ++ k ++ "')"))
  | VObj fields => Ok (default VUndefined (own fields k))
  | VArr _ props => Ok (default VUndefined (own props k))
  | _ => Ok VUndefined
  end.

(** [v.k = w] in strict mode (the sources are modules): the value [v] after
    the assignment.  A property cannot be created on a primitive. *)
Definition setprop (v : jsval) (k : string) (w : jsval) : outcome jsval :=
  match v with
  | VUndefined =>
      Throw (TypeError ("Cannot set properties of undefined (setting '" ++ k ++ "')"))
  | VNull =>
      Throw (TypeError ("Cannot set properties of null (setting '" ++ k ++ "')"))
  | VObj fields => Ok (VObj (set_own fields k w))
  | VArr items props => Ok (VArr items (set_own props k w))
  | _ => Throw (TypeError ("Cannot create property '" ++ k ++ "'"))
  end.

Definition index_key (i : nat) : string :=
  match i with
  | 0%nat => "0" | 1%nat => "1" | 2%nat => "2" | _ => "3"
  end.

(** [v[i]] for [i] in 0..3, as [Vector3.fromArray] and [Euler.fromArray]
    read it. *)
Definition getindex (v : jsval) (i : nat) : outcome jsval :=
  match v with
  | VUndefined =>
      Throw (TypeError "Cannot read properties of undefined (reading '0')")
  | VNull =>
      Throw (TypeError "Cannot read properties of null (reading '0')")
  | VArr items _ => Ok (nth i items VUndefined)
  | VStr s =>
      Ok (match String.get i s with
          | Some c => VStr (String c EmptyString)
          | None => VUndefined
          end)
  | VObj fields => Ok (default VUndefined (own fields (index_key i)))
  | _ => Ok VUndefined
  end.

(** ToString, as far as a property key or a conversion needs it: the text
    of the value, [None] for a text that holds a digit or a comma (the
    text of a number, or of an array of several items).  An object or
    array is first made a primitive by its [toString] method, then its
    [valueOf]: an own property of that name is no function in the model and
    is passed over, and the inherited [valueOf] returns the object itself,
    so the conversion throws as soon as [toString] is an own property.
    [Array.prototype.toString] joins the texts of the items, with the
    empty text for [undefined] and [null], unless [join] is an own
    property, which sends it to [Object.prototype.toString]. *)
Fixpoint ToString (v : jsval) : outcome (option string) :=
  match v with
  | VUndefined => Ok (Some "undefined")
  | VNull => Ok (Some "null")
  | VBool true => Ok (Some "true")
  | VBool false => Ok (Some "false")
  | VNum _ => Ok None
  | VInfinity false => Ok (Some "Infinity")
  | VInfinity true => Ok (Some "-Infinity")
  | VStr s => Ok (Some s)
  | VObj fields =>
      match own fields "toString" with
      | Some _ => Throw (TypeError "Cannot convert object to primitive value")
      | None => Ok (Some "[object Object]")
      end
  | VArr items props =>
      match own props "toString" with
      | Some _ => Throw (TypeError "Cannot convert object to primitive value")
      | None =>
          match own props "join" with
          | Some _ => Ok (Some "[object Array]")
          | None =>
              bind
                ((fix texts (l : list jsval) : outcome (list (option string)) :=
                    match l with
                    | [] => Ok []
                    | item :: rest =>
                        bind (match item with
                              | VUndefined | VNull => Ok (Some "")
                              | _ => ToString item
                              end)
                          (fun t => bind (texts rest) (fun ts => Ok (t :: ts)))
                    end) items)
                (fun ts =>
                   Ok (match ts with
                       | [] => Some ""
                       | [t] => t
                       | _ => None
                       end))
          end
      end
  end.

(** ToPrimitive, for what it can throw: a value of the model can be made a
    primitive for a number ([ToNumber], as [/] does) exactly when it can be
    made one for a text. *)
Definition ToPrimitive (v : jsval) : outcome unit :=
  bind (ToString v) (fun _ => Ok tt).

End JS.
Import JS.

Declare Scope js_scope.
Delimit Scope js_scope with js.
Notation "x <- m ;; k" := (JS.bind m (fun x => k))
  (at level 100, m at next level, right associativity) : js_scope.
Local Open Scope js_scope.

(* ===================================================================== *)
(** * JSON.parse *)
(* ===================================================================== *)

(** [JSON.parse] is a built-in of the language; the model is a recursive
    descent parser for the JSON grammar (ECMA-404): literals, numbers
    (exact rationals within the range of doubles, see [to_double]), strings
    with their escapes, arrays and
    objects, with insignificant white space.  [None] stands for the
    [SyntaxError] the built-in raises. *)
Module JSON.

Definition is_ws (c : ascii) : bool :=
  let n := nat_of_ascii c in
  (n =? 32)%nat || (n =? 9)%nat || (n =? 10)%nat || (n =? 13)%nat.

Fixpoint skip_ws (cs : list ascii) : list ascii :=
  match cs with
  | c :: rest => if is_ws c then skip_ws rest else cs
  | [] => []
  end.

Definition digit_of (c : ascii) : option N :=
  let n := N_of_ascii c in
  if ((48 <=? n) && (n <=? 57))%N then Some (n - 48)%N else None.

Definition hex_of (c : ascii) : option N :=
  let n := N_of_ascii c in
  if ((48 <=? n) && (n <=? 57))%N then Some (n - 48)%N
  else if ((97 <=? n) && (n <=? 102))%N then Some (n - 87)%N
  else if ((65 <=? n) && (n <=? 70))%N then Some (n - 55)%N
  else None.

(** Reads a run of decimal digits: their value, how many there were, and
    the rest of the input. *)
Fixpoint digits (cs : list ascii) (acc : N) (count : nat)
  : N * nat * list ascii :=
  match cs with
  | c :: rest =>
      match digit_of c with
      | Some d => digits rest (acc * 10 + d)%N (S count)
      | None => (acc, count, cs)
      end
  | [] => (acc, count, [])
  end.

(** The integer part: a single [0], or a digit run not starting with [0]. *)
Definition int_part (cs : list ascii) : option (N * list ascii) :=
  match cs with
  | c :: rest =>
      match digit_of c with
      | Some 0%N => Some (0%N, rest)
      | Some _ => let '(n, _, rest') := digits cs 0 0 in Some (n, rest')
      | None => None
      end
  | [] => None
  end.

Definition frac_part (cs : list ascii) : option (N * nat * list ascii) :=
  match cs with
  | c :: rest =>
      if Ascii.eqb c "."%char then
        let '(n, k, rest') := digits rest 0 0 in
        match k with O => None | _ => Some (n, k, rest') end
      else Some (0%N, O, cs)
  | [] => Some (0%N, O, cs)
  end.

Definition exp_digits (neg : bool) (cs : list ascii) : option (Z * list ascii) :=
  let '(n, k, rest) := digits cs 0 0 in
  match k with
  | O => None
  | _ => Some (if neg then (- Z.of_N n)%Z else Z.of_N n, rest)
  end.

Definition exp_part (cs : list ascii) : option (Z * list ascii) :=
  match cs with
  | c :: rest =>
      if Ascii.eqb c "e"%char || Ascii.eqb c "E"%char then
        match rest with
        | sign :: rest' =>
            if Ascii.eqb sign "-"%char then exp_digits true rest'
            else if Ascii.eqb sign "+"%char then exp_digits false rest'
            else exp_digits false rest
        | [] => None
        end
      else Some (0%Z, cs)
  | [] => Some (0%Z, cs)
  end.

(** [(i + f / 10^k) * 10^e], exactly. *)
Definition decimal (neg : bool) (i f : N) (k : nat) (e : Z) : Q :=
  let mant := (Z.of_N i * 10 ^ Z.of_nat k + Z.of_N f)%Z in
  let mant := if neg then (- mant)%Z else mant in
  let e' := (e - Z.of_nat k)%Z in
  if (0 <=? e')%Z then Qmake (mant * 10 ^ e') 1
  else Qred (Qmake mant (Z.to_pos (10 ^ (- e')))).

(** The number a decimal stands for.  The value is rounded to the nearest
    double, ties to even: at or below [2^-1075], half the least positive
    double, that is zero, and from [2^1024 - 2^970] on, half a unit beyond
    the greatest double, it is an infinity.  In between the model keeps
    the exact value for the double next to it. *)
Definition to_double (q : Q) : jsval :=
  let a := Qabs q in
  if Qle_bool a (1 # (2 ^ 1075)) then VNum 0
  else if Qle_bool (inject_Z (2 ^ 1024 - 2 ^ 970)) a
       then VInfinity (negb (Qle_bool 0 q))
       else VNum q.

Definition sign_part (cs : list ascii) : bool * list ascii :=
  match cs with
  | c :: rest => if Ascii.eqb c "-"%char then (true, rest) else (false, cs)
  | [] => (false, cs)
  end.

Definition number (cs : list ascii) : option (Q * list ascii) :=
  let '(neg, cs1) := sign_part cs in
  match int_part cs1 with
  | None => None
  | Some (i, cs2) =>
      match frac_part cs2 with
      | None => None
      | Some (f, k, cs3) =>
          match exp_part cs3 with
          | None => None
          | Some (e, cs4) => Some (decimal neg i f k e, cs4)
          end
      end
  end.

(** UTF-8 bytes of a UTF-16 code unit given by a [\uXXXX] escape. *)
Definition utf8 (n : N) : list ascii :=
  if (n <? 128)%N then [ascii_of_N n]
  else if (n <? 2048)%N then
    [ascii_of_N (192 + n / 64); ascii_of_N (128 + n mod 64)]
  else
    [ascii_of_N (224 + n / 4096); ascii_of_N (128 + (n / 64) mod 64);
     ascii_of_N (128 + n mod 64)].

Definition hex4 (cs : list ascii) : option (N * list ascii) :=
  match cs with
  | a :: b :: c :: d :: rest =>
      match hex_of a, hex_of b, hex_of c, hex_of d with
      | Some a, Some b, Some c, Some d =>
          Some (((a * 16 + b) * 16 + c) * 16 + d, rest)%N
      | _, _, _, _ => None
      end
  | _ => None
  end.

Definition dquote : ascii := ascii_of_nat 34.

(** The character a two-character escape stands for, [\u] apart. *)
Definition unescape (e : ascii) : option ascii :=
  if Ascii.eqb e dquote then Some dquote
  else
    match e with
    | "\"%char => Some "\"%char
    | "/"%char => Some "/"%char
    | "b"%char => Some (ascii_of_nat 8)
    | "f"%char => Some (ascii_of_nat 12)
    | "n"%char => Some (ascii_of_nat 10)
    | "r"%char => Some (ascii_of_nat 13)
    | "t"%char => Some (ascii_of_nat 9)
    | _ => None
    end.

(** The characters of a string literal after its opening quote. *)
Fixpoint string_body (fuel : nat) (cs : list ascii) (acc : list ascii)
  : option (string * list ascii) :=
  match fuel with
  | O => None
  | S fuel =>
      match cs with
      | [] => None
      | c :: rest =>
          if Ascii.eqb c dquote then Some (string_of_list_ascii (rev acc), rest)
          else if Ascii.eqb c "\"%char then
            match rest with
            | [] => None
            | e :: rest' =>
                match unescape e with
                | Some ch => string_body fuel rest' (ch :: acc)
                | None =>
                    if Ascii.eqb e "u"%char then
                      match hex4 rest' with
                      | Some (n, rest2) => string_body fuel rest2 (rev (utf8 n) ++ acc)
                      | None => None
                      end
                    else None
                end
            end
          else if (nat_of_ascii c <? 32)%nat then None
          else string_body fuel rest (c :: acc)
      end
  end.

(** A string literal, opening quote included. *)
Definition string_literal (cs : list ascii) : option (string * list ascii) :=
  match cs with
  | c :: rest =>
      if Ascii.eqb c dquote then string_body (S (List.length rest)) rest [] else None
  | [] => None
  end.

(** [strip word cs]: what follows [word] when [cs] starts with it. *)
Fixpoint strip (word cs : list ascii) : option (list ascii) :=
  match word, cs with
  | [], _ => Some cs
  | w :: word', c :: cs' => if Ascii.eqb w c then strip word' cs' else None
  | _ :: _, [] => None
  end.

(** The literals [null], [true], [false], a string or a number. *)
Definition scalar (cs : list ascii) : option (jsval * list ascii) :=
  match strip (list_ascii_of_string "null") cs with
  | Some rest => Some (VNull, rest)
  | None =>
      match strip (list_ascii_of_string "true") cs with
      | Some rest => Some (VBool true, rest)
      | None =>
          match strip (list_ascii_of_string "false") cs with
          | Some rest => Some (VBool false, rest)
          | None =>
              match string_literal cs with
              | Some (s, rest) => Some (VStr s, rest)
              | None =>
                  match cs with
                  | c :: _ =>
                      if Ascii.eqb c dquote then None
                      else
                        match number cs with
                        | Some (q, rest) => Some (to_double q, rest)
                        | None => None
                        end
                  | [] => None
                  end
              end
          end
      end
  end.

(** [JSON.parse] keeps the last of several bindings of one key. *)
Definition add_field (fields : list (string * jsval)) (k : string) (v : jsval)
  : list (string * jsval) :=
  JS.set_own fields k v.

(** The next character after white space is [c]: what follows it. *)
Definition expect (c : ascii) (cs : list ascii) : option (list ascii) :=
  match skip_ws cs with
  | c' :: rest => if Ascii.eqb c' c then Some rest else None
  | [] => None
  end.

Fixpoint value (fuel : nat) (cs : list ascii) : option (jsval * list ascii) :=
  match fuel with
  | O => None
  | S fuel =>
      match expect "["%char cs with
      | Some rest =>
          match expect "]"%char rest with
          | Some rest' => Some (VArr [] [], rest')
          | None => elements fuel rest []
          end
      | None =>
          match expect "{"%char cs with
          | Some rest =>
              match expect "}"%char rest with
              | Some rest' => Some (VObj [], rest')
              | None => members fuel rest []
              end
          | None => scalar (skip_ws cs)
          end
      end
  end
with elements (fuel : nat) (cs : list ascii) (acc : list jsval)
  : option (jsval * list ascii) :=
  match fuel with
  | O => None
  | S fuel =>
      match value fuel cs with
      | None => None
      | Some (v, rest) =>
          match expect ","%char rest with
          | Some rest' => elements fuel rest' (v :: acc)
          | None =>
              match expect "]"%char rest with
              | Some rest' => Some (VArr (rev (v :: acc)) [], rest')
              | None => None
              end
          end
      end
  end
with members (fuel : nat) (cs : list ascii) (acc : list (string * jsval))
  : option (jsval * list ascii) :=
  match fuel with
  | O => None
  | S fuel =>
      match string_literal (skip_ws cs) with
      | None => None
      | Some (k, rest1) =>
          match expect ":"%char rest1 with
          | None => None
          | Some rest2 =>
              match value fuel rest2 with
              | None => None
              | Some (v, rest3) =>
                  match expect ","%char rest3 with
                  | Some rest4 => members fuel rest4 (add_field acc k v)
                  | None =>
                      match expect "}"%char rest3 with
                      | Some rest4 => Some (VObj (add_field acc k v), rest4)
                      | None => None
                      end
                  end
              end
          end
      end
  end.

(** The whole text must be one value, white space around it allowed.  Twice
    the length of the text is fuel enough: see [value_fuel_enough]. *)
Definition parse (text : string) : option jsval :=
  let cs := list_ascii_of_string text in
  match value (2 * List.length cs + 2) cs with
  | Some (v, rest) =>
      match skip_ws rest with
      | [] => Some v
      | _ => None
      end
  | None => None
  end.

End JSON.

(** Test texts are written with [!] where the JSON text has a double quote. *)
Fixpoint json_text (s : string) : string :=
  match s with
  | EmptyString => EmptyString
  | String c rest =>
      String (if Ascii.eqb c "!"%char then JSON.dquote else c) (json_text rest)
  end.

(* ===================================================================== *)
(** * The three.js objects the editor holds *)
(* ===================================================================== *)

(** Only the fields the editor core reads and writes.  Components are
    [jsval]s: [fromArray] stores whatever the array holds. *)
Module THREE.

Record Vector3 : Type := vec3 { x : jsval; y : jsval; z : jsval }.

(** [new THREE.Vector3()] *)
Definition zero : Vector3 := vec3 (VNum 0) (VNum 0) (VNum 0).
Definition ones : Vector3 := vec3 (VNum 1) (VNum 1) (VNum 1).

(** [v.toArray()] *)
Definition toArray (v : Vector3) : jsval := VArr [x v; y v; z v] [].

(** [{ x: v.x, y: v.y, z: v.z }] *)
Definition toObject (v : Vector3) : jsval :=
  VObj [("x", x v); ("y", y v); ("z", z v)].

(** [new THREE.Vector3().fromArray(a)]; [Euler.fromArray] reads the same
    three slots (a fourth, the axis order, is not modelled). *)
Definition fromArray (a : jsval) : outcome Vector3 :=
  a0 <- getindex a 0 ;;
  a1 <- getindex a 1 ;;
  a2 <- getindex a 2 ;;
  Ok (vec3 a0 a1 a2).

Inductive Geometry : Type :=
| BoxGeometry (width height depth : Q)
| CylinderGeometry (radiusTop radiusBottom height : Q) (radialSegments : nat).

(** A [MeshStandardMaterial] cloned from the library entry [source]. *)
Record Material : Type := material { source : string; emissive : N }.

Record Mesh : Type := mesh3d {
  geometry : Geometry;
  mat : option Material;
  position : Vector3;
  rotation : Vector3;
  scale : Vector3;
  castShadow : bool;
  receiveShadow : bool
}.

Definition set_position (p : Vector3) (m : Mesh) : Mesh :=
  mesh3d (geometry m) (mat m) p (rotation m) (scale m) (castShadow m) (receiveShadow m).
Definition set_rotation (r : Vector3) (m : Mesh) : Mesh :=
  mesh3d (geometry m) (mat m) (position m) r (scale m) (castShadow m) (receiveShadow m).
Definition set_scale (s : Vector3) (m : Mesh) : Mesh :=
  mesh3d (geometry m) (mat m) (position m) (rotation m) s (castShadow m) (receiveShadow m).
Definition set_material (k : option Material) (m : Mesh) : Mesh :=
  mesh3d (geometry m) k (position m) (rotation m) (scale m) (castShadow m) (receiveShadow m).

End THREE.

(* ===================================================================== *)
(** * Registries: object literals used as maps *)
(* ===================================================================== *)

(** [OBJECT_TYPES] and [MaterialsLibrary.materials] are object literals, so a
    read [registry[key]] and the test [key in registry] also see what the
    literal inherits from [Object.prototype]. *)
Module Registry.

(** The properties of [Object.prototype]: functions, and the accessor
    [__proto__] whose value is [Object.prototype] itself.  All are truthy
    and none has a [createGeometry] or a [clone] method. *)
Definition Object_prototype : list string :=
  [ "constructor"; "__defineGetter__"; "__defineSetter__"; "hasOwnProperty";
    "__lookupGetter__"; "__lookupSetter__"; "isPrototypeOf";
    "propertyIsEnumerable"; "toString"; "valueOf"; "__proto__";
    "toLocaleString" ].

Definition inherited (k : string) : bool :=
  existsb (String.eqb k) Object_prototype.

(** What a read [registry[key]] finds. *)
Inductive found (A : Type) : Type :=
| Own (a : A)
| Inherited (name : string)
| Missing.
Arguments Own {A} a.
Arguments Inherited {A} name.
Arguments Missing {A}.

Fixpoint own_entry {A} (entries : list (string * A)) (k : string) : option A :=
  match entries with
  | [] => None
  | (k', a) :: rest => if String.eqb k' k then Some a else own_entry rest k
  end.

Definition get {A} (entries : list (string * A)) (k : string) : found A :=
  match own_entry entries k with
  | Some a => Own a
  | None => if inherited k then Inherited k else Missing
  end.

(** ToPropertyKey of a value used as a key: its text ([None] for a text
    that holds a digit or a comma: no property of a registry or of
    [Object.prototype] has such a name, so that key finds nothing).  It
    throws for an object that cannot be made a primitive. *)
Definition key_of (v : jsval) : outcome (option string) := ToString v.

(** [registry[v]] *)
Definition read {A} (entries : list (string * A)) (v : jsval) : outcome (found A) :=
  k <- key_of v ;;
  Ok (match k with
      | Some k => get entries k
      | None => Missing
      end).

(** A key at which a registry can be read for an entry: it can be made a
    property name, and the name is not an inherited one. *)
Definition safe {A} (entries : list (string * A)) (v : jsval) : bool :=
  match read entries v with
  | Ok (Own _) | Ok Missing => true
  | _ => false
  end.

End Registry.

(* ===================================================================== *)
(** * MaterialsLibrary *)
(* ===================================================================== *)

Module MaterialsLibrary.

(** [createMaterials]: name and emissive colour of each predefined material. *)
Definition materials : list (string * THREE.Material) :=
  [ ("floor", THREE.material "floor" 0);
    ("obstacle", THREE.material "obstacle" 0);
    ("wall", THREE.material "wall" 0);
    ("emissiveCyan", THREE.material "emissiveCyan" 65535);
    ("emissiveOrange", THREE.material "emissiveOrange" 16737792);
    ("emissiveMagenta", THREE.material "emissiveMagenta" 16711935);
    ("platform", THREE.material "platform" 0);
    ("metalTrim", THREE.material "metalTrim" 0) ].

(** [get(name)]: [material ? material.clone() : null].  An inherited
    property is truthy and has no [clone]. *)
Definition get (name : jsval) : outcome (option THREE.Material) :=
  f <- Registry.read materials name ;;
  match f with
  | Registry.Own m => Ok (Some m)
  | Registry.Inherited _ => Throw (TypeError "material.clone is not a function")
  | Registry.Missing => Ok None
  end.

(** [has(name)]: [name in this.materials] *)
Definition has (name : jsval) : outcome bool :=
  f <- Registry.read materials name ;;
  Ok (match f with
      | Registry.Missing => false
      | _ => true
      end).

End MaterialsLibrary.

(* ===================================================================== *)
(** * ObjectFactory *)
(* ===================================================================== *)

(** An editor object [{ id, mesh, data }]. *)
Record EditorObject : Type := editorObject {
  id : jsval;
  mesh : THREE.Mesh;
  data : jsval
}.

Module ObjectFactory.

Local Open Scope Q_scope.

(** The double nearest to pi, which is what [Math.PI] is. *)
Definition Math_PI : Q := 884279719003555 # 281474976710656.

Record TypeConfig : Type := typeConfig {
  createGeometry : THREE.Geometry;
  material : string;
  size : list (string * Q);
  yOffset : Q;
  defaultRotation : option (Q * Q * Q)
}.

Definition box : TypeConfig :=
  typeConfig (THREE.BoxGeometry 2 2 2) "obstacle"
    [("width", 2); ("height", 2); ("depth", 2)] 1 None.

Definition OBJECT_TYPES : list (string * TypeConfig) :=
  [ ("box", box);
    ("platform",
      typeConfig (THREE.BoxGeometry 5 (1 # 2) 5) "platform"
        [("width", 5); ("height", 1 # 2); ("depth", 5)] (1 # 4) None);
    ("wall",
      typeConfig (THREE.BoxGeometry (3 # 10) 3 5) "wall"
        [("width", 3 # 10); ("height", 3); ("depth", 5)] (3 # 2) None);
    ("cylinder",
      typeConfig (THREE.CylinderGeometry 1 1 3 16) "obstacle"
        [("radius", 1); ("height", 3)] (3 # 2) None);
    ("ramp",
      typeConfig (THREE.BoxGeometry 4 (3 # 10) 6) "platform"
        [("width", 4); ("height", 3 # 10); ("depth", 6)] (9 # 10)
        (Some (Math_PI / 12, 0, 0)));
    ("emissive_strip",
      typeConfig (THREE.BoxGeometry (1 # 5) (1 # 10) 3) "emissiveCyan"
        [("width", 1 # 5); ("height", 1 # 10); ("depth", 3)] (1 # 20) None) ].

(** [getYOffset(type)]: [OBJECT_TYPES[type]?.yOffset ?? 1] *)
Definition getYOffset (type : jsval) : outcome Q :=
  f <- Registry.read OBJECT_TYPES type ;;
  Ok (match f with
      | Registry.Own c => yOffset c
      | _ => 1
      end).

(** [s.substr(start, len)] for non-negative arguments. *)
Definition substr (start len : nat) (s : string) : string :=
  String.substring start len s.

(** [generateId()], given what [Date.now()] returned and the text
    [Math.random().toString(36)]. *)
Definition generateId (now : N) (random36 : string) : string :=
  "obj_" ++ NilZero.string_of_uint (N.to_uint now) ++ "_" ++ substr 2 9 random36.

Definition vec_of (r : Q * Q * Q) : THREE.Vector3 :=
  let '(rx, ry, rz) := r in THREE.vec3 (VNum rx) (VNum ry) (VNum rz).

Definition size_object (sz : list (string * Q)) : jsval :=
  VObj (map (fun kv => (fst kv, VNum (snd kv))) sz).

(** [config = OBJECT_TYPES[type] || OBJECT_TYPES.box]; an inherited property
    is truthy, so it is taken as the configuration. *)
Definition config_for (type : jsval) : outcome (Registry.found TypeConfig) :=
  f <- Registry.read OBJECT_TYPES type ;;
  Ok (match f with
      | Registry.Missing => Registry.Own box
      | f => f
      end).

(** [create(type, position, id = null)].  [now] and [random36] are what
    [generateId] reads from the clock and the random source when [id] is
    falsy. *)
Definition create (type : jsval) (position : THREE.Vector3) (id : jsval)
    (now : N) (random36 : string) : outcome EditorObject :=
  found <- config_for type ;;
  match found with
  | Registry.Own config =>
      mat <- MaterialsLibrary.get (VStr (material config)) ;;
      let rot :=
        match defaultRotation config with
        | Some r => vec_of r
        | None => THREE.zero
        end in
      let mesh :=
        THREE.mesh3d (createGeometry config) mat position rot THREE.ones true true in
      let data :=
        VObj [ ("type", type);
               ("position", THREE.toObject position);
               ("rotation", THREE.toObject rot);
               ("scale", THREE.toObject THREE.ones);
               ("materialType", VStr (material config));
               ("size", size_object (size config));
               ("customData", VObj []) ] in
      Ok (editorObject
            (if truthy id then id else VStr (generateId now random36)) mesh data)
  | _ => Throw (TypeError "config.createGeometry is not a function")
  end.

(** [getTypes()] *)
Definition getTypes : list string := map fst OBJECT_TYPES.

End ObjectFactory.

(** The digits of [r.toString(36)] for [0 <= r < 1]: the base-36 expansion of
    [r], digit by digit while a remainder is left.  (An engine stops once
    the digits identify the double, after some eleven of them; the suffix
    of an id takes at most the first nine.) *)
Module Radix36.

Definition digit (d : Z) : ascii :=
  if (d <? 10)%Z then ascii_of_N (Z.to_N (48 + d)) else ascii_of_N (Z.to_N (87 + d)).

Fixpoint fraction (fuel : nat) (num : Z) (den : positive) : string :=
  match fuel with
  | O => EmptyString
  | S fuel =>
      if (num =? 0)%Z then EmptyString
      else
        let t := (num * 36)%Z in
        String (digit (t / Zpos den)) (fraction fuel (t mod Zpos den) den)
  end.

Definition toString (r : Q) : string :=
  if (Qnum r =? 0)%Z then "0" else "0." ++ fraction 52 (Qnum r) (Qden r).

End Radix36.

(* ===================================================================== *)
(** * JSON.parse(JSON.stringify(v)) *)
(* ===================================================================== *)

(** The deep copy the editor makes of semantic data and of snapshots.
    [JSON.stringify] leaves out an object property whose value is
    [undefined] and writes [null] for an [undefined] array item and for an
    infinity; [JSON.stringify(undefined)] is [undefined], which
    [JSON.parse] rejects. *)
Module DeepCopy.

Fixpoint copy (v : jsval) : jsval :=
  match v with
  | VArr items _ =>
      VArr (map (fun item =>
                   match item with
                   | VUndefined => VNull
                   | _ => copy item
                   end) items) []
  | VObj fields =>
      VObj ((fix copy_fields (fs : list (string * jsval)) : list (string * jsval) :=
               match fs with
               | [] => []
               | (k, VUndefined) :: rest => copy_fields rest
               | (k, w) :: rest => (k, copy w) :: copy_fields rest
               end) fields)
  | VInfinity _ => VNull
  | _ => v
  end.

Definition deepClone (v : jsval) : outcome jsval :=
  match v with
  | VUndefined => Throw (SyntaxError "undefined is not valid JSON")
  | _ => Ok (copy v)
  end.

End DeepCopy.

(* ===================================================================== *)
(** * The undo-manager package *)
(* ===================================================================== *)

(** [SceneSerializer] keeps its history in an [UndoManager] of the
    undo-manager package: an array of commands and the index of the last
    command done (-1 when there is none).  Running a command is left to the
    caller, which knows what a command does; [isExecuting] is raised while
    one runs. *)
Module UndoManager.

Record t (C : Type) : Type := undoManager {
  commands : list C;
  index : Z;
  limit : nat;
  isExecuting : bool
}.
Arguments undoManager {C}.
Arguments commands {C}.
Arguments index {C}.
Arguments limit {C}.
Arguments isExecuting {C}.

Definition create {C} : t C := undoManager [] (-1) 0 false.

Definition setLimit {C} (l : nat) (m : t C) : t C :=
  undoManager (commands m) (index m) l (isExecuting m).

(** [add(command)]: drop what lies above the index, push, drop from the
    start what exceeds the limit, point the index at the end. *)
Definition add {C} (command : C) (m : t C) : t C :=
  if isExecuting m then m
  else
    let kept := firstn (Z.to_nat (index m + 1)) (commands m) ++ [command] in
    let kept :=
      if negb (limit m =? 0)%nat && (limit m <? List.length kept)%nat
      then skipn (List.length kept - limit m) kept
      else kept in
    undoManager kept (Z.of_nat (List.length kept) - 1) (limit m) false.

Definition hasUndo {C} (m : t C) : bool := negb (index m =? -1)%Z.

Definition hasRedo {C} (m : t C) : bool :=
  (index m <? Z.of_nat (List.length (commands m)) - 1)%Z.

(** [commands[i]] *)
Definition at_index {C} (m : t C) (i : Z) : option C :=
  if (i <? 0)%Z then None else nth_error (commands m) (Z.to_nat i).

Definition set_index {C} (i : Z) (m : t C) : t C :=
  undoManager (commands m) i (limit m) (isExecuting m).

Definition set_executing {C} (b : bool) (m : t C) : t C :=
  undoManager (commands m) (index m) (limit m) b.

Definition clear {C} (m : t C) : t C :=
  undoManager [] (-1) (limit m) (isExecuting m).

End UndoManager.

(* ===================================================================== *)
(** * SceneSerializer *)
(* ===================================================================== *)

Module SceneSerializer.

(** The pair of closures [saveState] hands to the undo manager, by the two
    snapshots they capture. *)
Record Entry : Type := entry { prevState : jsval; currState : jsval }.

(** [lastState] is [VNull] for [null].  [events] lists the [detail] of every
    [stateChanged] event dispatched, latest first. *)
Record t : Type := sceneSerializer {
  undoManager : UndoManager.t Entry;
  lastState : jsval;
  events : list (bool * bool)
}.

(** [new SceneSerializer(maxHistorySize)] *)
Definition create (maxHistorySize : nat) : t :=
  sceneSerializer (UndoManager.setLimit maxHistorySize UndoManager.create) VNull [].

Definition canUndo (s : t) : bool := UndoManager.hasUndo (undoManager s).
Definition canRedo (s : t) : bool := UndoManager.hasRedo (undoManager s).

Definition dispatchStateChanged (s : t) : t :=
  sceneSerializer (undoManager s) (lastState s) ((canUndo s, canRedo s) :: events s).

Definition with_manager (m : UndoManager.t Entry) (s : t) : t :=
  sceneSerializer m (lastState s) (events s).

Definition with_lastState (v : jsval) (s : t) : t :=
  sceneSerializer (undoManager s) v (events s).

Section Serializer.

(** The state the restore callback acts on (the editor's scene). *)
Variable W : Type.

(** [this.loadSceneCallback], [None] for [null]. *)
Variable loadSceneCallback : option (jsval -> W -> outcome unit * W).

(** [mesh.matrixWorld.decompose] followed by [Euler.setFromQuaternion]:
    world position, world rotation (Euler angles) and world scale of a
    mesh, computed by three.js. *)
Variable decompose : THREE.Mesh -> THREE.Vector3 * THREE.Vector3 * THREE.Vector3.

Definition serializeObject (obj : EditorObject) : outcome jsval :=
  let '(position, rotation, scale) := decompose (mesh obj) in
  d <- DeepCopy.deepClone (data obj) ;;
  Ok (VObj [ ("id", id obj);
             ("data", d);
             ("position", THREE.toArray position);
             ("rotation", THREE.toArray rotation);
             ("scale", THREE.toArray scale) ]).

Fixpoint serializeAll (objects : list EditorObject) : outcome (list jsval) :=
  match objects with
  | [] => Ok []
  | obj :: rest =>
      v <- serializeObject obj ;;
      vs <- serializeAll rest ;;
      Ok (v :: vs)
  end.

(** [serializeObjects(objects)] *)
Definition serializeObjects (objects : list EditorObject) : outcome jsval :=
  vs <- serializeAll objects ;;
  Ok (VObj [("objects", VArr vs [])]).

(** [if (this.loadSceneCallback) this.loadSceneCallback(state)] *)
Definition invoke_callback (state : jsval) (w : W) : outcome unit * W :=
  match loadSceneCallback with
  | Some callback => callback state w
  | None => (Ok tt, w)
  end.

(** The body shared by the [undo] and [redo] closures of an entry: restore
    [state] through the callback, record it as the last state, notify. *)
Definition restore (state : jsval) (s : t) (w : W) : outcome unit * t * W :=
  let '(r, w') := invoke_callback state w in
  match r with
  | Throw e => (Throw e, s, w')
  | Ok _ => (Ok tt, dispatchStateChanged (with_lastState state s), w')
  end.

(** [saveState(objects)] *)
Definition saveState (objects : list EditorObject) (s : t) : outcome unit * t :=
  match (st <- serializeObjects objects ;; DeepCopy.deepClone st) with
  | Throw e => (Throw e, s)
  | Ok newState =>
      let s1 :=
        match lastState s with
        | VNull => s
        | prev => with_manager (UndoManager.add (entry prev newState) (undoManager s)) s
        end in
      (Ok tt, dispatchStateChanged (with_lastState newState s1))
  end.

(** [undoManager.undo()]: run the [undo] closure of the command at the
    index, then lower the index. *)
Definition manager_undo (s : t) (w : W) : outcome unit * t * W :=
  let m := undoManager s in
  match UndoManager.at_index m (UndoManager.index m) with
  | None => (Ok tt, s, w)
  | Some command =>
      let s1 := with_manager (UndoManager.set_executing true m) s in
      match restore (prevState command) s1 w with
      | (Throw e, s2, w') => (Throw e, s2, w')
      | (Ok _, s2, w') =>
          let m2 := UndoManager.set_executing false (undoManager s2) in
          (Ok tt, with_manager (UndoManager.set_index (UndoManager.index m2 - 1) m2) s2, w')
      end
  end.

(** [undoManager.redo()]: run the [redo] closure of the command above the
    index, then raise the index. *)
Definition manager_redo (s : t) (w : W) : outcome unit * t * W :=
  let m := undoManager s in
  match UndoManager.at_index m (UndoManager.index m + 1) with
  | None => (Ok tt, s, w)
  | Some command =>
      let s1 := with_manager (UndoManager.set_executing true m) s in
      match restore (currState command) s1 w with
      | (Throw e, s2, w') => (Throw e, s2, w')
      | (Ok _, s2, w') =>
          let m2 := UndoManager.set_executing false (undoManager s2) in
          (Ok tt, with_manager (UndoManager.set_index (UndoManager.index m2 + 1) m2) s2, w')
      end
  end.

(** [undo()]: the value returned ([VNull] for [null]), the serializer and
    the scene afterwards. *)
Definition undo (s : t) (w : W) : outcome jsval * t * W :=
  if negb (canUndo s) then (Ok VNull, s, w)
  else
    match manager_undo s w with
    | (Throw e, s', w') => (Throw e, s', w')
    | (Ok _, s', w') => (Ok (lastState s'), s', w')
    end.

(** [redo()] *)
Definition redo (s : t) (w : W) : outcome jsval * t * W :=
  if negb (canRedo s) then (Ok VNull, s, w)
  else
    match manager_redo s w with
    | (Throw e, s', w') => (Throw e, s', w')
    | (Ok _, s', w') => (Ok (lastState s'), s', w')
    end.

(** [clearHistory()] *)
Definition clearHistory (s : t) : t :=
  sceneSerializer (UndoManager.clear (undoManager s)) VNull ((false, false) :: events s).

End Serializer.

(** [parseJSON(jsonString)]: the parsed state, or [null] on error. *)
Definition parseJSON (jsonString : string) : jsval :=
  match JSON.parse jsonString with
  | Some v => v
  | None => VNull
  end.

End SceneSerializer.

(* ===================================================================== *)
(** * LevelEditor: the live entity set and its restore *)
(* ===================================================================== *)

Module LevelEditor.

(** The part of the editor that [loadScene] acts on.  [reads] counts the
    ids generated so far: the clock and the random source are read once for
    each.  (The rendering scene graph and the window events are the
    collaborators' and are left out; of the scene tree panel the model keeps
    what [populate] reads of the objects.) *)
Record Scene : Type := scene {
  objects : list EditorObject;
  selectedObjects : list EditorObject;
  currentTool : string;
  reads : nat
}.

Record t : Type := levelEditor {
  live : Scene;
  serializer : SceneSerializer.t
}.

Section Editor.

(** What [Date.now()] and [Math.random().toString(36)] give at the n-th
    reading. *)
Variable clock : nat -> N * string.

Variable decompose : THREE.Mesh -> THREE.Vector3 * THREE.Vector3 * THREE.Vector3.

(** Whether the page has the [#scene-tree] element the scene tree panel is
    built on ([this.container] of the panel). *)
Variable sceneTree : bool.

(** The name [populate] writes for an object:
    [`${obj.data.type} (${obj.id.substring(obj.id.length - 4)})`].  Only a
    string has a [substring] method. *)
Definition item_name (o : EditorObject) : outcome unit :=
  type <- getprop (data o) "type" ;;
  _ <- ToString type ;;
  match id o with
  | VStr _ => Ok tt
  | VUndefined =>
      Throw (TypeError "Cannot read properties of undefined (reading 'substring')")
  | VNull =>
      Throw (TypeError "Cannot read properties of null (reading 'substring')")
  | _ => Throw (TypeError "obj.id.substring is not a function")
  end.

(** The [forEach] of [populate], which stops at the first object it cannot
    name. *)
Fixpoint item_names (objs : list EditorObject) : outcome unit :=
  match objs with
  | [] => Ok tt
  | o :: rest => _ <- item_name o ;; item_names rest
  end.

(** [populateSceneTree()]: [this.sceneTree.populate(this.objects, ...)],
    which returns at once when the panel has no container. *)
Definition populateSceneTree (sc : Scene) : outcome unit :=
  if sceneTree then item_names (objects sc) else Ok tt.

(** [selection.deselectAll()]: [obj.mesh.material.emissive?.set(0x000000)]
    on every selected object, then the selection is emptied. *)
Definition deselectAll (sc : Scene) : outcome unit * Scene :=
  if forallb (fun o => match THREE.mat (mesh o) with Some _ => true | None => false end)
       (selectedObjects sc)
  then (Ok tt, scene (objects sc) [] (currentTool sc) (reads sc))
  else (Throw (TypeError "Cannot read properties of null (reading 'emissive')"), sc).

(** [deselectAllObjects()]: [deselectAll], then back to the select tool. *)
Definition deselectAllObjects (sc : Scene) : outcome unit * Scene :=
  match deselectAll sc with
  | (Throw e, sc') => (Throw e, sc')
  | (Ok _, sc') =>
      (Ok tt, scene (objects sc') (selectedObjects sc') "select" (reads sc'))
  end.

(** The body of the [forEach] of [loadScene]: the object restored from the
    snapshot item [s]. *)
Definition restoreObject (s : jsval) (n : nat) : outcome EditorObject :=
  d <- getprop s "data" ;;
  type <- getprop d "type" ;;
  p <- getprop s "position" ;;
  position <- THREE.fromArray p ;;
  sid <- getprop s "id" ;;
  obj <- ObjectFactory.create type position sid (fst (clock n)) (snd (clock n)) ;;
  r <- getprop s "rotation" ;;
  rotation <- THREE.fromArray r ;;
  sc <- getprop s "scale" ;;
  scale <- THREE.fromArray sc ;;
  copy <- DeepCopy.deepClone d ;;
  materialType <- getprop d "materialType" ;;
  known <- MaterialsLibrary.has materialType ;;
  m <- (if known
        then MaterialsLibrary.get materialType
        else Ok (THREE.mat (mesh obj))) ;;
  Ok (editorObject (id obj)
        (THREE.set_material m
           (THREE.set_scale scale (THREE.set_rotation rotation (mesh obj))))
        copy).

(** [state.objects.forEach(s => { ...; this.objects.push(obj) })]: an item
    that throws ends the loop and leaves the objects pushed before it. *)
Fixpoint restoreAll (items : list jsval) (sc : Scene) : outcome unit * Scene :=
  match items with
  | [] => (Ok tt, sc)
  | s :: rest =>
      match restoreObject s (reads sc) with
      | Throw e => (Throw e, sc)
      | Ok obj =>
          let used := match getprop s "id" with
                      | Ok sid => if truthy sid then 0%nat else 1%nat
                      | Throw _ => 0%nat
                      end in
          restoreAll rest
            (scene (objects sc ++ [obj]) (selectedObjects sc) (currentTool sc)
               (reads sc + used))
      end
  end.

(** [loadScene(state)]: the objects are restored one by one, and then the
    scene tree is populated. *)
Definition loadScene (state : jsval) (sc : Scene) : outcome unit * Scene :=
  let cleared := scene [] (selectedObjects sc) (currentTool sc) (reads sc) in
  match deselectAllObjects cleared with
  | (Throw e, sc1) => (Throw e, sc1)
  | (Ok _, sc1) =>
      match getprop state "objects" with
      | Throw e => (Throw e, sc1)
      | Ok (VArr items _) =>
          match restoreAll items sc1 with
          | (Throw e, sc2) => (Throw e, sc2)
          | (Ok _, sc2) => (populateSceneTree sc2, sc2)
          end
      | Ok VUndefined =>
          (Throw (TypeError "Cannot read properties of undefined (reading 'forEach')"), sc1)
      | Ok VNull =>
          (Throw (TypeError "Cannot read properties of null (reading 'forEach')"), sc1)
      | Ok _ => (Throw (TypeError "state.objects.forEach is not a function"), sc1)
      end
  end.

(** The serializer of the editor restores through [loadScene]. *)
Definition callback : option (jsval -> Scene -> outcome unit * Scene) :=
  Some loadScene.

(** [saveState()] *)
Definition saveState (ed : t) : outcome unit * t :=
  let '(r, s') := SceneSerializer.saveState decompose (objects (live ed)) (serializer ed) in
  (r, levelEditor (live ed) s').

(** [undo()] and [redo()] *)
Definition undo (ed : t) : outcome unit * t :=
  let '(r, s', sc') :=
    SceneSerializer.undo Scene callback (serializer ed) (live ed) in
  (_ <- r ;; Ok tt, levelEditor sc' s').

Definition redo (ed : t) : outcome unit * t :=
  let '(r, s', sc') :=
    SceneSerializer.redo Scene callback (serializer ed) (live ed) in
  (_ <- r ;; Ok tt, levelEditor sc' s').

(** [importScene(json)] *)
Definition importScene (json : string) (ed : t) : outcome bool * t :=
  let s := SceneSerializer.parseJSON json in
  if truthy s then
    match loadScene s (live ed) with
    | (Throw e, sc') => (Throw e, levelEditor sc' (serializer ed))
    | (Ok _, sc') =>
        match saveState (levelEditor sc' (serializer ed)) with
        | (Throw e, ed') => (Throw e, ed')
        | (Ok _, ed') => (Ok true, ed')
        end
    end
  else (Ok false, ed).

(** [new LevelEditor(...)], as far as the state above goes. *)
Definition create : t :=
  levelEditor (scene [] [] "select" 0) (SceneSerializer.create 50).

(** [addObject(type, pos)]: the object is created and pushed, the state is
    saved, and the scene tree is populated. *)
Definition addObject (type : jsval) (pos : THREE.Vector3) (ed : t)
  : outcome EditorObject * t :=
  let sc := live ed in
  match ObjectFactory.create type pos VNull (fst (clock (reads sc))) (snd (clock (reads sc))) with
  | Throw e => (Throw e, ed)
  | Ok obj =>
      let sc' := scene (objects sc ++ [obj]) (selectedObjects sc) (currentTool sc)
                   (S (reads sc)) in
      match saveState (levelEditor sc' (serializer ed)) with
      | (Throw e, ed') => (Throw e, ed')
      | (Ok _, ed') =>
          match populateSceneTree sc' with
          | Throw e => (Throw e, ed')
          | Ok _ => (Ok obj, ed')
          end
      end
  end.

End Editor.

End LevelEditor.

(* ===================================================================== *)
(** * The command editor: objects by reference *)
(* ===================================================================== *)

(** Commands hold a reference to their target and mutate it in place, so the
    editor objects live in a store and a reference is an index into it.
    [signals] lists the objects [signals.objectChanged] was dispatched
    for, latest first. *)
Module Editor.

Abbreviation ref := nat (only parsing).

Record t : Type := editor {
  store : list EditorObject;
  signals : list ref
}.

(** The mesh of the object behind a reference, updated in place. *)
Definition update_mesh (r : ref) (f : THREE.Mesh -> THREE.Mesh) (ed : t) : t :=
  editor (alter (fun o => editorObject (id o) (f (mesh o)) (data o)) r (store ed))
         (signals ed).

Definition dispatch_objectChanged (r : ref) (ed : t) : t :=
  editor (store ed) (r :: signals ed).

End Editor.

(** The contract of [Command]: what the history calls on every command.
    [St] is the state a command acts on. *)
Module Command.

Class t (St C : Type) : Type := {
  execute : C -> St -> outcome unit * St;
  undo : C -> St -> outcome unit * St;
  update : C -> C -> C;
  type : C -> string;
  updatable : C -> bool;
  target : C -> option Editor.ref
}.

End Command.

(** [SetPositionCommand] *)
Module SetPositionCommand.

(** [object] is [None] when [this.object] is [null] or [undefined]. *)
Record t : Type := command {
  object : option Editor.ref;
  newPosition : THREE.Vector3;
  oldPosition : THREE.Vector3
}.

(** [new SetPositionCommand(editor, object, newPosition, oldPosition)]:
    [object.mesh || object] is read first; an omitted new position is the
    zero vector, an omitted old position is the current one of the mesh. *)
Definition create (ed : Editor.t) (object : option Editor.ref)
    (newPosition oldPosition : option THREE.Vector3) : outcome t :=
  match object with
  | None => Throw (TypeError "Cannot read properties of undefined (reading 'mesh')")
  | Some r =>
      Ok (command (Some r)
            (default THREE.zero newPosition)
            (match oldPosition with
             | Some v => v
             | None =>
                 match Editor.store ed !! r with
                 | Some o => THREE.position (mesh o)
                 | None => THREE.zero
                 end
             end))
  end.

(** [execute()]: [mesh = this.object.mesh || this.object;
    mesh.position.copy(this.newPosition); mesh.updateMatrixWorld(true);
    this.editor.signals.objectChanged.dispatch(mesh)] *)
Definition execute (c : t) (ed : Editor.t) : outcome unit * Editor.t :=
  match object c with
  | None => (Throw (TypeError "Cannot read properties of null (reading 'mesh')"), ed)
  | Some r =>
      (Ok tt,
       Editor.dispatch_objectChanged r
         (Editor.update_mesh r (THREE.set_position (newPosition c)) ed))
  end.

(** [undo()]: the same with [this.oldPosition]. *)
Definition undo (c : t) (ed : Editor.t) : outcome unit * Editor.t :=
  match object c with
  | None => (Throw (TypeError "Cannot read properties of null (reading 'mesh')"), ed)
  | Some r =>
      (Ok tt,
       Editor.dispatch_objectChanged r
         (Editor.update_mesh r (THREE.set_position (oldPosition c)) ed))
  end.

(** [update(cmd)]: [this.newPosition.copy(cmd.newPosition)] *)
Definition update (c cmd : t) : t :=
  command (object c) (newPosition cmd) (oldPosition c).

(** [fromJSON(json)], given what [editor.objectById] finds for an id
    ([None] when it finds nothing). *)
Definition fromJSON (objectById : jsval -> option Editor.ref) (json : jsval) (c : t)
  : outcome t :=
  uuid <- getprop json "objectUuid" ;;
  o <- getprop json "oldPosition" ;;
  old <- THREE.fromArray o ;;
  n <- getprop json "newPosition" ;;
  new <- THREE.fromArray n ;;
  Ok (command (objectById uuid) new old).

End SetPositionCommand.

#[export] Instance SetPosition_Command : Command.t Editor.t SetPositionCommand.t := {
  Command.execute := SetPositionCommand.execute;
  Command.undo := SetPositionCommand.undo;
  Command.update := SetPositionCommand.update;
  Command.type := fun _ => "SetPositionCommand";
  Command.updatable := fun _ => true;
  Command.target := SetPositionCommand.object
}.

(* ===================================================================== *)
(** * RemoveObjectCommand *)
(* ===================================================================== *)

Module RemoveObjectCommand.

Record t : Type := command {
  object : option Editor.ref;
  parent : option Editor.ref;
  index : Z
}.

Section EditorMethods.

(** The state of the editor of [Editor.js], and the four methods of it the
    command calls: they are not among the sources, and the lemmas below
    hold whatever they do. *)
Variable St : Type.
Variable removeObject : Editor.ref -> St -> outcome unit * St.
Variable deselect : St -> outcome unit * St.
Variable addObject : option Editor.ref -> option Editor.ref -> Z -> St -> outcome unit * St.
Variable select : option Editor.ref -> St -> outcome unit * St.
(** [this.parent.children.indexOf(this.object)] *)
Variable indexOf : Editor.ref -> Editor.ref -> St -> Z.

(** [execute()]: guarded by [this.object && this.parent]. *)
Definition execute (c : t) (st : St) : outcome unit * t * St :=
  match object c, parent c with
  | Some o, Some p =>
      let c' := command (object c) (parent c) (indexOf p o st) in
      match removeObject o st with
      | (Throw e, st1) => (Throw e, c', st1)
      | (Ok _, st1) =>
          let '(r, st2) := deselect st1 in (r, c', st2)
      end
  | _, _ => (Ok tt, c, st)
  end.

(** [undo()]: no guard. *)
Definition undo (c : t) (st : St) : outcome unit * t * St :=
  match addObject (object c) (parent c) (index c) st with
  | (Throw e, st1) => (Throw e, c, st1)
  | (Ok _, st1) => let '(r, st2) := select (object c) st1 in (r, c, st2)
  end.

End EditorMethods.

End RemoveObjectCommand.

(* ===================================================================== *)
(** * MultiCmdsCommand *)
(* ===================================================================== *)

Module MultiCmdsCommand.

Section Members.

Context {St C : Type} `{Command.t St C}.

(** [execute()]: [for (const cmd of this.commands) cmd.execute()].  A member
    that throws ends the loop. *)
Fixpoint execute (commands : list C) (st : St) : outcome unit * St :=
  match commands with
  | [] => (Ok tt, st)
  | cmd :: rest =>
      match Command.execute cmd st with
      | (Throw e, st') => (Throw e, st')
      | (Ok _, st') => execute rest st'
      end
  end.

(** The loop of [undo()] with [n] standing for [i + 1]:
    [for (let i = this.commands.length - 1; i >= 0; i--)
       this.commands[i].undo()]. *)
Fixpoint undo_from (n : nat) (commands : list C) (st : St) : outcome unit * St :=
  match n with
  | O => (Ok tt, st)
  | S i =>
      match commands !! i with
      | None =>
          (Throw (TypeError "Cannot read properties of undefined (reading 'undo')"), st)
      | Some cmd =>
          match Command.undo cmd st with
          | (Throw e, st') => (Throw e, st')
          | (Ok _, st') => undo_from i commands st'
          end
      end
  end.

Definition undo (commands : list C) (st : St) : outcome unit * St :=
  undo_from (List.length commands) commands st.

(** What the specification says of a composite, in its own words: the
    members' operation [op], one member after the other in the order of
    [members], stopping at a member that throws. *)
Fixpoint in_order (op : C -> St -> outcome unit * St) (members : list C) (st : St)
  : outcome unit * St :=
  match members with
  | [] => (Ok tt, st)
  | m :: rest =>
      match op m st with
      | (Throw e, st') => (Throw e, st')
      | (Ok _, st') => in_order op rest st'
      end
  end.

End Members.

End MultiCmdsCommand.

(** A composite is a command: not mergeable, without a target of its own. *)
#[export] Instance MultiCmds_Command {St C : Type} `{Command.t St C}
  : Command.t St (list C) := {
  Command.execute := MultiCmdsCommand.execute;
  Command.undo := MultiCmdsCommand.undo;
  Command.update := fun c _ => c;
  Command.type := fun _ => "MultiCmdsCommand";
  Command.updatable := fun _ => false;
  Command.target := fun _ => None
}.

(** A command that only records that it was called: the state is the list of
    calls made so far, latest last. *)
Module Probe.

Inductive call : Type :=
| Executed (label : nat)
| Undone (label : nat).

#[global] Instance Probe_Command : Command.t (list call) nat := {
  Command.execute := fun label calls => (Ok tt, calls ++ [Executed label]);
  Command.undo := fun label calls => (Ok tt, calls ++ [Undone label]);
  Command.update := fun c _ => c;
  Command.type := fun _ => "Probe";
  Command.updatable := fun _ => false;
  Command.target := fun _ => None
}.

End Probe.

(* ===================================================================== *)
(** * History *)
(* ===================================================================== *)

Module History.

(** Modelled from the spec: the history stack of section 4.3 ([History.js] is
    not among the sources).  A bounded undo stack and a redo stack, top
    first; [changes] counts the change notifications emitted. *)
Record t (C : Type) : Type := history {
  undos : list C;
  redos : list C;
  capacity : nat;
  changes : nat
}.
Arguments history {C}.
Arguments undos {C}.
Arguments redos {C}.
Arguments capacity {C}.
Arguments changes {C}.

Section Stack.

Context {St C : Type} `{Command.t St C}.

(** Modelled from the spec: a new history of capacity N (default 50). *)
Definition create (capacity : nat) : t C := history [] [] capacity 0.

(** Modelled from the spec: "execute(command): command.execute(); push to
    undo stack (evict oldest if over capacity); clear redo stack; emit a
    change notification".  A command that throws aborts the operation. *)
Definition execute (command : C) (h : t C) (st : St) : outcome unit * t C * St :=
  match Command.execute command st with
  | (Throw e, st') => (Throw e, h, st')
  | (Ok _, st') =>
      (Ok tt,
       history (firstn (capacity h) (command :: undos h)) [] (capacity h) (S (changes h)),
       st')
  end.

(** Modelled from the spec: "undo(): no-op if undo stack empty; else pop,
    command.undo(), push to redo stack, emit change notification". *)
Definition undo (h : t C) (st : St) : outcome unit * t C * St :=
  match undos h with
  | [] => (Ok tt, h, st)
  | command :: rest =>
      match Command.undo command st with
      | (Throw e, st') => (Throw e, h, st')
      | (Ok _, st') =>
          (Ok tt, history rest (command :: redos h) (capacity h) (S (changes h)), st')
      end
  end.

(** Modelled from the spec: "redo(): symmetric, no-op if redo stack empty". *)
Definition redo (h : t C) (st : St) : outcome unit * t C * St :=
  match redos h with
  | [] => (Ok tt, h, st)
  | command :: rest =>
      match Command.execute command st with
      | (Throw e, st') => (Throw e, h, st')
      | (Ok _, st') =>
          (Ok tt, history (command :: undos h) rest (capacity h) (S (changes h)), st')
      end
  end.

Definition same_target (a b : option Editor.ref) : bool :=
  match a, b with
  | Some r, Some r' => (r =? r')%nat
  | _, _ => false
  end.

(** Modelled from the spec: "mergeOrPush(command): if the top of the undo
    stack is the same kind and same target and mergeable, call its
    update(command) instead of pushing a new entry; otherwise pushes
    normally". *)
Definition mergeOrPush (command : C) (h : t C) (st : St) : outcome unit * t C * St :=
  match undos h with
  | top :: rest =>
      if String.eqb (Command.type top) (Command.type command)
         && same_target (Command.target top) (Command.target command)
         && Command.updatable top
      then (Ok tt, history (Command.update top command :: rest) (redos h) (capacity h)
                     (changes h), st)
      else execute command h st
  | [] => execute command h st
  end.

End Stack.

End History.

(* ===================================================================== *)
(** * PropertyUpdater, GridManager.snapObject, SetPropertyValueCommand *)
(* ===================================================================== *)

Module Sync.

(** [data.k], read as the vector [{ x, y, z }] it holds. *)
Definition data_vector (o : EditorObject) (k : string) : outcome THREE.Vector3 :=
  d <- getprop (data o) k ;;
  dx <- getprop d "x" ;;
  dy <- getprop d "y" ;;
  dz <- getprop d "z" ;;
  Ok (THREE.vec3 dx dy dz).

(** No drift: the transform stored in the semantic data is the transform of
    the mesh. *)
Definition in_sync (o : EditorObject) : Prop :=
  data_vector o "position" = Ok (THREE.position (mesh o))
  /\ data_vector o "rotation" = Ok (THREE.rotation (mesh o))
  /\ data_vector o "scale" = Ok (THREE.scale (mesh o)).

(** [data.k.c = v] *)
Definition set_data (d : jsval) (k c : string) (v : jsval) : outcome jsval :=
  inner <- getprop d k ;;
  inner' <- setprop inner c v ;;
  setprop d k inner'.

Definition set_component (c : string) (v : jsval) (u : THREE.Vector3) : THREE.Vector3 :=
  if String.eqb c "x" then THREE.vec3 v (THREE.y u) (THREE.z u)
  else if String.eqb c "y" then THREE.vec3 (THREE.x u) v (THREE.z u)
  else THREE.vec3 (THREE.x u) (THREE.y u) v.

Definition component (c : string) (u : THREE.Vector3) : jsval :=
  if String.eqb c "x" then THREE.x u
  else if String.eqb c "y" then THREE.y u
  else THREE.z u.

End Sync.

Module PropertyUpdater.

Section Numbers.

(** The arithmetic of the language: [a / b], [parseFloat(v)] and
    [THREE.MathUtils.degToRad(v)], on values that can be made primitives.
    A division starts by making both operands primitives and [parseFloat]
    by making its argument a text, which throws for some objects
    ([ToPrimitive]); past that, none of the three throws. *)
Variable divide : jsval -> jsval -> jsval.
Variable parseFloat : jsval -> jsval.
Variable degToRad : jsval -> jsval.

(** [mesh.scale.c = value / data.size.dim; data.scale.c = mesh.scale.c] *)
Definition update_size (o : EditorObject) (dim c : string) (value : jsval)
  : outcome unit * EditorObject :=
  match (sz <- getprop (data o) "size" ;;
         d <- getprop sz dim ;;
         _ <- ToPrimitive value ;;
         _ <- ToPrimitive d ;;
         Ok d) with
  | Throw e => (Throw e, o)
  | Ok d =>
      let v := divide value d in
      let m := THREE.set_scale (Sync.set_component c v (THREE.scale (mesh o))) (mesh o) in
      match Sync.set_data (data o) "scale" c v with
      | Throw e => (Throw e, editorObject (id o) m (data o))
      | Ok d' => (Ok tt, editorObject (id o) m d')
      end
  end.

(** [mesh.position.c = parseFloat(value); data.position.c = mesh.position.c] *)
Definition update_position (o : EditorObject) (c : string) (value : jsval)
  : outcome unit * EditorObject :=
  match ToPrimitive value with
  | Throw e => (Throw e, o)
  | Ok _ =>
      let v := parseFloat value in
      let m := THREE.set_position (Sync.set_component c v (THREE.position (mesh o)))
                 (mesh o) in
      match Sync.set_data (data o) "position" c v with
      | Throw e => (Throw e, editorObject (id o) m (data o))
      | Ok d' => (Ok tt, editorObject (id o) m d')
      end
  end.

(** [mesh.rotation.c = degToRad(parseFloat(value));
    data.rotation.c = mesh.rotation.c] *)
Definition update_rotation (o : EditorObject) (c : string) (value : jsval)
  : outcome unit * EditorObject :=
  match ToPrimitive value with
  | Throw e => (Throw e, o)
  | Ok _ =>
      let v := degToRad (parseFloat value) in
      let m := THREE.set_rotation (Sync.set_component c v (THREE.rotation (mesh o)))
                 (mesh o) in
      match Sync.set_data (data o) "rotation" c v with
      | Throw e => (Throw e, editorObject (id o) m (data o))
      | Ok d' => (Ok tt, editorObject (id o) m d')
      end
  end.

(** [if (this.materials.has(value)) { mesh.material = this.materials.get(value);
    data.materialType = value; }] *)
Definition update_material (o : EditorObject) (value : jsval)
  : outcome unit * EditorObject :=
  match MaterialsLibrary.has value with
  | Throw e => (Throw e, o)
  | Ok false => (Ok tt, o)
  | Ok true =>
      match MaterialsLibrary.get value with
      | Throw e => (Throw e, o)
      | Ok k =>
          let m := THREE.set_material k (mesh o) in
          match setprop (data o) "materialType" value with
          | Throw e => (Throw e, editorObject (id o) m (data o))
          | Ok d' => (Ok tt, editorObject (id o) m d')
          end
      end
  end.

(** [update(editorObject, property, value)]: the [switch] on [property]. *)
Definition update (o : EditorObject) (property : string) (value : jsval)
  : outcome unit * EditorObject :=
  if String.eqb property "materialType" then update_material o value
  else if String.eqb property "width" then update_size o "width" "x" value
  else if String.eqb property "height" then update_size o "height" "y" value
  else if String.eqb property "depth" then update_size o "depth" "z" value
  else if String.eqb property "x" then update_position o "x" value
  else if String.eqb property "y" then update_position o "y" value
  else if String.eqb property "z" then update_position o "z" value
  else if String.eqb property "rot-x" then update_rotation o "x" value
  else if String.eqb property "rot-y" then update_rotation o "y" value
  else if String.eqb property "rot-z" then update_rotation o "z" value
  else (Ok tt, o).

End Numbers.

End PropertyUpdater.

Module GridManager.

Section Rounding.

(** [Math.round(v)] *)
Variable Math_round : jsval -> jsval.

(** [snapPosition(position, includeY = false)] *)
Definition snapPosition (position : THREE.Vector3) (includeY : bool) : THREE.Vector3 :=
  THREE.vec3 (Math_round (THREE.x position))
    (if includeY then Math_round (THREE.y position) else THREE.y position)
    (Math_round (THREE.z position)).

(** [snapObject(editorObject)]: nothing for a missing object; else the mesh
    position is snapped and its [x] and [z] are copied into the data. *)
Definition snapObject (target : option EditorObject)
  : outcome unit * option EditorObject :=
  match target with
  | None => (Ok tt, None)
  | Some o =>
      let p := snapPosition (THREE.position (mesh o)) false in
      let m := THREE.set_position p (mesh o) in
      match Sync.set_data (data o) "position" "x" (THREE.x p) with
      | Throw e => (Throw e, Some (editorObject (id o) m (data o)))
      | Ok d1 =>
          match Sync.set_data d1 "position" "z" (THREE.z p) with
          | Throw e => (Throw e, Some (editorObject (id o) m d1))
          | Ok d2 => (Ok tt, Some (editorObject (id o) m d2))
          end
      end
  end.

End Rounding.

End GridManager.

Module SetPropertyValueCommand.

Record t : Type := command {
  object : option Editor.ref;
  property : string;
  newValue : jsval;
  oldValue : jsval
}.

Section Numbers.

Variable divide : jsval -> jsval -> jsval.
Variable parseFloat : jsval -> jsval.
Variable degToRad : jsval -> jsval.

(** [this.editor.propertyUpdater.update(this.object, this.property, v);
    this.editor.signals.objectChanged.dispatch(this.object)].  (A reference
    designates an object of the store; for an index beyond the store there
    is nothing to update.) *)
Definition apply (c : t) (v : jsval) (ed : Editor.t) : outcome unit * Editor.t :=
  match object c with
  | None => (Throw (TypeError "Cannot read properties of null (reading 'mesh')"), ed)
  | Some r =>
      match Editor.store ed !! r with
      | None => (Ok tt, Editor.dispatch_objectChanged r ed)
      | Some o =>
          match PropertyUpdater.update divide parseFloat degToRad o (property c) v with
          | (Throw e, o') => (Throw e, Editor.editor (<[r := o']> (Editor.store ed)) (Editor.signals ed))
          | (Ok _, o') =>
              (Ok tt, Editor.dispatch_objectChanged r
                        (Editor.editor (<[r := o']> (Editor.store ed)) (Editor.signals ed)))
          end
      end
  end.

Definition execute (c : t) (ed : Editor.t) : outcome unit * Editor.t :=
  apply c (newValue c) ed.

Definition undo (c : t) (ed : Editor.t) : outcome unit * Editor.t :=
  apply c (oldValue c) ed.

(** [update(cmd)]: [this.newValue = cmd.newValue] *)
Definition update (c cmd : t) : t :=
  command (object c) (property c) (newValue cmd) (oldValue c).

End Numbers.

End SetPropertyValueCommand.

(* ===================================================================== *)
(** * Maps *)
(* ===================================================================== *)

(** [new Map()]: the entries in insertion order.  Keys are compared as
    [SameValueZero] compares them, which is equality for the strings and
    the identities used as keys here. *)
Module JSMap.

Section Entries.

Context {K V : Type} `{EqDecision K}.

(** [map.get(k)], [None] when there is no entry. *)
Fixpoint get (m : list (K * V)) (k : K) : option V :=
  match m with
  | [] => None
  | (k', v) :: rest => if decide (k' = k) then Some v else get rest k
  end.

(** [map.has(k)] *)
Definition has (m : list (K * V)) (k : K) : bool :=
  match get m k with Some _ => true | None => false end.

(** [map.set(k, v)]: the value of an existing entry is replaced where it
    is, a new entry goes to the end. *)
Fixpoint set (m : list (K * V)) (k : K) (v : V) : list (K * V) :=
  match m with
  | [] => [(k, v)]
  | (k', w) :: rest =>
      if decide (k' = k) then (k', v) :: rest else (k', w) :: set rest k v
  end.

(** [map.delete(k)] *)
Definition delete (m : list (K * V)) (k : K) : list (K * V) :=
  List.filter (fun kv => negb (bool_decide (fst kv = k))) m.

End Entries.

End JSMap.

#[global] Instance string_eq_decision : EqDecision string := String.string_dec.

(** Arrays of values that are compared by identity. *)
Module JSArray.

(** [i = array.indexOf(x)], then [array.splice(i, 1)] when [i] is not -1:
    the first occurrence of [x] goes. *)
Fixpoint remove_first {A} `{EqDecision A} (x : A) (array : list A) : list A :=
  match array with
  | [] => []
  | y :: rest => if decide (y = x) then rest else y :: remove_first x rest
  end.

(** [array.includes(x)] *)
Definition includes {A} `{EqDecision A} (x : A) (array : list A) : bool :=
  existsb (fun y => bool_decide (y = x)) array.

End JSArray.

(* ===================================================================== *)
(** * EditorEvents *)
(* ===================================================================== *)

(** The event bus of [src/editor/events/EditorEvents.js].  A callback is a
    function object: it is known by its identity, and what it does when
    called is given apart ([call] below), so that a callback can subscribe
    and unsubscribe callbacks of the bus it is called from. *)
Module EditorEvents.

Definition fn : Type := nat.

(** [this.listeners]: event name to the array of its callbacks. *)
Definition t : Type := list (string * list fn).

(** [new EditorEvents()] *)
Definition create : t := [].

(** The callbacks of an event, none when the event has no entry. *)
Definition listeners (bus : t) (event : string) : list fn :=
  default [] (JSMap.get bus event).

(** [on(event, callback)]: the array of the event is created when missing,
    and the callback is pushed onto it.  (The function [on] returns is
    [() => this.off(event, callback)].) *)
Definition on (event : string) (callback : fn) (bus : t) : t :=
  let bus' := if JSMap.has bus event then bus else JSMap.set bus event [] in
  JSMap.set bus' event (listeners bus' event ++ [callback]).

(** [off(event, callback)]: the first occurrence of the callback in the
    array of the event is spliced out. *)
Definition off (event : string) (callback : fn) (bus : t) : t :=
  match JSMap.get bus event with
  | None => bus
  | Some callbacks => JSMap.set bus event (JSArray.remove_first callback callbacks)
  end.

Section Emit.

(** What the callbacks act on besides the bus. *)
Variable W : Type.

(** [callback(data)]: the outcome of the call, the bus and the rest
    afterwards. *)
Variable call : fn -> jsval -> t -> W -> outcome unit * t * W.

(** The [forEach] of [emit], with [n] indices still to visit from index [k]
    on.  The number of visits is fixed when the loop starts; the array is
    read anew at every index, and an index the array does not have any more
    is passed over. *)
Fixpoint emit_from (n k : nat) (event : string) (data : jsval) (bus : t) (w : W)
  : outcome unit * t * W :=
  match n with
  | O => (Ok tt, bus, w)
  | S n' =>
      match listeners bus event !! k with
      | None => emit_from n' (S k) event data bus w
      | Some callback =>
          match call callback data bus w with
          | (Throw e, bus', w') => (Throw e, bus', w')
          | (Ok _, bus', w') => emit_from n' (S k) event data bus' w'
          end
      end
  end.

(** [emit(event, data)] *)
Definition emit (event : string) (data : jsval) (bus : t) (w : W)
  : outcome unit * t * W :=
  match JSMap.get bus event with
  | None => (Ok tt, bus, w)
  | Some callbacks => emit_from (List.length callbacks) 0 event data bus w
  end.

(** The callbacks of a list called one after the other with [data], up to
    the first that throws. *)
Fixpoint call_each (callbacks : list fn) (data : jsval) (bus : t) (w : W)
  : outcome unit * t * W :=
  match callbacks with
  | [] => (Ok tt, bus, w)
  | c :: rest =>
      match call c data bus w with
      | (Throw e, bus', w') => (Throw e, bus', w')
      | (Ok _, bus', w') => call_each rest data bus' w'
      end
  end.

End Emit.

(** Callbacks that write their identity and the data they get into a log and
    leave the bus alone. *)
Definition logging : fn -> jsval -> t -> list (fn * jsval) -> outcome unit * t * list (fn * jsval) :=
  fun c data bus log => (Ok tt, bus, log ++ [(c, data)]).

(** The same, except that the callback [a] also unsubscribes itself from
    [event] (a listener that wants to be called once). *)
Definition once (event : string) (a : fn)
  : fn -> jsval -> t -> list (fn * jsval) -> outcome unit * t * list (fn * jsval) :=
  fun c data bus log =>
    (Ok tt, (if decide (c = a) then off event a bus else bus), log ++ [(c, data)]).

End EditorEvents.

(* ===================================================================== *)
(** * AssetRegistry and AddAssetCommand *)
(* ===================================================================== *)

(** [src/editor/core/AssetRegistry.js].  Asset ids are strings.  What the
    listeners of [editor.events] do with an event is theirs: the registry
    keeps the list of the events it emitted. *)
Module AssetRegistry.

(** An event handed to [editor.events.emit]: its name, and the [id] and the
    [asset] of its payload. *)
Record emission : Type := emitted {
  event : string;
  assetId : string;
  asset : jsval
}.

Record t : Type := assetRegistry {
  assets : list (string * jsval);
  emissions : list emission
}.

(** [new AssetRegistry(editor)] *)
Definition create : t := assetRegistry [] [].

(** [register(id, asset)] *)
Definition register (id : string) (a : jsval) (r : t) : t :=
  assetRegistry (JSMap.set (assets r) id a)
    (emissions r ++ [emitted "assetRegistered" id a]).

(** [get(id)], [undefined] when there is no such asset. *)
Definition get (id : string) (r : t) : jsval :=
  default VUndefined (JSMap.get (assets r) id).

(** [unregister(id)] *)
Definition unregister (id : string) (r : t) : t :=
  match JSMap.get (assets r) id with
  | Some a =>
      assetRegistry (JSMap.delete (assets r) id)
        (emissions r ++ [emitted "assetUnregistered" id a])
  | None => r
  end.

(** [asset.type === type] *)
Definition has_type (type : string) (a : jsval) : outcome bool :=
  ty <- getprop a "type" ;;
  Ok (match ty with VStr s => String.eqb s type | _ => false end).

(** The [filter] of [listByType]: it reads [asset.type] of every entry. *)
Fixpoint matching (type : string) (entries : list (string * jsval))
  : outcome (list (string * jsval)) :=
  match entries with
  | [] => Ok []
  | (id, a) :: rest =>
      keep <- has_type type a ;;
      rest' <- matching type rest ;;
      Ok (if keep then (id, a) :: rest' else rest')
  end.

(** The own enumerable properties a spread [...value] copies. *)
Definition own_properties (v : jsval) : list (string * jsval) :=
  match v with
  | VObj fields => fields
  | VArr items props =>
      imap (fun i item => (NilZero.string_of_uint (Nat.to_uint i), item)) items ++ props
  | VStr s =>
      imap (fun i c => (NilZero.string_of_uint (Nat.to_uint i), VStr (String c EmptyString)))
        (list_ascii_of_string s)
  | _ => []
  end.

(** [{ id, ...asset }] *)
Definition with_id (id : string) (a : jsval) : jsval :=
  VObj (fold_left (fun acc kv => set_own acc (fst kv) (snd kv))
          (own_properties a) [("id", VStr id)]).

(** [listByType(type)] *)
Definition listByType (type : string) (r : t) : outcome (list jsval) :=
  kept <- matching type (assets r) ;;
  Ok (map (fun entry => with_id (fst entry) (snd entry)) kept).

End AssetRegistry.

(** [src/editor/commands/AddAssetCommand.js] *)
Module AddAssetCommand.

Record t : Type := command {
  assetId : string;
  assetData : jsval
}.

(** [execute()]: [this.editor.assets.register(this.assetId, this.assetData)] *)
Definition execute (c : t) (r : AssetRegistry.t) : AssetRegistry.t :=
  AssetRegistry.register (assetId c) (assetData c) r.

(** [undo()]: [this.editor.assets.unregister(this.assetId)] *)
Definition undo (c : t) (r : AssetRegistry.t) : AssetRegistry.t :=
  AssetRegistry.unregister (assetId c) r.

End AddAssetCommand.

(* ===================================================================== *)
(** * ScriptManager and SetScriptCommand *)
(* ===================================================================== *)

(** The script manager (with [ThreeShim.js] among the sources).  [K] is the
    type of the ids of objects, [S] that of script objects, which
    [indexOf] compares by identity. *)
Module ScriptManager.

Section Scripts.

Context {K S : Type} `{EqDecision K} `{EqDecision S}.

(** [scripts]: object id to the array of its scripts.  [emissions]: the
    events handed to [editor.events.emit], with the id of the object and
    the script of their payload. *)
Record t : Type := scriptManager {
  scripts : list (K * list S);
  running : bool;
  emissions : list (string * K * S)
}.

(** [new ScriptManager(editor)] *)
Definition create : t := scriptManager [] false [].

(** The scripts attached to an object. *)
Definition attached (m : t) (k : K) : list S := default [] (JSMap.get (scripts m) k).

(** [add(object, script)], with [None] for an object that is [null] or
    [undefined] and [Some id] for an object whose [id] is [id]. *)
Definition add (object : option K) (script : S) (m : t) : outcome unit * t :=
  match object with
  | None => (Throw (TypeError "Cannot read properties of null (reading 'id')"), m)
  | Some k =>
      let table := if JSMap.has (scripts m) k then scripts m
                   else JSMap.set (scripts m) k [] in
      (Ok tt,
       scriptManager (JSMap.set table k (default [] (JSMap.get table k) ++ [script]))
         (running m) (emissions m ++ [("scriptAdded", k, script)]))
  end.

(** [remove(object, script)] *)
Definition remove (object : option K) (script : S) (m : t) : outcome unit * t :=
  match object with
  | None => (Throw (TypeError "Cannot read properties of null (reading 'id')"), m)
  | Some k =>
      match JSMap.get (scripts m) k with
      | None => (Ok tt, m)
      | Some arr =>
          if JSArray.includes script arr then
            (Ok tt,
             scriptManager (JSMap.set (scripts m) k (JSArray.remove_first script arr))
               (running m) (emissions m ++ [("scriptRemoved", k, script)]))
          else (Ok tt, m)
      end
  end.

(** [start()] and [stop()] *)
Definition start (m : t) : t := scriptManager (scripts m) true (emissions m).
Definition stop (m : t) : t := scriptManager (scripts m) false (emissions m).

End Scripts.

Arguments t K S : clear implicits.

End ScriptManager.

(** [SetScriptCommand] *)
Module SetScriptCommand.

Section Scripts.

Context {K S : Type} `{EqDecision K} `{EqDecision S}.

(** [oldScript] is [None] for [null]. *)
Record t : Type := command {
  object : option K;
  script : S;
  oldScript : option S
}.

(** [execute()] *)
Definition execute (c : t) (m : ScriptManager.t K S) : outcome unit * ScriptManager.t K S :=
  let '(r, m1) :=
    match oldScript c with
    | Some old => ScriptManager.remove (object c) old m
    | None => (Ok tt, m)
    end in
  match r with
  | Throw e => (Throw e, m1)
  | Ok _ => ScriptManager.add (object c) (script c) m1
  end.

(** [undo()] *)
Definition undo (c : t) (m : ScriptManager.t K S) : outcome unit * ScriptManager.t K S :=
  match ScriptManager.remove (object c) (script c) m with
  | (Throw e, m1) => (Throw e, m1)
  | (Ok _, m1) =>
      match oldScript c with
      | Some old => ScriptManager.add (object c) old m1
      | None => (Ok tt, m1)
      end
  end.

End Scripts.

Arguments t K S : clear implicits.

End SetScriptCommand.

(* ===================================================================== *)
(** * MaterialsLibrary and ObjectFactory, the other methods *)
(* ===================================================================== *)

(** The list of names of [MaterialsLibrary]. *)
Module MaterialNames.

(** [getNames()]: [Object.keys(this.materials)] *)
Definition getNames : list string := map fst MaterialsLibrary.materials.

End MaterialNames.

(** [ObjectFactory.clone] ([src/core/ObjectFactory.js]). *)
Module Cloning.

(** [clone(editorObject, newPosition)] of [ObjectFactory].  [now] and
    [random36] are what [generateId] reads: [create] is called without an
    id. *)
Definition clone (o : EditorObject) (newPosition : THREE.Vector3)
    (now : N) (random36 : string) : outcome EditorObject :=
  type <- getprop (data o) "type" ;;
  newObj <- ObjectFactory.create type newPosition VNull now random36 ;;
  copy <- DeepCopy.deepClone (data o) ;;
  d <- setprop copy "position" (THREE.toObject newPosition) ;;
  materialType <- getprop (data o) "materialType" ;;
  known <- MaterialsLibrary.has materialType ;;
  m <- (if known
        then MaterialsLibrary.get materialType
        else Ok (THREE.mat (mesh newObj))) ;;
  Ok (editorObject (id newObj)
        (THREE.set_material m
           (THREE.set_scale (THREE.scale (mesh o))
              (THREE.set_rotation (THREE.rotation (mesh o)) (mesh newObj))))
        d).

End Cloning.

(* ===================================================================== *)
(** * The other transform commands *)
(* ===================================================================== *)

(** [SetScaleCommand] *)
Module SetScaleCommand.

Record t : Type := command {
  object : option Editor.ref;
  newScale : THREE.Vector3;
  oldScale : THREE.Vector3
}.

(** [new SetScaleCommand(editor, object, newScale, oldScale)] *)
Definition create (ed : Editor.t) (object : option Editor.ref)
    (newScale oldScale : option THREE.Vector3) : outcome t :=
  match object with
  | None => Throw (TypeError "Cannot read properties of undefined (reading 'mesh')")
  | Some r =>
      Ok (command (Some r)
            (default THREE.zero newScale)
            (match oldScale with
             | Some v => v
             | None =>
                 match Editor.store ed !! r with
                 | Some o => THREE.scale (mesh o)
                 | None => THREE.zero
                 end
             end))
  end.

Definition execute (c : t) (ed : Editor.t) : outcome unit * Editor.t :=
  match object c with
  | None => (Throw (TypeError "Cannot read properties of null (reading 'mesh')"), ed)
  | Some r =>
      (Ok tt,
       Editor.dispatch_objectChanged r
         (Editor.update_mesh r (THREE.set_scale (newScale c)) ed))
  end.

Definition undo (c : t) (ed : Editor.t) : outcome unit * Editor.t :=
  match object c with
  | None => (Throw (TypeError "Cannot read properties of null (reading 'mesh')"), ed)
  | Some r =>
      (Ok tt,
       Editor.dispatch_objectChanged r
         (Editor.update_mesh r (THREE.set_scale (oldScale c)) ed))
  end.

(** [update(cmd)]: [this.newScale.copy(cmd.newScale)] *)
Definition update (c cmd : t) : t :=
  command (object c) (newScale cmd) (oldScale c).

End SetScaleCommand.

(** [SetRotationCommand].  (The axis order of an Euler angle is not
    modelled.) *)
Module SetRotationCommand.

Record t : Type := command {
  object : option Editor.ref;
  newRotation : THREE.Vector3;
  oldRotation : THREE.Vector3
}.

(** [new SetRotationCommand(editor, object, newRotation, oldRotation)] *)
Definition create (ed : Editor.t) (object : option Editor.ref)
    (newRotation oldRotation : option THREE.Vector3) : outcome t :=
  match object with
  | None => Throw (TypeError "Cannot read properties of undefined (reading 'mesh')")
  | Some r =>
      Ok (command (Some r)
            (default THREE.zero newRotation)
            (match oldRotation with
             | Some v => v
             | None =>
                 match Editor.store ed !! r with
                 | Some o => THREE.rotation (mesh o)
                 | None => THREE.zero
                 end
             end))
  end.

Definition execute (c : t) (ed : Editor.t) : outcome unit * Editor.t :=
  match object c with
  | None => (Throw (TypeError "Cannot read properties of null (reading 'mesh')"), ed)
  | Some r =>
      (Ok tt,
       Editor.dispatch_objectChanged r
         (Editor.update_mesh r (THREE.set_rotation (newRotation c)) ed))
  end.

Definition undo (c : t) (ed : Editor.t) : outcome unit * Editor.t :=
  match object c with
  | None => (Throw (TypeError "Cannot read properties of null (reading 'mesh')"), ed)
  | Some r =>
      (Ok tt,
       Editor.dispatch_objectChanged r
         (Editor.update_mesh r (THREE.set_rotation (oldRotation c)) ed))
  end.

(** [update(cmd)]: [this.newRotation.copy(cmd.newRotation)] *)
Definition update (c cmd : t) : t :=
  command (object c) (newRotation cmd) (oldRotation c).

End SetRotationCommand.

(** [toJSON()] of [SetPositionCommand].  [base] is what [super.toJSON()]
    returned ([Command.js] is not among the sources). *)
Module SetPositionJSON.

Definition toJSON (base : jsval) (c : SetPositionCommand.t) (ed : Editor.t)
  : outcome jsval :=
  match SetPositionCommand.object c with
  | None => Throw (TypeError "Cannot read properties of null (reading 'id')")
  | Some r =>
      let uuid := match Editor.store ed !! r with
                  | Some o => id o
                  | None => VUndefined
                  end in
      j1 <- setprop base "objectUuid" uuid ;;
      j2 <- setprop j1 "oldPosition" (THREE.toArray (SetPositionCommand.oldPosition c)) ;;
      setprop j2 "newPosition" (THREE.toArray (SetPositionCommand.newPosition c))
  end.

End SetPositionJSON.

(** [fromJSON(json)] of [MultiCmdsCommand] *)
Module MultiCmdsJSON.

Section Classes.

Context {C : Type}.

(** A command class, by what [new CmdClass(this.editor)] and then
    [cmd.fromJSON(cmdJSON)] do. *)
Record class : Type := commandClass {
  construct : Editor.t -> outcome C;
  read : jsval -> C -> outcome C
}.

(** The classes [Commands.js] exports, by name.  ([Commands] is a module
    namespace: it inherits nothing.) *)
Variable Commands : list (string * class).

(** The body of the [map]: [null] ([None]) for a type that is not exported. *)
Definition member (ed : Editor.t) (cmdJSON : jsval) : outcome (option C) :=
  type <- getprop cmdJSON "type" ;;
  key <- Registry.key_of type ;;
  match (match key with
         | Some k => Registry.own_entry Commands k
         | None => None
         end) with
  | None => Ok None
  | Some CmdClass =>
      cmd <- construct CmdClass ed ;;
      cmd' <- read CmdClass cmdJSON cmd ;;
      Ok (Some cmd')
  end.

(** [.map(...)] and then [.filter((c) => c !== null)] *)
Fixpoint members (ed : Editor.t) (items : list jsval) : outcome (list C) :=
  match items with
  | [] => Ok []
  | cmdJSON :: rest =>
      c <- member ed cmdJSON ;;
      cs <- members ed rest ;;
      Ok (match c with Some cmd => cmd :: cs | None => cs end)
  end.

(** [fromJSON(json)]: the commands read from [json.commands || []]. *)
Definition fromJSON (ed : Editor.t) (json : jsval) : outcome (list C) :=
  commands <- getprop json "commands" ;;
  match (if truthy commands then commands else VArr [] []) with
  | VArr items _ => members ed items
  | _ => Throw (TypeError "(json.commands || []).map is not a function")
  end.

End Classes.

Arguments class C : clear implicits.

(** The class [SetPositionCommand]. *)
Definition SetPosition (objectById : jsval -> option Editor.ref)
  : class SetPositionCommand.t :=
  commandClass
    (fun ed => SetPositionCommand.create ed None None None)
    (SetPositionCommand.fromJSON objectById).

End MultiCmdsJSON.

(* ===================================================================== *)
(** * Numbers *)
(* ===================================================================== *)

(** Rounding to an integer, negation, maximum, minimum and comparison are
    exact on numbers: what they give on rationals is what they give on the
    doubles those rationals are.  The rest is the engine's: the coercion of
    operands that are not numbers (and what becomes of [NaN]), and the
    rounding of sums and products. *)
Module Num.

Class Engine : Type := {
  round_other : jsval -> jsval;
  negate_other : jsval -> jsval;
  max_other : jsval -> jsval -> jsval;
  min_other : jsval -> jsval -> jsval;
  greater_other : jsval -> jsval -> bool;
  add_numbers : Q -> Q -> Q;
  add_other : jsval -> jsval -> jsval;
  multiply_numbers : Q -> Q -> Q;
  multiply_other : jsval -> jsval -> jsval;
  parseInt : jsval -> jsval
}.

Section Operations.

Context `{Engine}.

(** [Math.round(v)]: the nearest integer, a tie going up. *)
Definition Math_round (v : jsval) : jsval :=
  match v with
  | VNum q => VNum (inject_Z (Qfloor (q + (1 # 2))))
  | _ => round_other v
  end.

(** [-v] *)
Definition negate (v : jsval) : jsval :=
  match v with
  | VNum q => VNum (- q)
  | _ => negate_other v
  end.

(** [Math.max(a, b)] and [Math.min(a, b)] *)
Definition Math_max (a b : jsval) : jsval :=
  match a, b with
  | VNum p, VNum q => VNum (if Qle_bool p q then q else p)
  | _, _ => max_other a b
  end.

Definition Math_min (a b : jsval) : jsval :=
  match a, b with
  | VNum p, VNum q => VNum (if Qle_bool p q then p else q)
  | _, _ => min_other a b
  end.

(** [a > b] and [a < b] *)
Definition greater (a b : jsval) : bool :=
  match a, b with
  | VNum p, VNum q => negb (Qle_bool p q)
  | _, _ => greater_other a b
  end.

Definition less (a b : jsval) : bool := greater b a.

(** [a + b] and [a * b] *)
Definition add (a b : jsval) : jsval :=
  match a, b with
  | VNum p, VNum q => VNum (add_numbers p q)
  | _, _ => add_other a b
  end.

Definition multiply (a b : jsval) : jsval :=
  match a, b with
  | VNum p, VNum q => VNum (multiply_numbers p q)
  | _, _ => multiply_other a b
  end.

End Operations.

End Num.

(* ===================================================================== *)
(** * GridManager: the bounds of the grid *)
(* ===================================================================== *)

Module GridBounds.

Section Bounds.

Context `{Num.Engine}.

(** [Math.max(-half, Math.min(half, v))] *)
Definition clamp (half v : jsval) : jsval :=
  Num.Math_max (Num.negate half) (Num.Math_min half v).

(** [clampToGrid(position)], with [gridSize] for [this.gridSize]. *)
Definition clampToGrid (gridSize : jsval) (position : THREE.Vector3) : THREE.Vector3 :=
  THREE.vec3 (clamp gridSize (THREE.x position)) (THREE.y position)
    (clamp gridSize (THREE.z position)).

(** The two tests of [updateSize] on one coordinate: the value it is left
    with, and whether it was changed. *)
Definition bound (halfGrid v : jsval) : jsval * bool :=
  let '(v1, c1) := if Num.greater v halfGrid then (halfGrid, true) else (v, false) in
  if Num.less v1 (Num.negate halfGrid) then (Num.negate halfGrid, true) else (v1, c1).

(** The body of the [forEach] of [updateSize]. *)
Definition bound_object (halfGrid : jsval) (o : EditorObject)
  : outcome unit * EditorObject :=
  let pos := THREE.position (mesh o) in
  let '(x', cx) := bound halfGrid (THREE.x pos) in
  let '(z', cz) := bound halfGrid (THREE.z pos) in
  let m := THREE.set_position (THREE.vec3 x' (THREE.y pos) z') (mesh o) in
  if cx || cz then
    match Sync.set_data (data o) "position" "x" x' with
    | Throw e => (Throw e, editorObject (id o) m (data o))
    | Ok d1 =>
        match Sync.set_data d1 "position" "z" z' with
        | Throw e => (Throw e, editorObject (id o) m d1)
        | Ok d2 => (Ok tt, editorObject (id o) m d2)
        end
    end
  else (Ok tt, editorObject (id o) m (data o)).

Fixpoint bound_objects (halfGrid : jsval) (objects : list EditorObject)
  : outcome unit * list EditorObject :=
  match objects with
  | [] => (Ok tt, [])
  | o :: rest =>
      match bound_object halfGrid o with
      | (Throw e, o') => (Throw e, o' :: rest)
      | (Ok _, o') =>
          let '(r, rest') := bound_objects halfGrid rest in (r, o' :: rest')
      end
  end.

(** [updateSize(newSize, objects)]: the outcome, the new [gridSize] and the
    objects afterwards. *)
Definition updateSize (newSize : jsval) (objects : list EditorObject)
  : outcome unit * jsval * list EditorObject :=
  let gridSize := Num.parseInt newSize in
  let '(r, objects') := bound_objects gridSize objects in
  (r, gridSize, objects').

End Bounds.

End GridBounds.

(* ===================================================================== *)
(** * DragController *)
(* ===================================================================== *)

Module DragController.

Section Drag.

Context `{Num.Engine}.

(** [vector.set(x, y, z)]: an undefined [z] leaves the [z] there is. *)
Definition set (x y z : jsval) (v : THREE.Vector3) : THREE.Vector3 :=
  THREE.vec3 x y (match z with VUndefined => THREE.z v | _ => z end).

(** The body of the [forEach] of [applyMoveDrag], for an object whose start
    position is [start]. *)
Definition move (start delta : THREE.Vector3) (tool : string)
    (snapToGrid : bool) (gridSize : jsval) (obj : EditorObject)
  : outcome unit * EditorObject :=
  let along_xz := String.eqb tool "select" || String.eqb tool "move-x" in
  let along_y := String.eqb tool "move-y" in
  let newX := if along_xz then Num.add (THREE.x start) (THREE.x delta)
              else THREE.x start in
  let newZ := if along_xz then Num.add (THREE.z start) (THREE.z delta)
              else THREE.z start in
  let newY := if along_y then Num.add (THREE.y start) (THREE.y delta)
              else THREE.y start in
  let newX := if snapToGrid then Num.Math_round newX else newX in
  let newZ := if snapToGrid then Num.Math_round newZ else newZ in
  let newY := if snapToGrid && along_y then Num.Math_round newY else newY in
  let newX := GridBounds.clamp gridSize newX in
  let newZ := GridBounds.clamp gridSize newZ in
  let m := THREE.set_position (set newX newY newZ (THREE.position (mesh obj)))
             (mesh obj) in
  match setprop (data obj) "position"
          (VObj [("x", newX); ("y", newY); ("z", newZ)]) with
  | Throw e => (Throw e, editorObject (id obj) m (data obj))
  | Ok d => (Ok tt, editorObject (id obj) m d)
  end.

(** [applyMoveDrag(objects, { delta, startPositions }, tool)]: the i-th
    object starts from [startPositions[i]], and the loop stops at an object
    that has none. *)
Fixpoint applyMoveDrag (objects : list EditorObject)
    (delta : THREE.Vector3) (startPositions : list THREE.Vector3) (tool : string)
    (snapToGrid : bool) (gridSize : jsval)
  : outcome unit * list EditorObject :=
  match objects with
  | [] => (Ok tt, [])
  | obj :: rest =>
      match startPositions with
      | [] =>
          (Throw (TypeError "Cannot read properties of undefined (reading 'x')"),
           objects)
      | start :: starts =>
          match move start delta tool snapToGrid gridSize obj with
          | (Throw e, obj') => (Throw e, obj' :: rest)
          | (Ok _, obj') =>
              let '(r, rest') :=
                applyMoveDrag rest delta starts tool snapToGrid gridSize in
              (r, obj' :: rest')
          end
      end
  end.

(** [v.multiplyScalar(s)] *)
Definition multiplyScalar (s : jsval) (v : THREE.Vector3) : THREE.Vector3 :=
  THREE.vec3 (Num.multiply (THREE.x v) s) (Num.multiply (THREE.y v) s)
    (Num.multiply (THREE.z v) s).

(** [applyScale(objects, selectionGroup, deltaY)]: the objects and the scale
    of the selection group afterwards ([None] when there is no group).  The
    literals [0.95] and [1.05] are written as the rationals they name; what
    a product with them rounds to is the engine's. *)
Definition applyScale (objects : list EditorObject)
    (selectionGroup : option THREE.Vector3) (deltaY : jsval)
  : outcome unit * list EditorObject * option THREE.Vector3 :=
  let scaleAmount := if Num.greater deltaY (VNum 0) then VNum (19 # 20)
                     else VNum (21 # 20) in
  match objects, selectionGroup with
  | _ :: _ :: _, Some groupScale =>
      (Ok tt, objects, Some (multiplyScalar scaleAmount groupScale))
  | [obj], _ =>
      let s := multiplyScalar scaleAmount (THREE.scale (mesh obj)) in
      let m := THREE.set_scale s (mesh obj) in
      match setprop (data obj) "scale" (THREE.toObject s) with
      | Throw e => (Throw e, [editorObject (id obj) m (data obj)], selectionGroup)
      | Ok d => (Ok tt, [editorObject (id obj) m d], selectionGroup)
      end
  | _, _ => (Ok tt, objects, selectionGroup)
  end.

End Drag.

End DragController.

(* ===================================================================== *)
(** * Sessions with a serializer *)
(* ===================================================================== *)

(** A session with a serializer: the calls made on it, one after the other.
    A call that throws leaves the state it had reached, and the session
    goes on with the next call, as the event loop does. *)
Module Session.

(** A call of [saveState(objects)], [undo()], [redo()] or [clearHistory()]. *)
Inductive call : Type :=
| SaveState (objects : list EditorObject)
| Undo
| Redo
| ClearHistory.

Section Run.

Variable W : Type.
Variable loadSceneCallback : option (jsval -> W -> outcome unit * W).
Variable decompose : THREE.Mesh -> THREE.Vector3 * THREE.Vector3 * THREE.Vector3.

(** One call: the serializer and the scene after it, whether it returned or
    threw. *)
Definition step (c : call) (s : SceneSerializer.t) (w : W) : SceneSerializer.t * W :=
  match c with
  | SaveState objects => (snd (SceneSerializer.saveState decompose objects s), w)
  | Undo =>
      let '(_, s', w') := SceneSerializer.undo W loadSceneCallback s w in (s', w')
  | Redo =>
      let '(_, s', w') := SceneSerializer.redo W loadSceneCallback s w in (s', w')
  | ClearHistory => (SceneSerializer.clearHistory s, w)
  end.

(** The calls of a session, one after the other. *)
Fixpoint run (calls : list call) (s : SceneSerializer.t) (w : W)
  : SceneSerializer.t * W :=
  match calls with
  | [] => (s, w)
  | c :: rest => let '(s', w') := step c s w in run rest s' w'
  end.

End Run.

End Session.

(* ===================================================================== *)
(** * Predicates and sample data *)
(* ===================================================================== *)

(** The names of the three components of a vector. *)
Definition axis (c : string) : Prop := c = "x" \/ c = "y" \/ c = "z".

(** The snapshot [saveState] takes of a list of objects. *)
Definition snapshot_of
    (decompose : THREE.Mesh -> THREE.Vector3 * THREE.Vector3 * THREE.Vector3)
    (objects : list EditorObject) : outcome jsval :=
  st <- SceneSerializer.serializeObjects decompose objects ;; DeepCopy.deepClone st.

(** The index of the undo manager stays within its commands. *)
Definition history_wf (s : SceneSerializer.t) : Prop :=
  let m := SceneSerializer.undoManager s in
  (-1 <= UndoManager.index m < Z.of_nat (List.length (UndoManager.commands m)))%Z.

(** Values that [JSON.stringify] and [JSON.parse] give back as they are:
    no [undefined] and no infinity inside, no named property on an array. *)
Fixpoint is_json (v : jsval) : bool :=
  match v with
  | VUndefined => false
  | VInfinity _ => false
  | VArr items props =>
      forallb is_json items && match props with [] => true | _ => false end
  | VObj fields => forallb (fun kv => is_json (snd kv)) fields
  | _ => true
  end.

(** An object the editor can hold and restore: its id is truthy, its data
    is plain JSON, and its type and its material key can be made property
    names, neither of them one inherited from [Object.prototype]. *)
Definition restorable (o : EditorObject) : Prop :=
  truthy (id o) = true
  /\ is_json (data o) = true
  /\ exists type materialType,
       getprop (data o) "type" = Ok type
       /\ getprop (data o) "materialType" = Ok materialType
       /\ Registry.safe ObjectFactory.OBJECT_TYPES type = true
       /\ Registry.safe MaterialsLibrary.materials materialType = true.

(** What restoring keeps of an object: its id, its data and the world
    transform the snapshot recorded for it. *)
Definition restored_from
    (decompose : THREE.Mesh -> THREE.Vector3 * THREE.Vector3 * THREE.Vector3)
    (o o' : EditorObject) : Prop :=
  id o' = id o
  /\ data o' = data o
  /\ (THREE.position (mesh o'), THREE.rotation (mesh o'), THREE.scale (mesh o'))
     = decompose (mesh o).

(** The characters of a string all satisfy [p]. *)
Fixpoint all_chars (p : ascii -> bool) (s : string) : bool :=
  match s with
  | EmptyString => true
  | String c rest => p c && all_chars p rest
  end.

(** The digits of base 36: [0] to [9] and [a] to [z]. *)
Definition is_base36 (c : ascii) : bool :=
  let n := N_of_ascii c in
  ((48 <=? n) && (n <=? 57))%N || ((97 <=? n) && (n <=? 122))%N.

(** A box created at the origin with the id [a], as [create] returns it. *)
Definition sample_box : EditorObject :=
  editorObject (VStr "a")
    (THREE.mesh3d (THREE.BoxGeometry 2 2 2) (Some (THREE.material "obstacle" 0))
       THREE.zero THREE.zero THREE.ones true true)
    (VObj [ ("type", VStr "box");
            ("position", VObj [("x", VNum 0); ("y", VNum 0); ("z", VNum 0)]);
            ("rotation", VObj [("x", VNum 0); ("y", VNum 0); ("z", VNum 0)]);
            ("scale", VObj [("x", VNum 1); ("y", VNum 1); ("z", VNum 1)]);
            ("materialType", VStr "obstacle");
            ("size", VObj [("width", VNum 2); ("height", VNum 2); ("depth", VNum 2)]);
            ("customData", VObj []) ]).

(** A clock and a random source that always answer the same. *)
Definition sample_clock : nat -> N * string :=
  fun _ => (1700000000000%N, "0.4fzyo82mvyr").

(** World transforms read off the mesh itself: an object directly under an
    untransformed scene, up to the rounding of three.js. *)
Definition local_transform (m : THREE.Mesh)
  : THREE.Vector3 * THREE.Vector3 * THREE.Vector3 :=
  (THREE.position m, THREE.rotation m, THREE.scale m).

(** An editor holding one box. *)
Definition sample_editor : LevelEditor.t :=
  LevelEditor.levelEditor (LevelEditor.scene [sample_box] [] "select" 0)
    (SceneSerializer.create 50).

(** The same scene without the serializer. *)
Definition sample_scene : LevelEditor.Scene :=
  LevelEditor.scene [sample_box] [] "select" 0.

(** The snapshot of the scene holding [sample_box]. *)
Definition sample_snapshot : jsval :=
  VObj [("objects",
         VArr [VObj [ ("id", VStr "a");
                      ("data", data sample_box);
                      ("position", VArr [VNum 0; VNum 0; VNum 0] []);
                      ("rotation", VArr [VNum 0; VNum 0; VNum 0] []);
                      ("scale", VArr [VNum 1; VNum 1; VNum 1] []) ]] [])].

(** The snapshot of the empty scene. *)
Definition empty_snapshot : jsval := VObj [("objects", VArr [] [])].

(** A serializer that saw the empty scene and then the scene with the box. *)
Definition sample_serializer : SceneSerializer.t :=
  snd (SceneSerializer.saveState local_transform [sample_box]
         (snd (SceneSerializer.saveState local_transform []
                 (SceneSerializer.create 50)))).

(** The text of [sample_snapshot], as a file written by hand would have it. *)
Definition one_box_text : string :=
  json_text
    ("{ !objects!: [ { !id!: !a!, !data!: { !type!: !box!,"
     ++ " !position!: { !x!: 0, !y!: 0, !z!: 0 },"
     ++ " !rotation!: { !x!: 0, !y!: 0, !z!: 0 },"
     ++ " !scale!: { !x!: 1, !y!: 1, !z!: 1 },"
     ++ " !materialType!: !obstacle!,"
     ++ " !size!: { !width!: 2, !height!: 2, !depth!: 2 }, !customData!: {} },"
     ++ " !position!: [0, 0, 0], !rotation!: [0, 0, 0], !scale!: [1, 1, 1] } ] }").

(** A text whose second item has no [data]. *)
Definition half_good_text : string :=
  json_text
    ("{ !objects!: [ { !id!: !b1!, !data!: { !type!: !wall!, !materialType!: !wall! },"
     ++ " !position!: [1, 0, 1], !rotation!: [0, 0, 0], !scale!: [1, 1, 1] },"
     ++ " { !id!: !b2! } ] }").

(** A text whose only item has the type [constructor]. *)
Definition inherited_type_text : string :=
  json_text
    ("{ !objects!: [ { !id!: !a!, !data!: { !type!: !constructor! },"
     ++ " !position!: [0, 0, 0], !rotation!: [0, 0, 0], !scale!: [1, 1, 1] } ] }").

(** The history holds no more commands than its limit, when it has one. *)
Definition history_bounded (s : SceneSerializer.t) : Prop :=
  let m := SceneSerializer.undoManager s in
  (0 < UndoManager.limit m)%nat ->
  (List.length (UndoManager.commands m) <= UndoManager.limit m)%nat.

(** What every call on a serializer keeps: the index within the commands,
    the commands within the limit, and the limit itself. *)
Definition session_invariant (n : nat) (s : SceneSerializer.t) : Prop :=
  history_wf s /\ history_bounded s
  /\ UndoManager.limit (SceneSerializer.undoManager s) = n.

(** The components of a vector are JSON values. *)
Definition clean_vector (v : THREE.Vector3) : Prop :=
  is_json (THREE.x v) = true /\ is_json (THREE.y v) = true /\ is_json (THREE.z v) = true.

(** An object as the editor makes and keeps them: restorable, with a string
    for id (the scene tree shows its last four characters), and with a world
    transform made of JSON values. *)
Definition plain
    (decompose : THREE.Mesh -> THREE.Vector3 * THREE.Vector3 * THREE.Vector3)
    (o : EditorObject) : Prop :=
  restorable o
  /\ (exists s, id o = VStr s)
  /\ clean_vector (fst (fst (decompose (mesh o))))
  /\ clean_vector (snd (fst (decompose (mesh o))))
  /\ clean_vector (snd (decompose (mesh o))).

(** An object as [create] makes it and as the editor keeps it: its data are
    an object in which [position], [rotation], [scale] and [size] are
    objects, and the object is in sync. *)
Definition shaped (o : EditorObject) : Prop :=
  Sync.in_sync o
  /\ (exists fields, data o = VObj fields)
  /\ forall k : string,
       In k ["position"; "rotation"; "scale"; "size"] ->
       exists inner, getprop (data o) k = Ok (VObj inner).

(** An asset that is an object, with distinct keys as an object has them. *)
Definition object_asset (entry : string * jsval) : Prop :=
  exists fields, snd entry = VObj fields /\ NoDup (map fst fields).

(** [asset.type === type], for the entries of the registry. *)
Definition of_type (type : string) (entry : string * jsval) : bool :=
  match getprop (snd entry) "type" with
  | Ok (VStr s) => String.eqb s type
  | _ => false
  end.

(** What [listByType] makes of a registered entry: an object with the
    properties of the asset and an [id], which is the asset's own [id] when
    it has one and the id the asset is registered under otherwise. *)
Definition listed (entry : string * jsval) (item : jsval) : Prop :=
  match snd entry with
  | VObj fields =>
      getprop item "id" = Ok (default (VStr (fst entry)) (own fields "id"))
      /\ forall k : string, k <> "id" -> getprop item k = getprop (snd entry) k
  | _ => False
  end.

(** A number between [-n] and [n]. *)
Definition within (n : Q) (v : jsval) : Prop :=
  exists q, v = VNum q /\ (- n <= q)%Q /\ (q <= n)%Q.

(** A vector of numbers. *)
Definition number_vector (v : THREE.Vector3) : Prop :=
  exists a b c, v = THREE.vec3 (VNum a) (VNum b) (VNum c).

(** What [updateSize] makes of an object: the same object, still in shape
    and in sync, moved along x and z just enough to lie within the grid. *)
Definition resized (n : Q) (o o' : EditorObject) : Prop :=
  id o' = id o
  /\ shaped o'
  /\ within n (THREE.x (THREE.position (mesh o')))
  /\ within n (THREE.z (THREE.position (mesh o')))
  /\ THREE.y (THREE.position (mesh o')) = THREE.y (THREE.position (mesh o))
  /\ THREE.rotation (mesh o') = THREE.rotation (mesh o)
  /\ THREE.scale (mesh o') = THREE.scale (mesh o)
  /\ (within n (THREE.x (THREE.position (mesh o))) ->
      within n (THREE.z (THREE.position (mesh o))) -> o' = o).

(** What a move drag makes of an object: the same object, still in shape
    and in sync, within the grid along x and z, turned and scaled as it
    was. *)
Definition dragged (n : Q) (o o' : EditorObject) : Prop :=
  id o' = id o
  /\ shaped o'
  /\ number_vector (THREE.position (mesh o'))
  /\ within n (THREE.x (THREE.position (mesh o')))
  /\ within n (THREE.z (THREE.position (mesh o')))
  /\ THREE.rotation (mesh o') = THREE.rotation (mesh o)
  /\ THREE.scale (mesh o') = THREE.scale (mesh o).

(** An engine for the examples: sums and products are exact, as they are on
    the small integers and halves the examples use, and [parseInt] cuts a
    number down to its integer part.  The examples hand it numbers only;
    what is not a number comes back as it is. *)
Definition sample_engine : Num.Engine :=
  {| Num.round_other := fun v => v;
     Num.negate_other := fun v => v;
     Num.max_other := fun a _ => a;
     Num.min_other := fun a _ => a;
     Num.greater_other := fun _ _ => false;
     Num.add_numbers := Qplus;
     Num.add_other := fun a _ => a;
     Num.multiply_numbers := Qmult;
     Num.multiply_other := fun a _ => a;
     Num.parseInt := fun v =>
       match v with
       | VNum q => VNum (inject_Z (if Qle_bool 0 q then Qfloor q else Qceiling q))
       | _ => v
       end |}.

(** A box that lies off the grid lines and beyond a grid of size 10 along
    x, as [create] returns it. *)
Definition far_box : EditorObject :=
  editorObject (VStr "far")
    (THREE.mesh3d (THREE.BoxGeometry 2 2 2) (Some (THREE.material "obstacle" 0))
       (THREE.vec3 (VNum (25 # 2)) (VNum 1) (VNum (-3))) THREE.zero THREE.ones true true)
    (VObj [ ("type", VStr "box");
            ("position", VObj [("x", VNum (25 # 2)); ("y", VNum 1); ("z", VNum (-3))]);
            ("rotation", VObj [("x", VNum 0); ("y", VNum 0); ("z", VNum 0)]);
            ("scale", VObj [("x", VNum 1); ("y", VNum 1); ("z", VNum 1)]);
            ("materialType", VStr "obstacle");
            ("size", VObj [("width", VNum 2); ("height", VNum 2); ("depth", VNum 2)]);
            ("customData", VObj []) ]).

(** An editor with an empty scene. *)
Definition empty_editor : LevelEditor.t :=
  LevelEditor.levelEditor (LevelEditor.scene [] [] "select" 0)
    (SceneSerializer.create 50).


(** An [editor.objectById] that knows the object [a] as the first of the
    store. *)
Definition sample_objectById (uuid : jsval) : option Editor.ref :=
  match uuid with
  | VStr s => if String.eqb s "a" then Some 0%nat else None
  | _ => None
  end.

(** A texture asset. *)
Definition sample_texture : jsval :=
  VObj [("type", VStr "texture"); ("url", VStr "floor.png")].

(* ===================================================================== *)
(** * Theorems *)
(* ===================================================================== *)

(** ** The built-ins of the model on sample inputs *)

Example JSON_parse_scene :
  JSON.parse (json_text "{ !objects!: [ { !id!: !a!, !position!: [1, -2.5, 3e1] } ] }")
  = Some (VObj [("objects",
            VArr [VObj [("id", VStr "a");
                        ("position", VArr [VNum 1; VNum (-5 # 2); VNum 30] [])]] [])]).
Proof. vm_compute. reflexivity. Qed.

Example JSON_parse_rejects :
  map JSON.parse
    ["{"; "[1,]"; "01"; json_text "{!a! 1}"; ""; "nul"; "[1] x"; "{'a':1}"; "1."; "+1"]
  = [None; None; None; None; None; None; None; None; None; None].
Proof. vm_compute. reflexivity. Qed.

Example JSON_parse_falsy :
  map JSON.parse ["null"; "false"; "0"; json_text " !! "]
  = [Some VNull; Some (VBool false); Some (VNum 0); Some (VStr "")].
Proof. vm_compute. reflexivity. Qed.

(** Literals beyond the range of doubles: zero below it, an infinity above
    it ([-1e999] is [-Infinity]). *)
Example JSON_parse_beyond_doubles :
  map JSON.parse ["1e-400"; "1e999"; "-1e999"; "1e308"]
  = [Some (VNum 0); Some (VInfinity false); Some (VInfinity true);
     Some (VNum (inject_Z (10 ^ 308)))].
Proof. vm_compute. reflexivity. Qed.

Example JSON_parse_nested :
  JSON.parse (json_text " [ [ ], { !a! : [ true , null ] } , !x\ny! , -0.5e-1 ] ")
  = Some (VArr [ VArr [] [];
                 VObj [("a", VArr [VBool true; VNull] [])];
                 VStr (String "x" (String (ascii_of_nat 10) "y"));
                 VNum (-1 # 20) ] []).
Proof. vm_compute. reflexivity. Qed.

Example JSON_parse_duplicate_key :
  JSON.parse (json_text "{!a!: 1, !b!: 2, !a!: 3}")
  = Some (VObj [("a", VNum 3); ("b", VNum 2)]).
Proof. vm_compute. reflexivity. Qed.

Example Radix36_half : Radix36.toString (1 # 2) = "0.i".
Proof. reflexivity. Qed.

Example Radix36_zero : Radix36.toString 0 = "0".
Proof. reflexivity. Qed.

Example generateId_typical :
  ObjectFactory.generateId 1700000000000 "0.4fzyo82mvyr"
  = "obj_1700000000000_4fzyo82mv".
Proof. reflexivity. Qed.

(** ** Composite commands *)

Section CompositeOrder.

Context {St C : Type} `{Command.t St C}.

Lemma MultiCmds_execute_in_order (commands : list C) (st : St) :
  MultiCmdsCommand.execute commands st
  = MultiCmdsCommand.in_order Command.execute commands st.
Proof.
  revert st; induction commands as [|cmd rest IH]; intros st; simpl; [reflexivity|].
  destruct (Command.execute cmd st) as [[u|e] st']; [apply IH|reflexivity].
Qed.

Lemma in_order_app (op : C -> St -> outcome unit * St) (l1 l2 : list C) (st : St) :
  MultiCmdsCommand.in_order op (l1 ++ l2) st
  = match MultiCmdsCommand.in_order op l1 st with
    | (Throw e, st') => (Throw e, st')
    | (Ok _, st') => MultiCmdsCommand.in_order op l2 st'
    end.
Proof.
  revert st; induction l1 as [|m l1 IH]; intros st; simpl; [reflexivity|].
  destruct (op m st) as [[u|e] st']; [apply IH|reflexivity].
Qed.

(** The countdown loop from index [n - 1] undoes the first [n] members, last
    one first. *)
Lemma undo_from_rev (n : nat) (commands : list C) (st : St) :
  (n <= List.length commands)%nat ->
  MultiCmdsCommand.undo_from n commands st
  = MultiCmdsCommand.in_order Command.undo (rev (firstn n commands)) st.
Proof.
  revert st; induction n as [|i IH]; intros st Hn; simpl; [reflexivity|].
  destruct (commands !! i) as [cmd|] eqn:Hi.
  - rewrite (take_S_r _ _ _ Hi), rev_app_distr; simpl.
    destruct (Command.undo cmd st) as [[u|e] st']; [|reflexivity].
    apply IH; lia.
  - apply lookup_ge_None in Hi. lia.
Qed.

Lemma MultiCmds_undo_reverse (commands : list C) (st : St) :
  MultiCmdsCommand.undo commands st
  = MultiCmdsCommand.in_order Command.undo (rev commands) st.
Proof.
  unfold MultiCmdsCommand.undo.
  rewrite undo_from_rev by lia.
  now rewrite firstn_all.
Qed.

End CompositeOrder.

(** C5.  For every list of member commands, whatever the members do:
    [execute] of the composite runs the members' [execute] in the order of
    the list, and [undo] runs the members' [undo] in the reverse of that
    order; on recording members the calls made are exactly the list,
    respectively its reverse. *)
Theorem MultiCmds_members_in_order_undo_in_reverse :
  forall (St C : Type) (ops : Command.t St C) (commands : list C) (st : St),
    (MultiCmdsCommand.execute commands st
     = MultiCmdsCommand.in_order Command.execute commands st
     /\ MultiCmdsCommand.undo commands st
        = MultiCmdsCommand.in_order Command.undo (rev commands) st)
    /\ (forall labels : list nat,
          MultiCmdsCommand.execute labels [] = (Ok tt, map Probe.Executed labels)
          /\ MultiCmdsCommand.undo labels []
             = (Ok tt, map Probe.Undone (rev labels))).
Proof.
  intros St C ops commands st. split.
  - split; [apply MultiCmds_execute_in_order | apply MultiCmds_undo_reverse].
  - assert (Hgen : forall (op : nat -> Probe.call) (l : list nat) (calls : list Probe.call),
               MultiCmdsCommand.in_order (fun label cs => (Ok tt, cs ++ [op label])) l calls
               = (Ok tt, calls ++ map op l)).
    { intros op l; induction l as [|a l IH]; intros calls; simpl.
      - now rewrite app_nil_r.
      - rewrite IH, <- app_assoc. reflexivity. }
    intros labels. split.
    + rewrite MultiCmds_execute_in_order. apply (Hgen Probe.Executed labels []).
    + rewrite MultiCmds_undo_reverse. apply (Hgen Probe.Undone (rev labels) []).
Qed.

Example MultiCmds_probe :
  MultiCmdsCommand.execute [1; 2; 3]%nat []
  = (Ok tt, [Probe.Executed 1; Probe.Executed 2; Probe.Executed 3])
  /\ MultiCmdsCommand.undo [1; 2; 3]%nat []
     = (Ok tt, [Probe.Undone 3; Probe.Undone 2; Probe.Undone 1]).
Proof. split; reflexivity. Qed.

(** ** Commands whose target is gone *)

(** C2.  A [SetPositionCommand] whose [object] is [null] (its id did not
    resolve when the command was read back): both [undo()] and [execute()]
    throw a [TypeError] on [this.object.mesh], for every old and new
    position and every editor state. *)
Theorem SetPositionCommand_null_target_throws :
  forall (newPosition oldPosition : THREE.Vector3) (ed : Editor.t),
    let c := SetPositionCommand.command None newPosition oldPosition in
    SetPositionCommand.undo c ed
    = (Throw (TypeError "Cannot read properties of null (reading 'mesh')"), ed)
    /\ SetPositionCommand.execute c ed
       = (Throw (TypeError "Cannot read properties of null (reading 'mesh')"), ed).
Proof. intros; split; reflexivity. Qed.

(** The same through [fromJSON]: when [editor.objectById] finds nothing for
    the recorded id, the command read back throws on [undo()]. *)
Lemma SetPositionCommand_fromJSON_unresolved (json : jsval) (c c' : SetPositionCommand.t)
    (ed : Editor.t) :
  SetPositionCommand.fromJSON (fun _ => None) json c = Ok c' ->
  fst (SetPositionCommand.undo c' ed)
  = Throw (TypeError "Cannot read properties of null (reading 'mesh')").
Proof.
  unfold SetPositionCommand.fromJSON, JS.bind. intros Hc.
  repeat match type of Hc with
         | match ?m with _ => _ end = _ => destruct m; try discriminate
         end.
  now inversion Hc.
Qed.

(** The sibling that has the guard: [RemoveObjectCommand.execute] does nothing
    when its object or its parent is missing, whatever the editor methods do. *)
Lemma RemoveObjectCommand_execute_guarded
    (St : Type) (removeObject : Editor.ref -> St -> outcome unit * St)
    (deselect : St -> outcome unit * St) (indexOf : Editor.ref -> Editor.ref -> St -> Z)
    (parent : option Editor.ref) (index : Z) (st : St) :
  RemoveObjectCommand.execute St removeObject deselect indexOf
    (RemoveObjectCommand.command None parent index) st
  = (Ok tt, RemoveObjectCommand.command None parent index, st).
Proof. reflexivity. Qed.

(** [GridManager.snapObject] has the guard as well. *)
Lemma snapObject_guarded (Math_round : jsval -> jsval) :
  GridManager.snapObject Math_round None = (Ok tt, None).
Proof. reflexivity. Qed.

(** ** Entity creation *)

Lemma own_entry_In {A} (entries : list (string * A)) (k : string) (a : A) :
  Registry.own_entry entries k = Some a -> In a (map snd entries).
Proof.
  induction entries as [|[k' a'] rest IH]; simpl; [discriminate|].
  destruct (String.eqb k' k); intros Hk.
  - inversion Hk; subst; now left.
  - right; auto.
Qed.

(** Every configured type names a material of the library. *)
Lemma configured_material_exists (c : ObjectFactory.TypeConfig) :
  In c (map snd ObjectFactory.OBJECT_TYPES) ->
  exists m, MaterialsLibrary.get (VStr (ObjectFactory.material c)) = Ok (Some m).
Proof.
  simpl. intros Hc.
  repeat (destruct Hc as [Hc|Hc]; [subst c; eexists; reflexivity|]).
  destruct Hc.
Qed.

Lemma box_configured : In ObjectFactory.box (map snd ObjectFactory.OBJECT_TYPES).
Proof. simpl; now left. Qed.

(** What a read that succeeds finds among the entries. *)
Lemma read_own_In {A} (entries : list (string * A)) (v : jsval) (a : A) :
  Registry.read entries v = Ok (Registry.Own a) -> In a (map snd entries).
Proof.
  unfold Registry.read. destruct (Registry.key_of v) as [[k|]|]; cbn [JS.bind];
    try discriminate.
  unfold Registry.get. destruct (Registry.own_entry entries k) eqn:Hown.
  - intros [= <-]. eapply own_entry_In; eauto.
  - destruct (Registry.inherited k); discriminate.
Qed.

(** [create] returns an object exactly when the key can be made a property
    name and does not name a property inherited from [Object.prototype]. *)
Lemma create_succeeds_iff (type : jsval) (position : THREE.Vector3) (id : jsval)
    (now : N) (random36 : string) :
  is_ok (ObjectFactory.create type position id now random36) = true
  <-> Registry.safe ObjectFactory.OBJECT_TYPES type = true.
Proof.
  unfold ObjectFactory.create, ObjectFactory.config_for, Registry.safe.
  destruct (Registry.read ObjectFactory.OBJECT_TYPES type) as [[c|name|]|e] eqn:Hread;
    cbn [JS.bind].
  - split; [reflexivity|intros _].
    destruct (configured_material_exists c (read_own_In _ _ _ Hread)) as [m Hm].
    rewrite Hm. reflexivity.
  - split; discriminate.
  - split; [reflexivity|intros _].
    destruct (configured_material_exists _ box_configured) as [m Hm].
    rewrite Hm. reflexivity.
  - split; discriminate.
Qed.

(** A key that names neither a configured type nor an inherited property
    gets the configuration of [box]. *)
Lemma create_unknown_type_is_box (type : jsval) (position : THREE.Vector3) (id : jsval)
    (now : N) (random36 : string) :
  Registry.read ObjectFactory.OBJECT_TYPES type = Ok Registry.Missing ->
  exists obj,
    ObjectFactory.create type position id now random36 = Ok obj
    /\ THREE.geometry (mesh obj) = THREE.BoxGeometry 2 2 2
    /\ THREE.mat (mesh obj) = Some (THREE.material "obstacle" 0)
    /\ getprop (data obj) "size"
       = Ok (VObj [("width", VNum 2); ("height", VNum 2); ("depth", VNum 2)])
    /\ getprop (data obj) "type" = Ok type.
Proof.
  intros Hread. unfold ObjectFactory.create, ObjectFactory.config_for.
  rewrite Hread. simpl. eexists. repeat split.
Qed.

(** A key that cannot be made a property name: an object whose [toString]
    is an own property that is no function, as [JSON.parse] makes them.
    [OBJECT_TYPES[type]] throws before anything is looked up. *)
Example create_unconvertible_key_throws :
  forall (position : THREE.Vector3) (id : jsval) (now : N) (random36 : string),
    JSON.parse (json_text "{ !toString!: 1 }") = Some (VObj [("toString", VNum 1)])
    /\ ObjectFactory.create (VObj [("toString", VNum 1)]) position id now random36
       = Throw (TypeError "Cannot convert object to primitive value").
Proof. intros; split; reflexivity. Qed.

(** C8.  The type key [constructor] is not a configured type, yet it is not
    replaced by the default: [OBJECT_TYPES[type]] finds the property that
    the literal inherits from [Object.prototype], and [create] throws at
    [config.createGeometry()], for every position and id. *)
Theorem create_inherited_key_throws :
  forall (position : THREE.Vector3) (id : jsval) (now : N) (random36 : string),
    Registry.own_entry ObjectFactory.OBJECT_TYPES "constructor" = None
    /\ ObjectFactory.create (VStr "constructor") position id now random36
       = Throw (TypeError "config.createGeometry is not a function").
Proof. intros; split; reflexivity. Qed.

(** ** Generated ids *)

Lemma substring_length (n m : nat) (s : string) :
  String.length (String.substring n m s) = Nat.min m (String.length s - n).
Proof.
  revert n m; induction s as [|c s IH]; intros n m.
  - destruct n, m; simpl; try reflexivity; now rewrite Nat.min_0_r.
  - destruct n as [|n].
    + destruct m as [|m]; simpl; [reflexivity|]. rewrite IH.
      now rewrite Nat.sub_0_r.
    + simpl. apply IH.
Qed.

Lemma append_inj_r (p a b : string) : (p ++ a = p ++ b)%string -> a = b.
Proof.
  induction p as [|c p IH]; simpl; intros Heq; [assumption|].
  inversion Heq; auto.
Qed.

(** C9, as the code has it.  An id is [obj_], the decimal time stamp, [_]
    and the suffix [substr(2, 9)] of the base-36 text of the random value;
    the suffix has nine characters when that text has at least nine after
    its first two, and fewer otherwise; two ids made in the same
    millisecond are equal exactly when their suffixes are. *)
Theorem generateId_shape :
  forall (now : N) (random36 : string),
    ObjectFactory.generateId now random36
    = ("obj_" ++ NilZero.string_of_uint (N.to_uint now) ++ "_"
         ++ ObjectFactory.substr 2 9 random36)%string
    /\ String.length (ObjectFactory.substr 2 9 random36)
       = Nat.min 9 (String.length random36 - 2)
    /\ (forall random36' : string,
          ObjectFactory.generateId now random36 = ObjectFactory.generateId now random36'
          <-> ObjectFactory.substr 2 9 random36 = ObjectFactory.substr 2 9 random36').
Proof.
  intros now random36. split; [reflexivity|]. split.
  - apply substring_length.
  - intros random36'. unfold ObjectFactory.generateId. split.
    + intros Heq.
      apply append_inj_r in Heq. apply append_inj_r in Heq.
      now apply append_inj_r in Heq.
    + now intros ->.
Qed.

(** C9 as stated fails: for the random value 1/2, whose base-36 text is
    [0.i], the suffix has one character, and for 0 it has none. *)
Lemma generateId_suffix_shorter_than_nine :
  ObjectFactory.generateId 1700000000000 (Radix36.toString (1 # 2))
  = "obj_1700000000000_i"
  /\ String.length (ObjectFactory.substr 2 9 (Radix36.toString (1 # 2))) = 1%nat
  /\ ObjectFactory.generateId 1700000000000 (Radix36.toString 0)
     = "obj_1700000000000_".
Proof. repeat split. Qed.

(** [new SetPositionCommand(editor)], as [MultiCmdsCommand.fromJSON] calls the
    constructor before [fromJSON]: it throws as well, on [object.mesh]. *)
Lemma SetPositionCommand_create_without_object (ed : Editor.t)
    (newPosition oldPosition : option THREE.Vector3) :
  SetPositionCommand.create ed None newPosition oldPosition
  = Throw (TypeError "Cannot read properties of undefined (reading 'mesh')").
Proof. reflexivity. Qed.

(** Two distinct random values, one unit in the last place of a double
    apart, that give the same id in the same millisecond. *)
Lemma generateId_collision :
  let r1 := ((1 # 2) + (1 # 4503599627370496))%Q in
  let r2 := ((1 # 2) + (2 # 4503599627370496))%Q in
  Qeq_bool r1 r2 = false
  /\ ObjectFactory.generateId 1700000000000 (Radix36.toString r1)
     = ObjectFactory.generateId 1700000000000 (Radix36.toString r2)
  /\ ObjectFactory.generateId 1700000000000 (Radix36.toString r1)
     = "obj_1700000000000_i00000000".
Proof. vm_compute. repeat split. Qed.

(** ** Semantic data and mesh transform *)

Lemma own_set_own_same (fields : list (string * jsval)) (k : string) (v : jsval) :
  own (set_own fields k v) k = Some v.
Proof.
  induction fields as [|[k' w] rest IH]; simpl.
  - now rewrite String.eqb_refl.
  - destruct (String.eqb k' k) eqn:Hk; simpl; rewrite Hk; [reflexivity|apply IH].
Qed.

Lemma own_set_own_other (fields : list (string * jsval)) (k k' : string) (v : jsval) :
  k <> k' -> own (set_own fields k v) k' = own fields k'.
Proof.
  intros Hne. induction fields as [|[k0 w] rest IH]; simpl.
  - destruct (String.eqb k k') eqn:Hk; [|reflexivity].
    apply String.eqb_eq in Hk. contradiction.
  - destruct (String.eqb k0 k) eqn:Hk; simpl.
    + apply String.eqb_eq in Hk. subst k0.
      destruct (String.eqb k k') eqn:Hk'; [|reflexivity].
      apply String.eqb_eq in Hk'. contradiction.
    + now rewrite IH.
Qed.

Lemma getprop_setprop_same (v : jsval) (k : string) (w v' : jsval) :
  setprop v k w = Ok v' -> getprop v' k = Ok w.
Proof.
  destruct v; simpl; intros Hs; inversion Hs; subst; simpl;
    now rewrite own_set_own_same.
Qed.

Lemma getprop_setprop_other (v : jsval) (k k' : string) (w v' : jsval) :
  k <> k' -> setprop v k w = Ok v' -> getprop v' k' = getprop v k'.
Proof.
  intros Hne. destruct v; simpl; intros Hs; inversion Hs; subst; simpl;
    now rewrite own_set_own_other.
Qed.

(** Writing [data.k.c = v] makes the vector read from [data.k] the old one
    with its component [c] replaced, and leaves the other vectors alone. *)
Lemma data_vector_set_data (i : jsval) (m m' : THREE.Mesh) (d d' : jsval)
    (k c : string) (v : jsval) (u : THREE.Vector3) :
  axis c ->
  Sync.data_vector (editorObject i m d) k = Ok u ->
  Sync.set_data d k c v = Ok d' ->
  Sync.data_vector (editorObject i m' d') k = Ok (Sync.set_component c v u).
Proof.
  unfold Sync.data_vector, Sync.set_data, JS.bind; simpl.
  intros Hc Hu Hset.
  destruct (getprop d k) as [inner|] eqn:Hinner; [|discriminate].
  destruct (setprop inner c v) as [inner'|] eqn:Hin'; [|discriminate].
  rewrite (getprop_setprop_same _ _ _ _ Hset).
  destruct (getprop inner "x") as [dx|] eqn:Hx; [|discriminate].
  destruct (getprop inner "y") as [dy|] eqn:Hy; [|discriminate].
  destruct (getprop inner "z") as [dz|] eqn:Hz; [|discriminate].
  inversion Hu; subst u; clear Hu.
  destruct Hc as [-> | [-> | ->]]; unfold Sync.set_component; simpl;
    rewrite (getprop_setprop_same _ _ _ _ Hin');
    match type of Hin' with
    | setprop _ ?c0 _ = _ =>
        repeat match goal with
               | |- context [getprop inner' ?k'] =>
                   rewrite (getprop_setprop_other inner c0 k' v inner'
                              ltac:(discriminate) Hin')
               end
    end;
    rewrite ?Hx, ?Hy, ?Hz; reflexivity.
Qed.

Lemma data_vector_set_data_other (i : jsval) (m m' : THREE.Mesh) (d d' : jsval)
    (k k' c : string) (v : jsval) :
  k <> k' ->
  Sync.set_data d k c v = Ok d' ->
  Sync.data_vector (editorObject i m' d') k' = Sync.data_vector (editorObject i m d) k'.
Proof.
  unfold Sync.data_vector, Sync.set_data, JS.bind; simpl.
  intros Hne Hset.
  destruct (getprop d k) as [inner|]; [|discriminate].
  destruct (setprop inner c v) as [inner'|]; [|discriminate].
  now rewrite (getprop_setprop_other _ _ _ _ _ Hne Hset).
Qed.

(** What [create] returns is in sync. *)
Lemma create_in_sync (type : jsval) (position : THREE.Vector3) (id : jsval)
    (now : N) (random36 : string) (o : EditorObject) :
  ObjectFactory.create type position id now random36 = Ok o -> Sync.in_sync o.
Proof.
  unfold ObjectFactory.create.
  destruct (ObjectFactory.config_for type) as [[config| |]|]; cbn [JS.bind];
    try discriminate.
  destruct (MaterialsLibrary.get (VStr (ObjectFactory.material config)));
    cbn [JS.bind]; [|discriminate].
  intros Ho; inversion Ho; subst o; clear Ho.
  destruct position as [px py pz].
  repeat split.
  unfold Sync.data_vector; simpl.
  destruct (ObjectFactory.defaultRotation config) as [[[rx ry] rz]|]; reflexivity.
Qed.

(** [SetPositionCommand.execute] moves the mesh and leaves the data as it was. *)
Lemma SetPositionCommand_execute_effect (ed : Editor.t) (r : Editor.ref)
    (o : EditorObject) (c : SetPositionCommand.t) :
  Editor.store ed !! r = Some o ->
  SetPositionCommand.object c = Some r ->
  exists ed',
    SetPositionCommand.execute c ed = (Ok tt, ed')
    /\ Editor.store ed' !! r
       = Some (editorObject (id o)
                 (THREE.set_position (SetPositionCommand.newPosition c) (mesh o))
                 (data o)).
Proof.
  intros Ho Hc. unfold SetPositionCommand.execute. rewrite Hc.
  eexists; split; [reflexivity|].
  unfold Editor.dispatch_objectChanged, Editor.update_mesh. cbn [Editor.store].
  rewrite list_lookup_alter_eq, Ho. reflexivity.
Qed.

(** So an object that was in sync is not any more, unless the command moves
    it to where it already is. *)
Lemma SetPositionCommand_execute_breaks_sync (ed : Editor.t) (r : Editor.ref)
    (o : EditorObject) (c : SetPositionCommand.t) :
  Editor.store ed !! r = Some o ->
  SetPositionCommand.object c = Some r ->
  Sync.in_sync o ->
  SetPositionCommand.newPosition c <> THREE.position (mesh o) ->
  exists ed' o',
    SetPositionCommand.execute c ed = (Ok tt, ed')
    /\ Editor.store ed' !! r = Some o'
    /\ ~ Sync.in_sync o'.
Proof.
  intros Ho Hc Hsync Hne.
  destruct (SetPositionCommand_execute_effect ed r o c Ho Hc) as (ed' & Hex & Hlook).
  eexists; eexists; split; [eassumption|]; split; [eassumption|].
  intros (Hp & _ & _). destruct Hsync as (Hp0 & _ & _).
  unfold Sync.data_vector in *; simpl in *.
  rewrite Hp0 in Hp. inversion Hp. congruence.
Qed.

Ltac sync_cases o Hsync Hset :=
  destruct o as [i m d]; destruct Hsync as (Hp & Hr & Hs); cbn [id mesh data] in *;
  repeat split;
  first
    [ eapply data_vector_set_data; eauto
    | etransitivity;
      [ eapply data_vector_set_data_other; [|exact Hset]; discriminate
      | first [exact Hp | exact Hr | exact Hs] ] ].

Lemma in_sync_set_position (o : EditorObject) (c : string) (v d' : jsval) :
  axis c -> Sync.in_sync o ->
  Sync.set_data (data o) "position" c v = Ok d' ->
  Sync.in_sync
    (editorObject (id o)
       (THREE.set_position (Sync.set_component c v (THREE.position (mesh o))) (mesh o)) d').
Proof. intros Hc Hsync Hset. sync_cases o Hsync Hset. Qed.

Lemma in_sync_set_rotation (o : EditorObject) (c : string) (v d' : jsval) :
  axis c -> Sync.in_sync o ->
  Sync.set_data (data o) "rotation" c v = Ok d' ->
  Sync.in_sync
    (editorObject (id o)
       (THREE.set_rotation (Sync.set_component c v (THREE.rotation (mesh o))) (mesh o)) d').
Proof. intros Hc Hsync Hset. sync_cases o Hsync Hset. Qed.

Lemma in_sync_set_scale (o : EditorObject) (c : string) (v d' : jsval) :
  axis c -> Sync.in_sync o ->
  Sync.set_data (data o) "scale" c v = Ok d' ->
  Sync.in_sync
    (editorObject (id o)
       (THREE.set_scale (Sync.set_component c v (THREE.scale (mesh o))) (mesh o)) d').
Proof. intros Hc Hsync Hset. sync_cases o Hsync Hset. Qed.

Lemma in_sync_set_material (o : EditorObject) (k : option THREE.Material) (v d' : jsval) :
  Sync.in_sync o ->
  setprop (data o) "materialType" v = Ok d' ->
  Sync.in_sync (editorObject (id o) (THREE.set_material k (mesh o)) d').
Proof.
  intros (Hp & Hr & Hs) Hset. destruct o as [i m d]; cbn [id mesh data] in *.
  unfold Sync.in_sync, Sync.data_vector in *; cbn [id mesh data] in *.
  rewrite (getprop_setprop_other d "materialType" "position" v d' ltac:(discriminate) Hset),
    (getprop_setprop_other d "materialType" "rotation" v d' ltac:(discriminate) Hset),
    (getprop_setprop_other d "materialType" "scale" v d' ltac:(discriminate) Hset).
  repeat split; assumption.
Qed.

(** The sibling paths keep the invariant: [PropertyUpdater.update] (and so
    [SetPropertyValueCommand]) writes every transform value it sets on the
    mesh into the data as well. *)
Lemma PropertyUpdater_update_keeps_sync
    (divide : jsval -> jsval -> jsval) (parseFloat degToRad : jsval -> jsval)
    (o o' : EditorObject) (property : string) (value : jsval) :
  Sync.in_sync o ->
  PropertyUpdater.update divide parseFloat degToRad o property value = (Ok tt, o') ->
  Sync.in_sync o'.
Proof.
  intros Hsync. unfold PropertyUpdater.update.
  repeat match goal with
         | |- (if ?b then _ else _) = _ -> _ => destruct b
         end;
    unfold PropertyUpdater.update_material, PropertyUpdater.update_size,
      PropertyUpdater.update_position, PropertyUpdater.update_rotation;
    repeat match goal with
           | |- match ?m with _ => _ end = _ -> _ => destruct m eqn:?; try discriminate
           | |- (if ?b then _ else _) = _ -> _ => destruct b
           end;
    intros Heq; inversion Heq; subst; clear Heq;
    first
      [ assumption
      | eapply in_sync_set_material; eassumption
      | eapply in_sync_set_scale; [unfold axis; tauto| |]; eassumption
      | eapply in_sync_set_position; [unfold axis; tauto| |]; eassumption
      | eapply in_sync_set_rotation; [unfold axis; tauto| |]; eassumption ].
Qed.

(** [GridManager.snapObject] keeps it too. *)
Lemma snapObject_keeps_sync (Math_round : jsval -> jsval) (o o' : EditorObject) :
  Sync.in_sync o ->
  GridManager.snapObject Math_round (Some o) = (Ok tt, Some o') ->
  Sync.in_sync o'.
Proof.
  intros Hsync. unfold GridManager.snapObject.
  destruct (Sync.set_data (data o) "position" "x" _) as [d1|] eqn:H1; [|discriminate].
  destruct (Sync.set_data d1 "position" "z" _) as [d2|] eqn:H2; [|discriminate].
  intros Heq; inversion Heq; subst; clear Heq.
  pose proof (in_sync_set_position o "x" _ d1 ltac:(unfold axis; tauto) Hsync H1) as Hx.
  pose proof (in_sync_set_position _ "z" _ d2 ltac:(unfold axis; tauto) Hx H2) as Hz.
  cbn [id mesh data] in Hz.
  destruct o as [i [g k p r s cs rs] d]; destruct p as [px py pz].
  exact Hz.
Qed.

Example sample_box_created :
  ObjectFactory.create (VStr "box") THREE.zero (VStr "a") 0 "0.i" = Ok sample_box.
Proof. reflexivity. Qed.

(** C4.  Moving a freshly created box (in sync, at the origin) to (5, 0, 5)
    with a [SetPositionCommand]: after [execute()] the mesh is at (5, 0, 5)
    and [data.position] still reads (0, 0, 0). *)
Theorem SetPositionCommand_execute_drift :
  exists (c : SetPositionCommand.t) (o' : EditorObject),
    Sync.in_sync sample_box
    /\ SetPositionCommand.create (Editor.editor [sample_box] []) (Some 0%nat)
         (Some (THREE.vec3 (VNum 5) (VNum 0) (VNum 5))) None = Ok c
    /\ SetPositionCommand.execute c (Editor.editor [sample_box] [])
       = (Ok tt, Editor.editor [o'] [0%nat])
    /\ THREE.position (mesh o') = THREE.vec3 (VNum 5) (VNum 0) (VNum 5)
    /\ Sync.data_vector o' "position" = Ok (THREE.vec3 (VNum 0) (VNum 0) (VNum 0))
    /\ ~ Sync.in_sync o'.
Proof.
  eexists; eexists.
  split; [exact (create_in_sync _ _ _ _ _ _ sample_box_created)|].
  split; [reflexivity|].
  split; [reflexivity|].
  split; [reflexivity|].
  split; [reflexivity|].
  intros (Hp & _ & _). vm_compute in Hp. discriminate Hp.
Qed.

(** ** Merged position commands *)



(** The same through the history stack of the specification: the second and
    third command are merged into the first by [mergeOrPush], the undo stack
    holds one command, and one [undo] empties it and puts the target back
    where it was before the first command. *)
Lemma History_merge_three_positions :
  forall (ed : Editor.t) (r : nat) (o : EditorObject)
         (c1 c2 c3 : SetPositionCommand.t) (capacity : nat),
    Editor.store ed !! r = Some o ->
    SetPositionCommand.object c1 = Some r ->
    SetPositionCommand.object c2 = Some r ->
    SetPositionCommand.object c3 = Some r ->
    SetPositionCommand.oldPosition c1 = THREE.position (mesh o) ->
    (1 <= capacity)%nat ->
    exists h1 ed1 h2 h3 h4 ed4 o4,
      History.execute c1 (History.create capacity) ed = (Ok tt, h1, ed1)
      /\ History.mergeOrPush c2 h1 ed1 = (Ok tt, h2, ed1)
      /\ History.mergeOrPush c3 h2 ed1 = (Ok tt, h3, ed1)
      /\ History.undos h3
         = [SetPositionCommand.update (SetPositionCommand.update c1 c2) c3]
      /\ SetPositionCommand.newPosition
           (SetPositionCommand.update (SetPositionCommand.update c1 c2) c3)
         = SetPositionCommand.newPosition c3
      /\ History.undo h3 ed1 = (Ok tt, h4, ed4)
      /\ History.undos h4 = []
      /\ List.length (History.redos h4) = 1%nat
      /\ Editor.store ed4 !! r = Some o4
      /\ THREE.position (mesh o4) = THREE.position (mesh o)
      /\ data o4 = data o.
Proof.
  intros ed r o c1 c2 c3 capacity Ho H1 H2 H3 Hold Hcap.
  destruct capacity as [|n]; [lia|].
  destruct c1 as [t1 n1 o1], c2 as [t2 n2 o2], c3 as [t3 n3 o3].
  cbn [SetPositionCommand.object SetPositionCommand.oldPosition] in H1, H2, H3, Hold.
  subst t1 t2 t3 o1.
  do 7 eexists.
  split; [reflexivity|].
  split.
  { unfold History.mergeOrPush, History.same_target. cbn.
    rewrite Nat.eqb_refl. reflexivity. }
  split.
  { unfold History.mergeOrPush, History.same_target. cbn.
    rewrite Nat.eqb_refl. reflexivity. }
  split; [cbn [History.undos]; now rewrite take_nil|].
  split; [reflexivity|].
  split; [reflexivity|].
  split; [cbn [History.undos]; now rewrite take_nil|].
  split; [reflexivity|].
  unfold Editor.dispatch_objectChanged, Editor.update_mesh.
  cbn [Editor.store SetPositionCommand.newPosition SetPositionCommand.oldPosition].
  rewrite !list_lookup_alter_eq, Ho.
  split; [reflexivity|].
  split; reflexivity.
Qed.

(** ** Snapshot undo *)

Section SerializerFacts.

Variable W : Type.
Variable loadSceneCallback : option (jsval -> W -> outcome unit * W).
Variable decompose : THREE.Mesh -> THREE.Vector3 * THREE.Vector3 * THREE.Vector3.

Lemma snapshot_not_null (objects : list EditorObject) (snapshot : jsval) :
  snapshot_of decompose objects = Ok snapshot -> snapshot <> VNull.
Proof.
  unfold snapshot_of, SceneSerializer.serializeObjects, JS.bind.
  destruct (SceneSerializer.serializeAll decompose objects); [|discriminate].
  simpl. intros Heq; inversion Heq; discriminate.
Qed.

(** Without a previous snapshot [saveState] leaves the undo manager alone. *)
Lemma saveState_without_baseline (objects : list EditorObject) (s : SceneSerializer.t) :
  SceneSerializer.lastState s = VNull ->
  SceneSerializer.undoManager (snd (SceneSerializer.saveState decompose objects s))
  = SceneSerializer.undoManager s.
Proof.
  intros Hnull. unfold SceneSerializer.saveState.
  destruct (JS.bind _ _); [|reflexivity].
  rewrite Hnull. reflexivity.
Qed.

(** With one, it adds the pair (previous snapshot, new snapshot). *)
Lemma saveState_with_baseline (objects : list EditorObject) (s : SceneSerializer.t)
    (snapshot : jsval) :
  SceneSerializer.lastState s <> VNull ->
  snapshot_of decompose objects = Ok snapshot ->
  SceneSerializer.undoManager (snd (SceneSerializer.saveState decompose objects s))
  = UndoManager.add (SceneSerializer.entry (SceneSerializer.lastState s) snapshot)
      (SceneSerializer.undoManager s).
Proof.
  intros Hprev Hsnap. unfold SceneSerializer.saveState.
  unfold snapshot_of in Hsnap. rewrite Hsnap.
  destruct (SceneSerializer.lastState s); try reflexivity. contradiction.
Qed.

End SerializerFacts.

(** C10.  The first [saveState] on a new serializer: whatever the objects,
    no command is added and [canUndo()] and [canRedo()] are false; when
    the snapshot can be taken it becomes [lastState] (the baseline).  The
    next [saveState] is the one that adds an entry, the pair of the two
    snapshots, and then [canUndo()] is true.  In any serializer, a
    [saveState] that finds [lastState] null adds nothing. *)
Theorem first_saveState_is_baseline_only :
  forall (decompose : THREE.Mesh -> THREE.Vector3 * THREE.Vector3 * THREE.Vector3)
         (objects : list EditorObject) (maxHistorySize : nat),
    let first := SceneSerializer.saveState decompose objects
                   (SceneSerializer.create maxHistorySize) in
    (UndoManager.commands (SceneSerializer.undoManager (snd first)) = []
     /\ SceneSerializer.canUndo (snd first) = false
     /\ SceneSerializer.canRedo (snd first) = false)
    /\ (forall snapshot : jsval,
          snapshot_of decompose objects = Ok snapshot ->
          fst first = Ok tt
          /\ SceneSerializer.lastState (snd first) = snapshot
          /\ snapshot <> VNull
          /\ forall (objects' : list EditorObject) (snapshot' : jsval),
               snapshot_of decompose objects' = Ok snapshot' ->
               let second := SceneSerializer.saveState decompose objects' (snd first) in
               fst second = Ok tt
               /\ UndoManager.commands (SceneSerializer.undoManager (snd second))
                  = [SceneSerializer.entry snapshot snapshot']
               /\ SceneSerializer.canUndo (snd second) = true
               /\ SceneSerializer.canRedo (snd second) = false)
    /\ (forall s : SceneSerializer.t,
          SceneSerializer.lastState s = VNull ->
          SceneSerializer.undoManager (snd (SceneSerializer.saveState decompose objects s))
          = SceneSerializer.undoManager s).
Proof.
  intros decompose objects maxHistorySize first.
  split; [|split].
  - subst first. unfold SceneSerializer.saveState.
    destruct (JS.bind _ _); repeat split.
  - intros snapshot Hsnap.
    assert (Hfirst : first
                     = (Ok tt, SceneSerializer.dispatchStateChanged
                                 (SceneSerializer.with_lastState snapshot
                                    (SceneSerializer.create maxHistorySize)))).
    { subst first. unfold SceneSerializer.saveState.
      unfold snapshot_of in Hsnap. rewrite Hsnap. reflexivity. }
    rewrite Hfirst. cbn [fst snd].
    split; [reflexivity|]. split; [reflexivity|].
    split; [eapply snapshot_not_null; eassumption|].
    intros objects' snapshot' Hsnap'.
    pose proof (snapshot_not_null _ _ _ Hsnap) as Hnn.
    unfold SceneSerializer.saveState.
    unfold snapshot_of in Hsnap'. rewrite Hsnap'.
    cbn [SceneSerializer.lastState SceneSerializer.dispatchStateChanged
         SceneSerializer.with_lastState].
    unfold SceneSerializer.canUndo, SceneSerializer.canRedo.
    destruct snapshot; try contradiction;
      destruct maxHistorySize as [|[|k]]; cbn; repeat split.
  - intros s Hnull. now apply saveState_without_baseline.
Qed.

Lemma history_wf_create (maxHistorySize : nat) :
  history_wf (SceneSerializer.create maxHistorySize).
Proof. unfold history_wf; simpl; lia. Qed.

Lemma canUndo_has_command (s : SceneSerializer.t) :
  history_wf s -> SceneSerializer.canUndo s = true ->
  exists command,
    UndoManager.at_index (SceneSerializer.undoManager s)
      (UndoManager.index (SceneSerializer.undoManager s)) = Some command.
Proof.
  unfold history_wf, SceneSerializer.canUndo, UndoManager.hasUndo, UndoManager.at_index.
  intros Hwf Hcan. apply negb_true_iff, Z.eqb_neq in Hcan.
  destruct (Z.ltb_spec (UndoManager.index (SceneSerializer.undoManager s)) 0); [lia|].
  destruct (nth_error _ _) as [command|] eqn:Hnth; [eauto|].
  apply nth_error_None in Hnth. lia.
Qed.

Lemma canRedo_has_command (s : SceneSerializer.t) :
  history_wf s -> SceneSerializer.canRedo s = true ->
  exists command,
    UndoManager.at_index (SceneSerializer.undoManager s)
      (UndoManager.index (SceneSerializer.undoManager s) + 1) = Some command.
Proof.
  unfold history_wf, SceneSerializer.canRedo, UndoManager.hasRedo, UndoManager.at_index.
  intros Hwf Hcan. apply Z.ltb_lt in Hcan.
  destruct (Z.ltb_spec (UndoManager.index (SceneSerializer.undoManager s) + 1) 0); [lia|].
  destruct (nth_error _ _) as [command|] eqn:Hnth; [eauto|].
  apply nth_error_None in Hnth. lia.
Qed.

(** C7.  [undo()] returns [null] and changes neither the serializer nor the
    scene when [canUndo()] is false, and so does [redo()] when [canRedo()] is
    false.  Otherwise [undo()] hands the previous snapshot of the command at
    the index to the restore callback, makes it [lastState], returns it,
    dispatches one [stateChanged] and lowers the index by one; [redo()] does
    the same with the next snapshot of the command above the index and
    raises the index by one. *)
Theorem undo_redo_noop_or_transition :
  forall (W : Type) (loadSceneCallback : option (jsval -> W -> outcome unit * W))
         (s : SceneSerializer.t) (w : W),
    let m := SceneSerializer.undoManager s in
    (SceneSerializer.canUndo s = false ->
     SceneSerializer.undo W loadSceneCallback s w = (Ok VNull, s, w))
    /\ (SceneSerializer.canRedo s = false ->
        SceneSerializer.redo W loadSceneCallback s w = (Ok VNull, s, w))
    /\ (forall (command : SceneSerializer.Entry) (w' : W),
          SceneSerializer.canUndo s = true ->
          UndoManager.at_index m (UndoManager.index m) = Some command ->
          SceneSerializer.invoke_callback W loadSceneCallback
            (SceneSerializer.prevState command) w = (Ok tt, w') ->
          exists s',
            SceneSerializer.undo W loadSceneCallback s w
            = (Ok (SceneSerializer.prevState command), s', w')
            /\ SceneSerializer.lastState s' = SceneSerializer.prevState command
            /\ UndoManager.index (SceneSerializer.undoManager s')
               = (UndoManager.index m - 1)%Z
            /\ UndoManager.commands (SceneSerializer.undoManager s')
               = UndoManager.commands m
            /\ SceneSerializer.events s'
               = (SceneSerializer.canUndo s, SceneSerializer.canRedo s)
                   :: SceneSerializer.events s)
    /\ (forall (command : SceneSerializer.Entry) (w' : W),
          SceneSerializer.canRedo s = true ->
          UndoManager.at_index m (UndoManager.index m + 1) = Some command ->
          SceneSerializer.invoke_callback W loadSceneCallback
            (SceneSerializer.currState command) w = (Ok tt, w') ->
          exists s',
            SceneSerializer.redo W loadSceneCallback s w
            = (Ok (SceneSerializer.currState command), s', w')
            /\ SceneSerializer.lastState s' = SceneSerializer.currState command
            /\ UndoManager.index (SceneSerializer.undoManager s')
               = (UndoManager.index m + 1)%Z
            /\ UndoManager.commands (SceneSerializer.undoManager s')
               = UndoManager.commands m
            /\ SceneSerializer.events s'
               = (SceneSerializer.canUndo s, SceneSerializer.canRedo s)
                   :: SceneSerializer.events s).
Proof.
  intros W cb s w m. repeat split.
  - intros Hcan. unfold SceneSerializer.undo. now rewrite Hcan.
  - intros Hcan. unfold SceneSerializer.redo. now rewrite Hcan.
  - intros command w' Hcan Hat Hcb.
    unfold SceneSerializer.undo, SceneSerializer.manager_undo, SceneSerializer.restore.
    rewrite Hcan. fold m. rewrite Hat, Hcb. cbn.
    eexists. repeat split.
    cbn [SceneSerializer.events SceneSerializer.with_manager
         SceneSerializer.dispatchStateChanged].
    f_equal. f_equal. exact Hcan.
  - intros command w' Hcan Hat Hcb.
    unfold SceneSerializer.redo, SceneSerializer.manager_redo, SceneSerializer.restore.
    rewrite Hcan. fold m. rewrite Hat, Hcb. cbn.
    eexists. repeat split.
    cbn [SceneSerializer.events SceneSerializer.with_manager
         SceneSerializer.dispatchStateChanged].
    f_equal. f_equal. exact Hcan.
Qed.

(** ** Import *)

(** The branch of [importScene] that changes nothing.  When the text does
    not parse, or parses to a falsy value ([null], [false], [0], the empty
    string), [importScene] returns [false] and the editor, its entity list
    included, is exactly as before. *)
Lemma importScene_unparsed_changes_nothing :
  forall (clock : nat -> N * string)
         (decompose : THREE.Mesh -> THREE.Vector3 * THREE.Vector3 * THREE.Vector3)
         (sceneTree : bool) (text : string) (ed : LevelEditor.t),
    truthy (SceneSerializer.parseJSON text) = false ->
    LevelEditor.importScene clock decompose sceneTree text ed = (Ok false, ed).
Proof.
  intros clock decompose sceneTree text ed Hfalsy.
  unfold LevelEditor.importScene. now rewrite Hfalsy.
Qed.

(** A number too small for a double parses to zero, which is falsy. *)
Example importScene_underflow_changes_nothing :
  JSON.parse "1e-400" = Some (VNum 0)
  /\ LevelEditor.importScene sample_clock local_transform true "1e-400" sample_editor
     = (Ok false, sample_editor).
Proof. split; reflexivity. Qed.

Lemma importScene_parse_failure (clock : nat -> N * string)
    (decompose : THREE.Mesh -> THREE.Vector3 * THREE.Vector3 * THREE.Vector3)
    (sceneTree : bool) (text : string) (ed : LevelEditor.t) :
  JSON.parse text = None ->
  LevelEditor.importScene clock decompose sceneTree text ed = (Ok false, ed).
Proof.
  intros Hfail. apply importScene_unparsed_changes_nothing.
  unfold SceneSerializer.parseJSON. now rewrite Hfail.
Qed.

(** C3.  [importScene] is not all-or-nothing.  The text [{}] parses, to an
    object that has no [objects].  [importScene] does not return [false] and
    leave the editor alone, as it does for a text that does not parse: it
    throws, whether or not the page has a scene tree, and the box the
    editor held is gone. *)
Theorem importScene_missing_objects_clears_scene :
  forall sceneTree : bool,
    JSON.parse "{}" = Some (VObj [])
    /\ LevelEditor.objects (LevelEditor.live sample_editor) = [sample_box]
    /\ exists ed',
         LevelEditor.importScene sample_clock local_transform sceneTree "{}" sample_editor
         = (Throw (TypeError "Cannot read properties of undefined (reading 'forEach')"),
            ed')
         /\ LevelEditor.objects (LevelEditor.live ed') = [].
Proof.
  intros sceneTree. split; [reflexivity|]. split; [reflexivity|].
  eexists; split; reflexivity.
Qed.

(** The same for every editor and every text that parses to an object
    without [objects]: the entity list is emptied and the import throws. *)
Lemma importScene_without_objects_throws (clock : nat -> N * string)
    (decompose : THREE.Mesh -> THREE.Vector3 * THREE.Vector3 * THREE.Vector3)
    (sceneTree : bool) (text : string) (fields : list (string * jsval))
    (ed : LevelEditor.t) :
  JSON.parse text = Some (VObj fields) ->
  own fields "objects" = None ->
  LevelEditor.selectedObjects (LevelEditor.live ed) = [] ->
  exists e ed',
    LevelEditor.importScene clock decompose sceneTree text ed = (Throw e, ed')
    /\ LevelEditor.objects (LevelEditor.live ed') = []
    /\ LevelEditor.serializer ed' = LevelEditor.serializer ed.
Proof.
  intros Hparse Hown Hsel.
  unfold LevelEditor.importScene, SceneSerializer.parseJSON. rewrite Hparse.
  cbn [truthy]. unfold LevelEditor.loadScene, LevelEditor.deselectAllObjects,
    LevelEditor.deselectAll.
  cbn [LevelEditor.selectedObjects LevelEditor.objects LevelEditor.currentTool
       LevelEditor.reads]. rewrite Hsel. cbn [forallb getprop]. rewrite Hown.
  cbn [default from_option]. do 2 eexists. repeat split.
Qed.

(** The first item is restored, then [importScene] throws on the second:
    the editor is left with that one object, neither the old scene nor the
    new one. *)
Lemma importScene_partial_application :
  exists ed' o,
    LevelEditor.importScene sample_clock local_transform true half_good_text sample_editor
    = (Throw (TypeError "Cannot read properties of undefined (reading 'type')"), ed')
    /\ LevelEditor.objects (LevelEditor.live ed') = [o]
    /\ id o = VStr "b1"
    /\ THREE.geometry (mesh o) = THREE.BoxGeometry (3 # 10) 3 5.
Proof.
  eexists; eexists. vm_compute. repeat split.
Qed.

(** ** The snapshot history at work *)

Example sample_snapshot_taken :
  snapshot_of local_transform [sample_box] = Ok sample_snapshot.
Proof. reflexivity. Qed.

Lemma first_saveState_is_baseline_only_witness :
  snapshot_of local_transform [] = Ok empty_snapshot
  /\ snapshot_of local_transform [sample_box] = Ok sample_snapshot
  /\ SceneSerializer.canUndo
       (snd (SceneSerializer.saveState local_transform [] (SceneSerializer.create 50)))
     = false
  /\ SceneSerializer.lastState
       (snd (SceneSerializer.saveState local_transform [] (SceneSerializer.create 50)))
     = empty_snapshot
  /\ UndoManager.commands (SceneSerializer.undoManager sample_serializer)
     = [SceneSerializer.entry empty_snapshot sample_snapshot]
  /\ SceneSerializer.canUndo sample_serializer = true.
Proof.
  destruct (first_saveState_is_baseline_only local_transform [] 50)
    as ((_ & Hundo & _) & Hbase & _).
  destruct (Hbase empty_snapshot eq_refl) as (_ & Hlast & _ & Hnext).
  destruct (Hnext [sample_box] sample_snapshot eq_refl) as (_ & Hcmds & Hcan & _).
  split; [reflexivity|]. split; [reflexivity|].
  split; [exact Hundo|]. split; [exact Hlast|].
  split; [exact Hcmds|exact Hcan].
Defined.

Lemma undo_redo_noop_or_transition_witness :
  let cb := LevelEditor.callback sample_clock true in
  (SceneSerializer.canUndo (SceneSerializer.create 50) = false
   /\ SceneSerializer.undo LevelEditor.Scene cb (SceneSerializer.create 50) sample_scene
      = (Ok VNull, SceneSerializer.create 50, sample_scene))
  /\ (SceneSerializer.canRedo sample_serializer = false
      /\ SceneSerializer.redo LevelEditor.Scene cb sample_serializer sample_scene
         = (Ok VNull, sample_serializer, sample_scene))
  /\ exists s',
       SceneSerializer.undo LevelEditor.Scene cb sample_serializer sample_scene
       = (Ok empty_snapshot, s', LevelEditor.scene [] [] "select" 0)
       /\ SceneSerializer.lastState s' = empty_snapshot
       /\ SceneSerializer.canUndo s' = false
       /\ SceneSerializer.canRedo s' = true.
Proof.
  intros cb.
  destruct (undo_redo_noop_or_transition LevelEditor.Scene cb
              (SceneSerializer.create 50) sample_scene) as (Hnoundo & _).
  destruct (undo_redo_noop_or_transition LevelEditor.Scene cb
              sample_serializer sample_scene) as (_ & Hnoredo & Hundo & _).
  split; [split; [reflexivity|exact (Hnoundo eq_refl)]|].
  split; [split; [reflexivity|exact (Hnoredo eq_refl)]|].
  destruct (Hundo (SceneSerializer.entry empty_snapshot sample_snapshot)
              (LevelEditor.scene [] [] "select" 0) eq_refl eq_refl eq_refl)
    as (s' & Hrun & Hlast & Hidx & Hcmds & _).
  exists s'. split; [exact Hrun|]. split; [exact Hlast|].
  unfold SceneSerializer.canUndo, SceneSerializer.canRedo,
    UndoManager.hasUndo, UndoManager.hasRedo.
  rewrite Hidx, Hcmds. split; reflexivity.
Defined.

(** The failing type key of C8 reaches [create] through an imported file: the
    import throws at [config.createGeometry()], after the scene was cleared. *)
Lemma importScene_inherited_type_throws :
  exists ed',
    LevelEditor.importScene sample_clock local_transform true inherited_type_text sample_editor
    = (Throw (TypeError "config.createGeometry is not a function"), ed')
    /\ LevelEditor.objects (LevelEditor.live ed') = [].
Proof. eexists. vm_compute. split; reflexivity. Qed.

(** A well-formed file is restored and recorded as the baseline. *)
Example importScene_one_box :
  JSON.parse one_box_text = Some sample_snapshot
  /\ exists s',
       LevelEditor.importScene sample_clock local_transform true one_box_text
         (LevelEditor.create)
       = (Ok true, LevelEditor.levelEditor (LevelEditor.scene [sample_box] [] "select" 0) s')
       /\ SceneSerializer.lastState s' = sample_snapshot
       /\ SceneSerializer.canUndo s' = false.
Proof. split; [reflexivity|]. eexists. vm_compute. repeat split. Qed.

(** ** The index of the history stays within its commands *)

Lemma history_wf_saveState
    (decompose : THREE.Mesh -> THREE.Vector3 * THREE.Vector3 * THREE.Vector3)
    (objects : list EditorObject) (s : SceneSerializer.t) :
  history_wf s -> history_wf (snd (SceneSerializer.saveState decompose objects s)).
Proof.
  unfold history_wf, SceneSerializer.saveState. intros Hwf.
  destruct (JS.bind _ _) as [newState|]; [|exact Hwf].
  destruct (SceneSerializer.lastState s); try exact Hwf;
    cbn [snd SceneSerializer.undoManager SceneSerializer.dispatchStateChanged
         SceneSerializer.with_lastState SceneSerializer.with_manager];
    unfold UndoManager.add;
    destruct (UndoManager.isExecuting (SceneSerializer.undoManager s)); try exact Hwf;
    cbn [UndoManager.index UndoManager.commands];
    match goal with
    | |- context [if ?b then _ else _] => destruct b
    end;
    rewrite ?length_drop, ?length_app; cbn [List.length]; lia.
Qed.

Lemma history_wf_undo (W : Type) (cb : option (jsval -> W -> outcome unit * W))
    (s : SceneSerializer.t) (w : W) :
  history_wf s -> history_wf (snd (fst (SceneSerializer.undo W cb s w))).
Proof.
  unfold history_wf. intros Hwf.
  unfold SceneSerializer.undo.
  destruct (SceneSerializer.canUndo s) eqn:Hcan; cbn [negb]; [|exact Hwf].
  unfold SceneSerializer.manager_undo, SceneSerializer.restore.
  destruct (UndoManager.at_index _ _); [|exact Hwf].
  destruct (SceneSerializer.invoke_callback W cb _ w) as [[u|err] w']; cbn; [|exact Hwf].
  unfold SceneSerializer.canUndo, UndoManager.hasUndo in Hcan.
  apply negb_true_iff, Z.eqb_neq in Hcan. lia.
Qed.

Lemma history_wf_redo (W : Type) (cb : option (jsval -> W -> outcome unit * W))
    (s : SceneSerializer.t) (w : W) :
  history_wf s -> history_wf (snd (fst (SceneSerializer.redo W cb s w))).
Proof.
  unfold history_wf. intros Hwf.
  unfold SceneSerializer.redo.
  destruct (SceneSerializer.canRedo s) eqn:Hcan; cbn [negb]; [|exact Hwf].
  unfold SceneSerializer.manager_redo, SceneSerializer.restore.
  destruct (UndoManager.at_index _ _); [|exact Hwf].
  destruct (SceneSerializer.invoke_callback W cb _ w) as [[u|err] w']; cbn; [|exact Hwf].
  unfold SceneSerializer.canRedo, UndoManager.hasRedo in Hcan.
  apply Z.ltb_lt in Hcan. lia.
Qed.

(** ** Restoring a snapshot *)

(** Induction on values, through the lists they hold. *)
Section ValueInduction.

Variable P : jsval -> Prop.
Hypothesis Pundefined : P VUndefined.
Hypothesis Pnull : P VNull.
Hypothesis Pbool : forall b, P (VBool b).
Hypothesis Pnum : forall q, P (VNum q).
Hypothesis Pinfinity : forall negative, P (VInfinity negative).
Hypothesis Pstr : forall s, P (VStr s).
Hypothesis Parr :
  forall items props,
    Forall P items -> Forall (fun kv => P (snd kv)) props -> P (VArr items props).
Hypothesis Pobj :
  forall fields, Forall (fun kv => P (snd kv)) fields -> P (VObj fields).

Fixpoint jsval_induction (v : jsval) : P v :=
  match v with
  | VUndefined => Pundefined
  | VNull => Pnull
  | VBool b => Pbool b
  | VNum q => Pnum q
  | VInfinity negative => Pinfinity negative
  | VStr s => Pstr s
  | VArr items props =>
      Parr items props
        ((fix all (l : list jsval) : Forall P l :=
            match l with
            | [] => @Stdlib.Lists.List.Forall_nil _ P
            | a :: l' =>
                @Stdlib.Lists.List.Forall_cons _ P a l' (jsval_induction a) (all l')
            end) items)
        ((fix all (l : list (string * jsval)) : Forall (fun kv => P (snd kv)) l :=
            match l with
            | [] => @Stdlib.Lists.List.Forall_nil _ _
            | kv :: l' =>
                @Stdlib.Lists.List.Forall_cons _ _ kv l' (jsval_induction (snd kv)) (all l')
            end) props)
  | VObj fields =>
      Pobj fields
        ((fix all (l : list (string * jsval)) : Forall (fun kv => P (snd kv)) l :=
            match l with
            | [] => @Stdlib.Lists.List.Forall_nil _ _
            | kv :: l' =>
                @Stdlib.Lists.List.Forall_cons _ _ kv l' (jsval_induction (snd kv)) (all l')
            end) fields)
  end.

End ValueInduction.

Lemma copy_json : forall v : jsval, is_json v = true -> DeepCopy.copy v = v.
Proof.
  induction v as [ | | b | q | negative | s | items props IHitems _ | fields IHfields]
    using jsval_induction; try reflexivity; try (intros Hv; discriminate Hv).
  - simpl. intros Hv. apply andb_true_iff in Hv as [Hitems Hprops].
    destruct props; [|discriminate]. f_equal.
    induction IHitems as [|a items Ha _ IH]; [reflexivity|].
    simpl in Hitems. apply andb_true_iff in Hitems as [Hja Hrest].
    simpl. rewrite (IH Hrest). specialize (Ha Hja).
    destruct a; try discriminate Hja; try reflexivity; now rewrite Ha.
  - simpl. intros Hv. f_equal.
    induction IHfields as [|[k a] fields Ha _ IH]; [reflexivity|].
    simpl in Hv. apply andb_true_iff in Hv as [Hja Hrest].
    specialize (IH Hrest). simpl in Ha, Hja. specialize (Ha Hja).
    destruct a; try discriminate Hja; simpl in *;
      rewrite IH; try rewrite Ha; reflexivity.
Qed.

Lemma fromArray_toArray (v : THREE.Vector3) : THREE.fromArray (THREE.toArray v) = Ok v.
Proof. destruct v; reflexivity. Qed.

Lemma create_result (type : jsval) (position : THREE.Vector3) (i : jsval)
    (now : N) (random36 : string) (obj : EditorObject) :
  ObjectFactory.create type position i now random36 = Ok obj ->
  THREE.position (mesh obj) = position
  /\ id obj = (if truthy i then i else VStr (ObjectFactory.generateId now random36)).
Proof.
  unfold ObjectFactory.create.
  destruct (ObjectFactory.config_for type) as [[config| |]|]; cbn [JS.bind];
    try discriminate.
  destruct (MaterialsLibrary.get _); cbn [JS.bind]; [|discriminate].
  intros Hobj; inversion Hobj; subst; split; reflexivity.
Qed.

Lemma material_lookup_ok (materialType : jsval) (fallback : option THREE.Material) :
  Registry.safe MaterialsLibrary.materials materialType = true ->
  exists m,
    (known <- MaterialsLibrary.has materialType ;;
     if known then MaterialsLibrary.get materialType else Ok fallback) = Ok m.
Proof.
  unfold Registry.safe, MaterialsLibrary.has, MaterialsLibrary.get.
  destruct (Registry.read MaterialsLibrary.materials materialType) as [[m|name|]|e];
    cbn [JS.bind]; try discriminate; intros _; eexists; reflexivity.
Qed.

(** A key that is safe can be made a text. *)
Lemma safe_ToString {A} (entries : list (string * A)) (v : jsval) :
  Registry.safe entries v = true -> exists k, ToString v = Ok k.
Proof.
  unfold Registry.safe, Registry.read, Registry.key_of.
  destruct (ToString v) as [k|e]; cbn [JS.bind]; [eauto|discriminate].
Qed.

(** The scene tree can name an object that is restorable and whose id is a
    string. *)
Lemma item_name_restorable (o : EditorObject) :
  restorable o -> (exists s, id o = VStr s) -> LevelEditor.item_name o = Ok tt.
Proof.
  intros (_ & _ & type & materialType & Htype & _ & Hsafe & _) (s & Hs).
  unfold LevelEditor.item_name. rewrite Htype. cbn [JS.bind].
  destruct (safe_ToString _ _ Hsafe) as (k & Hk). rewrite Hk. cbn [JS.bind].
  now rewrite Hs.
Qed.

Section Restore.

Variable clock : nat -> N * string.
Variable sceneTree : bool.
Variable decompose : THREE.Mesh -> THREE.Vector3 * THREE.Vector3 * THREE.Vector3.

Lemma restoreObject_serialized (o : EditorObject) (v : jsval) (n : nat) :
  restorable o ->
  SceneSerializer.serializeObject decompose o = Ok v ->
  getprop v "id" = Ok (id o)
  /\ exists o', LevelEditor.restoreObject clock v n = Ok o' /\ restored_from decompose o o'.
Proof.
  destruct o as [i m d].
  intros (Hid & Hjson & type & materialType & Htype & Hmat & Hnotype & Hnomat).
  cbn [id mesh data] in *.
  unfold SceneSerializer.serializeObject, restored_from. cbn [id mesh data].
  destruct (decompose m) as [[p r] s].
  assert (Hclone : DeepCopy.deepClone d = Ok d).
  { unfold DeepCopy.deepClone. rewrite (copy_json _ Hjson).
    destruct d; try reflexivity; discriminate. }
  rewrite Hclone. cbn [JS.bind].
  intros Hv; inversion Hv; subst v; clear Hv.
  split; [reflexivity|].
  unfold LevelEditor.restoreObject.
  set (v := VObj _).
  assert (Hd : getprop v "data" = Ok d) by reflexivity.
  assert (Hp : getprop v "position" = Ok (THREE.toArray p)) by reflexivity.
  assert (Hi : getprop v "id" = Ok i) by reflexivity.
  assert (Hr : getprop v "rotation" = Ok (THREE.toArray r)) by reflexivity.
  assert (Hs : getprop v "scale" = Ok (THREE.toArray s)) by reflexivity.
  rewrite Hd, Hp, Hi, Hr, Hs. cbn [JS.bind].
  rewrite Htype, !fromArray_toArray, Hclone, Hmat. cbn [JS.bind].
  pose proof (proj2 (create_succeeds_iff type p i (fst (clock n)) (snd (clock n)))
                Hnotype) as Hok.
  destruct (ObjectFactory.create type p i (fst (clock n)) (snd (clock n)))
    as [obj|] eqn:Hcreate; [|discriminate Hok].
  destruct (create_result _ _ _ _ _ _ Hcreate) as [Hpos Hobjid].
  rewrite Hid in Hobjid.
  destruct (material_lookup_ok materialType (THREE.mat (mesh obj)) Hnomat) as [k Hk].
  cbn [JS.bind]. cbn [JS.bind] in Hk.
  destruct (MaterialsLibrary.has materialType) as [known|]; [|discriminate Hk].
  cbn [JS.bind] in *. rewrite Hk. cbn [JS.bind].
  eexists. split; [reflexivity|].
  cbn [id mesh data]. repeat split; try assumption.
  destruct obj as [oi [g mt pp rr ss cs rs] od]. cbn in *. now subst.
Qed.

Lemma restoreAll_serialized (objects : list EditorObject) :
  forall (vs : list jsval) (sc : LevelEditor.Scene),
    Forall restorable objects ->
    SceneSerializer.serializeAll decompose objects = Ok vs ->
    exists restored,
      LevelEditor.restoreAll clock vs sc
      = (Ok tt,
         LevelEditor.scene (LevelEditor.objects sc ++ restored)
           (LevelEditor.selectedObjects sc) (LevelEditor.currentTool sc)
           (LevelEditor.reads sc))
      /\ Forall2 (restored_from decompose) objects restored.
Proof.
  induction objects as [|o rest IH]; intros vs sc Hall Hser.
  - inversion Hser; subst. exists []. split; [|constructor].
    simpl. rewrite app_nil_r. now destruct sc.
  - inversion Hall as [|? ? Ho Hrest]; subst.
    simpl in Hser. unfold JS.bind in Hser.
    destruct (SceneSerializer.serializeObject decompose o) as [v|] eqn:Hv; [|discriminate].
    destruct (SceneSerializer.serializeAll decompose rest) as [vs'|] eqn:Hvs; [|discriminate].
    inversion Hser; subst vs; clear Hser.
    destruct (restoreObject_serialized o v (LevelEditor.reads sc) Ho Hv)
      as (Hvid & o' & Hrestore & Hfrom).
    destruct Ho as (Hid & _).
    simpl. rewrite Hrestore, Hvid, Hid.
    destruct (IH vs'
                (LevelEditor.scene (LevelEditor.objects sc ++ [o'])
                   (LevelEditor.selectedObjects sc) (LevelEditor.currentTool sc)
                   (LevelEditor.reads sc + 0)) Hrest eq_refl)
      as (restored & Hrun & Hall2).
    exists (o' :: restored). split; [|now constructor].
    rewrite Hrun. cbn [LevelEditor.objects LevelEditor.selectedObjects
                       LevelEditor.currentTool LevelEditor.reads].
    now rewrite <- app_assoc, Nat.add_0_r.
Qed.

Lemma item_names_restored (objects restored : list EditorObject) :
  Forall restorable objects ->
  Forall (fun o => exists s, id o = VStr s) objects ->
  Forall2 (restored_from decompose) objects restored ->
  LevelEditor.item_names restored = Ok tt.
Proof.
  intros Hall Hids Hfrom. revert Hall Hids.
  induction Hfrom as [|o o' l l' (Hid & Hdata & _) _ IH]; intros Hall Hids;
    [reflexivity|].
  inversion Hall as [|? ? Ho Hrest]; subst.
  inversion Hids as [|? ? Hs Hsrest]; subst.
  cbn [LevelEditor.item_names].
  assert (Hname : LevelEditor.item_name o' = Ok tt).
  { pose proof (item_name_restorable o Ho Hs) as Hn.
    unfold LevelEditor.item_name in *. now rewrite Hid, Hdata. }
  rewrite Hname. cbn [JS.bind]. now apply IH.
Qed.

(** Restoring the state that [serializeObjects] took of restorable objects
    whose ids are strings gives as many objects, in the same order, each
    with the id, the data and the recorded world transform of the object
    it stands for; the selection (of objects that have a material) is
    emptied and the tool is [select]. *)
Theorem loadScene_restores_snapshot (objects : list EditorObject) (state : jsval)
    (sc : LevelEditor.Scene) :
  Forall restorable objects ->
  Forall (fun o => exists s, id o = VStr s) objects ->
  Forall (fun o => THREE.mat (mesh o) <> None) (LevelEditor.selectedObjects sc) ->
  SceneSerializer.serializeObjects decompose objects = Ok state ->
  exists restored,
    LevelEditor.loadScene clock sceneTree state sc
    = (Ok tt, LevelEditor.scene restored [] "select" (LevelEditor.reads sc))
    /\ Forall2 (restored_from decompose) objects restored.
Proof.
  intros Hall Hids Hsel Hser.
  unfold SceneSerializer.serializeObjects, JS.bind in Hser.
  destruct (SceneSerializer.serializeAll decompose objects) as [vs|] eqn:Hvs; [|discriminate].
  inversion Hser; subst state; clear Hser.
  unfold LevelEditor.loadScene, LevelEditor.deselectAllObjects, LevelEditor.deselectAll.
  cbn [LevelEditor.selectedObjects LevelEditor.objects LevelEditor.currentTool
       LevelEditor.reads].
  destruct (forallb _ (LevelEditor.selectedObjects sc)) eqn:Hmat.
  - cbn [getprop own String.eqb Ascii.eqb Bool.eqb default].
    destruct (restoreAll_serialized objects vs
                (LevelEditor.scene [] [] "select" (LevelEditor.reads sc)) Hall Hvs)
      as (restored & Hrun & Hall2).
    exists restored. split; [|exact Hall2].
    change (getprop (VObj [("objects", VArr vs [])]) "objects") with (Ok (VArr vs [])).
    cbv beta iota delta [Datatypes.id].
    cbn [LevelEditor.objects LevelEditor.selectedObjects LevelEditor.currentTool
         LevelEditor.reads app] in *.
    rewrite Hrun. unfold LevelEditor.populateSceneTree. cbn [LevelEditor.objects].
    rewrite (item_names_restored objects restored Hall Hids Hall2).
    now destruct sceneTree.
  - exfalso. revert Hsel Hmat. generalize (LevelEditor.selectedObjects sc).
    intros l Hsel. induction Hsel as [|o l Ho _ IHl]; simpl; [discriminate|].
    destruct (THREE.mat (mesh o)); simpl; [exact IHl|contradiction].
Qed.

End Restore.

(** ** The parser does not run out of fuel *)

Module JSONFacts.

Import JSON.

Lemma value_S (f : nat) (cs : list ascii) :
  value (S f) cs
  = match expect "["%char cs with
    | Some rest =>
        match expect "]"%char rest with
        | Some rest' => Some (VArr [] [], rest')
        | None => elements f rest []
        end
    | None =>
        match expect "{"%char cs with
        | Some rest =>
            match expect "}"%char rest with
            | Some rest' => Some (VObj [], rest')
            | None => members f rest []
            end
        | None => scalar (skip_ws cs)
        end
    end.
Proof. reflexivity. Qed.

Lemma elements_S (f : nat) (cs : list ascii) (acc : list jsval) :
  elements (S f) cs acc
  = match value f cs with
    | None => None
    | Some (v, rest) =>
        match expect ","%char rest with
        | Some rest' => elements f rest' (v :: acc)
        | None =>
            match expect "]"%char rest with
            | Some rest' => Some (VArr (rev (v :: acc)) [], rest')
            | None => None
            end
        end
    end.
Proof. reflexivity. Qed.

Lemma members_S (f : nat) (cs : list ascii) (acc : list (string * jsval)) :
  members (S f) cs acc
  = match string_literal (skip_ws cs) with
    | None => None
    | Some (k, rest1) =>
        match expect ":"%char rest1 with
        | None => None
        | Some rest2 =>
            match value f rest2 with
            | None => None
            | Some (v, rest3) =>
                match expect ","%char rest3 with
                | Some rest4 => members f rest4 (add_field acc k v)
                | None =>
                    match expect "}"%char rest3 with
                    | Some rest4 => Some (VObj (add_field acc k v), rest4)
                    | None => None
                    end
                end
            end
        end
    end.
Proof. reflexivity. Qed.

Lemma skip_ws_length (cs : list ascii) :
  (List.length (skip_ws cs) <= List.length cs)%nat.
Proof.
  induction cs as [|c cs IH]; simpl; [lia|].
  destruct (is_ws c); simpl; lia.
Qed.

Lemma expect_length (c : ascii) (cs rest : list ascii) :
  expect c cs = Some rest -> (List.length rest < List.length cs)%nat.
Proof.
  unfold expect. pose proof (skip_ws_length cs) as Hws.
  destruct (skip_ws cs) as [|c' cs']; [discriminate|].
  destruct (Ascii.eqb c' c); [|discriminate].
  intros Heq; inversion Heq; subst. simpl in Hws. lia.
Qed.

Lemma strip_length (word cs rest : list ascii) :
  strip word cs = Some rest ->
  (List.length rest + List.length word = List.length cs)%nat.
Proof.
  revert cs; induction word as [|w word IH]; intros cs; simpl.
  - intros Heq; inversion Heq; lia.
  - destruct cs as [|c cs]; [discriminate|].
    destruct (Ascii.eqb w c); [|discriminate].
    intros Heq. apply IH in Heq. simpl. lia.
Qed.

Lemma hex4_length (cs rest : list ascii) (n : N) :
  hex4 cs = Some (n, rest) -> (List.length rest + 4 = List.length cs)%nat.
Proof.
  unfold hex4. destruct cs as [|a [|b [|c [|d cs]]]]; try discriminate.
  destruct (hex_of a), (hex_of b), (hex_of c), (hex_of d); try discriminate.
  intros Heq; inversion Heq; subst. simpl. lia.
Qed.

Lemma string_body_length (f : nat) :
  forall (cs acc : list ascii) (s : string) (rest : list ascii),
    string_body f cs acc = Some (s, rest) ->
    (List.length rest < List.length cs)%nat.
Proof.
  induction f as [|f IH]; intros cs acc s rest; simpl; [discriminate|].
  destruct cs as [|c cs]; [discriminate|].
  destruct (Ascii.eqb c dquote).
  { intros Heq; inversion Heq; subst. simpl. lia. }
  destruct (Ascii.eqb c "\"%char).
  { destruct cs as [|e cs]; [discriminate|].
    destruct (unescape e).
    - intros Heq. apply IH in Heq. simpl. lia.
    - destruct (Ascii.eqb e "u"%char); [|discriminate].
      destruct (hex4 cs) as [[n rest2]|] eqn:Hhex; [|discriminate].
      intros Heq. apply IH in Heq. apply hex4_length in Hhex. simpl. lia. }
  destruct (nat_of_ascii c <? 32)%nat; [discriminate|].
  intros Heq. apply IH in Heq. simpl. lia.
Qed.

Lemma string_literal_length (cs : list ascii) (s : string) (rest : list ascii) :
  string_literal cs = Some (s, rest) -> (List.length rest < List.length cs)%nat.
Proof.
  unfold string_literal. destruct cs as [|c cs]; [discriminate|].
  destruct (Ascii.eqb c dquote); [|discriminate].
  intros Heq. apply string_body_length in Heq. simpl. lia.
Qed.

Lemma digits_length (cs : list ascii) :
  forall (acc : N) (count : nat),
    (List.length (snd (digits cs acc count)) <= List.length cs)%nat.
Proof.
  induction cs as [|c cs IH]; intros acc count; simpl; [lia|].
  destruct (digit_of c); simpl; [|lia].
  specialize (IH (acc * 10 + n)%N (S count)). lia.
Qed.

Lemma int_part_length (cs rest : list ascii) (n : N) :
  int_part cs = Some (n, rest) -> (List.length rest < List.length cs)%nat.
Proof.
  unfold int_part. destruct cs as [|c cs]; [discriminate|].
  destruct (digit_of c) as [d|] eqn:Hd; [|discriminate].
  destruct d as [|p].
  - intros Heq; inversion Heq; subst. simpl. lia.
  - pose proof (digits_length (c :: cs) 0 0) as Hlen.
    simpl in Hlen |- *. rewrite Hd in Hlen |- *.
    pose proof (digits_length cs (0 * 10 + N.pos p) 1) as Hlen'.
    destruct (digits cs (0 * 10 + N.pos p) 1) as [[m k] rest'].
    intros Heq; inversion Heq; subst. simpl in *. lia.
Qed.

Lemma frac_part_length (cs rest : list ascii) (n : N) (k : nat) :
  frac_part cs = Some (n, k, rest) -> (List.length rest <= List.length cs)%nat.
Proof.
  unfold frac_part. destruct cs as [|c cs].
  - intros Heq; inversion Heq; subst; lia.
  - destruct (Ascii.eqb c "."%char).
    + pose proof (digits_length cs 0 0) as Hlen.
      destruct (digits cs 0 0) as [[m j] rest'].
      destruct j; [discriminate|].
      intros Heq; inversion Heq; subst. simpl in *. lia.
    + intros Heq; inversion Heq; subst; lia.
Qed.

Lemma exp_digits_length (neg : bool) (cs rest : list ascii) (e : Z) :
  exp_digits neg cs = Some (e, rest) -> (List.length rest <= List.length cs)%nat.
Proof.
  unfold exp_digits. pose proof (digits_length cs 0 0) as Hlen.
  destruct (digits cs 0 0) as [[m j] rest'].
  destruct j; [discriminate|].
  intros Heq; inversion Heq; subst. simpl in *. lia.
Qed.

Lemma exp_part_length (cs rest : list ascii) (e : Z) :
  exp_part cs = Some (e, rest) -> (List.length rest <= List.length cs)%nat.
Proof.
  unfold exp_part. destruct cs as [|c cs].
  - intros Heq; inversion Heq; subst; lia.
  - destruct (Ascii.eqb c "e"%char || Ascii.eqb c "E"%char).
    + destruct cs as [|sign cs]; [discriminate|].
      destruct (Ascii.eqb sign "-"%char);
        [|destruct (Ascii.eqb sign "+"%char)];
        intros Heq; apply exp_digits_length in Heq; simpl in *; lia.
    + intros Heq; inversion Heq; subst; lia.
Qed.

Lemma number_length (cs rest : list ascii) (q : Q) :
  number cs = Some (q, rest) -> (List.length rest < List.length cs)%nat.
Proof.
  unfold number, sign_part.
  assert (Hcore : forall neg cs1,
             (List.length cs1 <= List.length cs)%nat ->
             match int_part cs1 with
             | Some (i, cs2) =>
                 match frac_part cs2 with
                 | Some (f, k, cs3) =>
                     match exp_part cs3 with
                     | Some (e, cs4) => Some (decimal neg i f k e, cs4)
                     | None => None
                     end
                 | None => None
                 end
             | None => None
             end = Some (q, rest) -> (List.length rest < List.length cs)%nat).
  { intros neg cs1 Hle.
    destruct (int_part cs1) as [[i cs2]|] eqn:Hi; [|discriminate].
    destruct (frac_part cs2) as [[[f k] cs3]|] eqn:Hf; [|discriminate].
    destruct (exp_part cs3) as [[e cs4]|] eqn:He; [|discriminate].
    intros Heq; inversion Heq; subst.
    apply int_part_length in Hi. apply frac_part_length in Hf.
    apply exp_part_length in He. lia. }
  destruct cs as [|c cs']; [apply (Hcore false []); lia|].
  destruct (Ascii.eqb c "-"%char).
  - apply Hcore. simpl. lia.
  - apply Hcore. lia.
Qed.

Lemma scalar_length (cs rest : list ascii) (v : jsval) :
  scalar cs = Some (v, rest) -> (List.length rest < List.length cs)%nat.
Proof.
  unfold scalar.
  destruct (strip _ cs) as [r|] eqn:Hnull.
  { intros Heq; inversion Heq; subst. apply strip_length in Hnull. simpl in Hnull. lia. }
  destruct (strip (list_ascii_of_string "true") cs) as [r|] eqn:Htrue.
  { intros Heq; inversion Heq; subst. apply strip_length in Htrue. simpl in Htrue. lia. }
  destruct (strip (list_ascii_of_string "false") cs) as [r|] eqn:Hfalse.
  { intros Heq; inversion Heq; subst. apply strip_length in Hfalse. simpl in Hfalse. lia. }
  destruct (string_literal cs) as [[s r]|] eqn:Hstr.
  { intros Heq; inversion Heq; subst. now apply string_literal_length in Hstr. }
  destruct cs as [|c cs']; [discriminate|].
  destruct (Ascii.eqb c dquote); [discriminate|].
  destruct (number (c :: cs')) as [[q r]|] eqn:Hnum; [|discriminate].
  intros Heq; inversion Heq; subst. now apply number_length in Hnum.
Qed.

(** A parse that succeeds with some fuel consumes at least one character and
    succeeds, with the same result, with any fuel of at least twice the
    number of characters it consumed. *)
Definition enough (cs rest : list ascii) (F : nat) : Prop :=
  (2 * (List.length cs - List.length rest) <= F)%nat.

Lemma fuel_enough (f : nat) :
  (forall cs v rest,
      value f cs = Some (v, rest) ->
      (List.length rest < List.length cs)%nat
      /\ forall F, enough cs rest F -> value F cs = Some (v, rest))
  /\ (forall cs acc v rest,
        elements f cs acc = Some (v, rest) ->
        (List.length rest < List.length cs)%nat
        /\ forall F, enough cs rest F -> elements F cs acc = Some (v, rest))
  /\ (forall cs acc v rest,
        members f cs acc = Some (v, rest) ->
        (List.length rest < List.length cs)%nat
        /\ forall F, enough cs rest F -> members F cs acc = Some (v, rest)).
Proof.
  unfold enough.
  induction f as [|f (IHv & IHe & IHm)]; [repeat split; discriminate|].
  split; [|split].
  - intros cs v rest. rewrite value_S.
    pose proof (skip_ws_length cs) as Hws.
    destruct (expect "["%char cs) as [r1|] eqn:Hopen.
    { apply expect_length in Hopen as Hlen1.
      destruct (expect "]"%char r1) as [r2|] eqn:Hclose.
      - apply expect_length in Hclose as Hlen2.
        intros Heq; inversion Heq; subst. split; [lia|].
        intros [|F] HF; [lia|]. rewrite value_S, Hopen, Hclose. reflexivity.
      - intros Hel. destruct (IHe _ _ _ _ Hel) as [Hlen Hfuel].
        split; [lia|].
        intros [|F] HF; [lia|]. rewrite value_S, Hopen, Hclose.
        apply Hfuel. lia. }
    destruct (expect "{"%char cs) as [r1|] eqn:Hbrace.
    { apply expect_length in Hbrace as Hlen1.
      destruct (expect "}"%char r1) as [r2|] eqn:Hclose.
      - apply expect_length in Hclose as Hlen2.
        intros Heq; inversion Heq; subst. split; [lia|].
        intros [|F] HF; [lia|]. rewrite value_S, Hopen, Hbrace, Hclose. reflexivity.
      - intros Hmem. destruct (IHm _ _ _ _ Hmem) as [Hlen Hfuel].
        split; [lia|].
        intros [|F] HF; [lia|]. rewrite value_S, Hopen, Hbrace, Hclose.
        apply Hfuel. lia. }
    intros Hsc. apply scalar_length in Hsc as Hlen.
    split; [lia|].
    intros [|F] HF; [lia|]. rewrite value_S, Hopen, Hbrace. exact Hsc.
  - intros cs acc v rest. rewrite elements_S.
    destruct (value f cs) as [[v1 r1]|] eqn:Hval; [|discriminate].
    destruct (IHv _ _ _ Hval) as [Hlen1 Hfuel1].
    destruct (expect ","%char r1) as [r2|] eqn:Hcomma.
    { apply expect_length in Hcomma as Hlen2.
      intros Hel. destruct (IHe _ _ _ _ Hel) as [Hlen Hfuel].
      split; [lia|].
      intros [|F] HF; [lia|]. rewrite elements_S.
      rewrite (Hfuel1 F) by lia. rewrite Hcomma. apply Hfuel. lia. }
    destruct (expect "]"%char r1) as [r2|] eqn:Hclose; [|discriminate].
    apply expect_length in Hclose as Hlen2.
    intros Heq; inversion Heq; subst. split; [lia|].
    intros [|F] HF; [lia|]. rewrite elements_S.
    rewrite (Hfuel1 F) by lia. rewrite Hcomma, Hclose. reflexivity.
  - intros cs acc v rest. rewrite members_S.
    pose proof (skip_ws_length cs) as Hws.
    destruct (string_literal (skip_ws cs)) as [[k r1]|] eqn:Hkey; [|discriminate].
    apply string_literal_length in Hkey as Hlen0.
    destruct (expect ":"%char r1) as [r2|] eqn:Hcolon; [|discriminate].
    apply expect_length in Hcolon as Hlenc.
    destruct (value f r2) as [[v1 r3]|] eqn:Hval; [|discriminate].
    destruct (IHv _ _ _ Hval) as [Hlen1 Hfuel1].
    destruct (expect ","%char r3) as [r4|] eqn:Hcomma.
    { apply expect_length in Hcomma as Hlen2.
      intros Hmem. destruct (IHm _ _ _ _ Hmem) as [Hlen Hfuel].
      split; [lia|].
      intros [|F] HF; [lia|]. rewrite members_S, Hkey, Hcolon.
      rewrite (Hfuel1 F) by lia. rewrite Hcomma. apply Hfuel. lia. }
    destruct (expect "}"%char r3) as [r4|] eqn:Hclose; [|discriminate].
    apply expect_length in Hclose as Hlen2.
    intros Heq; inversion Heq; subst. split; [lia|].
    intros [|F] HF; [lia|]. rewrite members_S, Hkey, Hcolon.
    rewrite (Hfuel1 F) by lia. rewrite Hcomma, Hclose. reflexivity.
Qed.

(** The fuel [parse] gives is enough: a value found with any fuel is found
    with it, so [parse] fails only on a text that is not JSON. *)
Theorem value_fuel_enough (fuel : nat) (cs : list ascii) (v : jsval) (rest : list ascii) :
  value fuel cs = Some (v, rest) ->
  value (2 * List.length cs + 2) cs = Some (v, rest).
Proof.
  intros Hval. destruct (fuel_enough fuel) as (Hv & _ & _).
  destruct (Hv _ _ _ Hval) as [Hlen Hfuel].
  apply Hfuel. unfold enough. lia.
Qed.

(** Likewise for a string literal: one unit of fuel for each character and
    one more is enough. *)
Lemma string_body_fuel_enough (f : nat) :
  forall (cs acc : list ascii) (r : string * list ascii) (F : nat),
    string_body f cs acc = Some r ->
    (List.length cs < F)%nat ->
    string_body F cs acc = Some r.
Proof.
  induction f as [|f IH]; intros cs acc r F; simpl; [discriminate|].
  destruct cs as [|c cs]; [discriminate|].
  intros Hbody HF. destruct F as [|F]; [lia|]. simpl in HF |- *.
  destruct (Ascii.eqb c dquote); [exact Hbody|].
  destruct (Ascii.eqb c "\"%char).
  { destruct cs as [|e cs]; [discriminate|].
    destruct (unescape e).
    - apply (IH _ _ _ _ Hbody). simpl in HF. lia.
    - destruct (Ascii.eqb e "u"%char); [|discriminate].
      destruct (hex4 cs) as [[n rest2]|] eqn:Hhex; [|discriminate].
      apply hex4_length in Hhex.
      apply (IH _ _ _ _ Hbody). simpl in HF. lia. }
  destruct (nat_of_ascii c <? 32)%nat; [discriminate|].
  apply (IH _ _ _ _ Hbody). lia.
Qed.

End JSONFacts.

(** ** The suffix of an id is made of base-36 digits *)

Lemma digit_base36 (d : Z) : (0 <= d < 36)%Z -> is_base36 (Radix36.digit d) = true.
Proof.
  intros [H0 H36]. rewrite <- (Z2Nat.id d H0).
  assert (Hn : (Z.to_nat d < 36)%nat) by lia.
  generalize dependent (Z.to_nat d). intros n Hn.
  do 36 (destruct n as [|n]; [reflexivity|]). lia.
Qed.

Lemma fraction_base36 (fuel : nat) :
  forall (num : Z) (den : positive),
    (0 <= num < Zpos den)%Z ->
    all_chars is_base36 (Radix36.fraction fuel num den) = true.
Proof.
  induction fuel as [|fuel IH]; intros num den Hnum; simpl; [reflexivity|].
  destruct (num =? 0)%Z; [reflexivity|]. simpl.
  rewrite digit_base36, IH; [reflexivity| |].
  - apply Z.mod_pos_bound. lia.
  - split; [apply Z.div_pos; lia|].
    apply Z.div_lt_upper_bound; lia.
Qed.

Lemma substring_all_chars (p : ascii -> bool) (s : string) :
  forall n m : nat,
    all_chars p s = true -> all_chars p (String.substring n m s) = true.
Proof.
  induction s as [|c s IH]; intros n m Hs.
  - destruct n, m; reflexivity.
  - simpl in Hs. apply andb_true_iff in Hs as [Hc Hrest].
    destruct n as [|n].
    + destruct m as [|m]; simpl; [reflexivity|].
      now rewrite Hc, IH.
    + simpl. now apply IH.
Qed.

(** For every random value in [0, 1) the suffix consists of base-36 digits. *)
Lemma generated_suffix_base36 (r : Q) :
  (0 <= Qnum r < Zpos (Qden r))%Z ->
  all_chars is_base36 (ObjectFactory.substr 2 9 (Radix36.toString r)) = true.
Proof.
  intros Hr. unfold Radix36.toString, ObjectFactory.substr.
  destruct (Qnum r =? 0)%Z; [reflexivity|].
  change (all_chars is_base36
            (String.substring 0 9 (Radix36.fraction 52 (Qnum r) (Qden r))) = true).
  apply substring_all_chars, fraction_base36, Hr.
Qed.

(* ===================================================================== *)
(** * The rest of the editor *)
(* ===================================================================== *)

(** ** The serializer, step by step *)

Lemma nth_error_is_lookup {A} (l : list A) (i : nat) : nth_error l i = l !! i.
Proof. revert i; induction l as [|a l IH]; intros [|i]; simpl; auto. Qed.

(** What [add] leaves when no command is running: the new command is the
    last one and the index points at it. *)
Lemma UndoManager_add_spec {C} (command : C) (m : UndoManager.t C) :
  UndoManager.isExecuting m = false ->
  let m' := UndoManager.add command m in
  UndoManager.index m' = (Z.of_nat (List.length (UndoManager.commands m')) - 1)%Z
  /\ (1 <= List.length (UndoManager.commands m'))%nat
  /\ UndoManager.at_index m' (UndoManager.index m') = Some command
  /\ UndoManager.limit m' = UndoManager.limit m
  /\ UndoManager.isExecuting m' = false
  /\ ((0 < UndoManager.limit m)%nat ->
      (List.length (UndoManager.commands m') <= UndoManager.limit m)%nat).
Proof.
  intros Hex. unfold UndoManager.add. rewrite Hex.
  set (kept := firstn _ _ ++ [command]).
  assert (Hlen : (1 <= List.length kept)%nat).
  { subst kept. rewrite length_app. simpl. lia. }
  assert (Hlast : kept !! (List.length kept - 1)%nat = Some command).
  { subst kept. rewrite length_app. simpl.
    rewrite lookup_app_r by lia.
    replace (_ + 1 - 1 - _)%nat with 0%nat by lia. reflexivity. }
  destruct (negb (UndoManager.limit m =? 0)%nat
            && (UndoManager.limit m <? List.length kept)%nat) eqn:Hcut;
    cbn [UndoManager.index UndoManager.commands UndoManager.limit
         UndoManager.isExecuting].
  - apply andb_true_iff in Hcut as [Hpos Hlt].
    apply negb_true_iff, Nat.eqb_neq in Hpos. apply Nat.ltb_lt in Hlt.
    rewrite length_drop.
    split; [reflexivity|]. split; [lia|].
    split.
    { unfold UndoManager.at_index; cbn [UndoManager.commands].
      destruct (Z.ltb_spec (Z.of_nat (List.length kept
                  - (List.length kept - UndoManager.limit m)) - 1) 0); [lia|].
      rewrite nth_error_is_lookup, lookup_drop, <- Hlast. f_equal. lia. }
    split; [reflexivity|]. split; [reflexivity|]. lia.
  - split; [reflexivity|]. split; [lia|].
    split.
    { unfold UndoManager.at_index; cbn [UndoManager.commands].
      destruct (Z.ltb_spec (Z.of_nat (List.length kept) - 1) 0); [lia|].
      rewrite nth_error_is_lookup, <- Hlast. f_equal. lia. }
    split; [reflexivity|]. split; [reflexivity|].
    intros Hpos. apply andb_false_iff in Hcut as [Hz|Hlt].
    + apply negb_false_iff, Nat.eqb_eq in Hz. lia.
    + apply Nat.ltb_ge in Hlt. lia.
Qed.

Lemma at_index_in_range {C} (m : UndoManager.t C) (i : Z) (c : C) :
  UndoManager.at_index m i = Some c ->
  (0 <= i < Z.of_nat (List.length (UndoManager.commands m)))%Z.
Proof.
  unfold UndoManager.at_index. destruct (Z.ltb_spec i 0); [discriminate|].
  intros Hnth. assert (Hlt : (Z.to_nat i < List.length (UndoManager.commands m))%nat).
  { apply nth_error_Some. congruence. }
  lia.
Qed.

Section SerializerSteps.

Variable W : Type.
Variable loadSceneCallback : option (jsval -> W -> outcome unit * W).
Variable decompose : THREE.Mesh -> THREE.Vector3 * THREE.Vector3 * THREE.Vector3.


Lemma serializer_undo_step (s : SceneSerializer.t) (w w' : W)
    (command : SceneSerializer.Entry) :
  let m := SceneSerializer.undoManager s in
  UndoManager.at_index m (UndoManager.index m) = Some command ->
  SceneSerializer.invoke_callback W loadSceneCallback
    (SceneSerializer.prevState command) w = (Ok tt, w') ->
  exists s',
    SceneSerializer.undo W loadSceneCallback s w
    = (Ok (SceneSerializer.prevState command), s', w')
    /\ SceneSerializer.lastState s' = SceneSerializer.prevState command
    /\ UndoManager.commands (SceneSerializer.undoManager s') = UndoManager.commands m
    /\ UndoManager.index (SceneSerializer.undoManager s') = (UndoManager.index m - 1)%Z
    /\ UndoManager.limit (SceneSerializer.undoManager s') = UndoManager.limit m
    /\ UndoManager.isExecuting (SceneSerializer.undoManager s') = false.
Proof.
  intros m Hat Hcb.
  pose proof (at_index_in_range _ _ _ Hat) as Hrange.
  unfold SceneSerializer.undo, SceneSerializer.canUndo, UndoManager.hasUndo.
  fold m. destruct (Z.eqb_spec (UndoManager.index m) (-1)); [lia|]. cbn [negb].
  unfold SceneSerializer.manager_undo, SceneSerializer.restore. fold m.
  rewrite Hat, Hcb. cbn.
  eexists. repeat split.
Qed.

Lemma serializer_redo_step (s : SceneSerializer.t) (w w' : W)
    (command : SceneSerializer.Entry) :
  let m := SceneSerializer.undoManager s in
  UndoManager.at_index m (UndoManager.index m + 1) = Some command ->
  SceneSerializer.invoke_callback W loadSceneCallback
    (SceneSerializer.currState command) w = (Ok tt, w') ->
  exists s',
    SceneSerializer.redo W loadSceneCallback s w
    = (Ok (SceneSerializer.currState command), s', w')
    /\ SceneSerializer.lastState s' = SceneSerializer.currState command
    /\ UndoManager.commands (SceneSerializer.undoManager s') = UndoManager.commands m
    /\ UndoManager.index (SceneSerializer.undoManager s') = (UndoManager.index m + 1)%Z
    /\ UndoManager.limit (SceneSerializer.undoManager s') = UndoManager.limit m
    /\ UndoManager.isExecuting (SceneSerializer.undoManager s') = false.
Proof.
  intros m Hat Hcb.
  pose proof (at_index_in_range _ _ _ Hat) as Hrange.
  unfold SceneSerializer.redo, SceneSerializer.canRedo, UndoManager.hasRedo.
  fold m.
  destruct (Z.ltb_spec (UndoManager.index m)
              (Z.of_nat (List.length (UndoManager.commands m)) - 1)); [|lia].
  cbn [negb].
  unfold SceneSerializer.manager_redo, SceneSerializer.restore. fold m.
  rewrite Hat, Hcb. cbn.
  eexists. repeat split.
Qed.



End SerializerSteps.

(** ** Sessions *)

Section SessionFacts.

Variable W : Type.
Variable loadSceneCallback : option (jsval -> W -> outcome unit * W).
Variable decompose : THREE.Mesh -> THREE.Vector3 * THREE.Vector3 * THREE.Vector3.

Lemma session_invariant_saveState (n : nat) (objects : list EditorObject)
    (s : SceneSerializer.t) :
  session_invariant n s ->
  session_invariant n (snd (SceneSerializer.saveState decompose objects s)).
Proof.
  intros (Hwf & Hb & Hlim).
  split; [now apply history_wf_saveState|].
  unfold history_bounded, SceneSerializer.saveState in *.
  destruct (JS.bind _ _) as [newState|]; [|now split].
  destruct (UndoManager.isExecuting (SceneSerializer.undoManager s)) eqn:Hex.
  - assert (Hadd : forall c, UndoManager.add c (SceneSerializer.undoManager s)
                             = SceneSerializer.undoManager s).
    { intros c. unfold UndoManager.add. now rewrite Hex. }
    destruct (SceneSerializer.lastState s);
      cbn [snd SceneSerializer.undoManager SceneSerializer.dispatchStateChanged
           SceneSerializer.with_lastState SceneSerializer.with_manager];
      rewrite ?Hadd; now split.
  - assert (Hadd : forall c,
               let m' := UndoManager.add c (SceneSerializer.undoManager s) in
               ((0 < UndoManager.limit m')%nat ->
                (List.length (UndoManager.commands m') <= UndoManager.limit m')%nat)
               /\ UndoManager.limit m' = n).
    { intros c. destruct (UndoManager_add_spec c _ Hex) as (_ & _ & _ & Hl & _ & Hbd).
      cbn zeta. rewrite Hl. split; [exact Hbd|exact Hlim]. }
    destruct (SceneSerializer.lastState s);
      cbn [snd SceneSerializer.undoManager SceneSerializer.dispatchStateChanged
           SceneSerializer.with_lastState SceneSerializer.with_manager];
      first [now split | apply Hadd].
Qed.

Lemma session_invariant_undo (n : nat) (s : SceneSerializer.t) (w : W) :
  session_invariant n s ->
  session_invariant n (snd (fst (SceneSerializer.undo W loadSceneCallback s w))).
Proof.
  intros (Hwf & Hb & Hlim).
  split; [now apply history_wf_undo|].
  unfold history_bounded in *. unfold SceneSerializer.undo.
  destruct (SceneSerializer.canUndo s); cbn [negb]; [|now split].
  unfold SceneSerializer.manager_undo, SceneSerializer.restore.
  destruct (UndoManager.at_index _ _); [|now split].
  destruct (SceneSerializer.invoke_callback W loadSceneCallback _ w) as [[u|err] w'];
    cbn; now split.
Qed.

Lemma session_invariant_redo (n : nat) (s : SceneSerializer.t) (w : W) :
  session_invariant n s ->
  session_invariant n (snd (fst (SceneSerializer.redo W loadSceneCallback s w))).
Proof.
  intros (Hwf & Hb & Hlim).
  split; [now apply history_wf_redo|].
  unfold history_bounded in *. unfold SceneSerializer.redo.
  destruct (SceneSerializer.canRedo s); cbn [negb]; [|now split].
  unfold SceneSerializer.manager_redo, SceneSerializer.restore.
  destruct (UndoManager.at_index _ _); [|now split].
  destruct (SceneSerializer.invoke_callback W loadSceneCallback _ w) as [[u|err] w'];
    cbn; now split.
Qed.

Lemma session_invariant_step (n : nat) (c : Session.call) (s : SceneSerializer.t) (w : W) :
  session_invariant n s ->
  session_invariant n (fst (Session.step W loadSceneCallback decompose c s w)).
Proof.
  intros Hinv. destruct c as [objects| | |]; cbn [Session.step].
  - now apply session_invariant_saveState.
  - pose proof (session_invariant_undo n s w Hinv) as H.
    now destruct (SceneSerializer.undo W loadSceneCallback s w) as [[r s'] w'].
  - pose proof (session_invariant_redo n s w Hinv) as H.
    now destruct (SceneSerializer.redo W loadSceneCallback s w) as [[r s'] w'].
  - destruct Hinv as (_ & _ & Hlim).
    split; [unfold history_wf; cbn; lia|].
    split; [unfold history_bounded; cbn; lia|exact Hlim].
Qed.

(** X2.  Whatever calls are made on a new serializer -- [saveState] of any
    objects, [undo], [redo], [clearHistory], in any order and whether or
    not they throw -- the index of the history stays within its commands
    and the history never holds more than [maxHistorySize] commands. *)
Theorem session_history_within_limit :
  forall (maxHistorySize : nat) (calls : list Session.call) (w : W),
    let s := fst (Session.run W loadSceneCallback decompose calls
                    (SceneSerializer.create maxHistorySize) w) in
    let m := SceneSerializer.undoManager s in
    (-1 <= UndoManager.index m < Z.of_nat (List.length (UndoManager.commands m)))%Z
    /\ ((0 < maxHistorySize)%nat ->
        (List.length (UndoManager.commands m) <= maxHistorySize)%nat).
Proof.
  intros n calls w.
  assert (Hgen : forall s w, session_invariant n s ->
             session_invariant n
               (fst (Session.run W loadSceneCallback decompose calls s w))).
  { induction calls as [|c rest IH]; intros s0 w0 Hinv; cbn [Session.run]; [exact Hinv|].
    pose proof (session_invariant_step n c s0 w0 Hinv) as Hstep.
    destruct (Session.step W loadSceneCallback decompose c s0 w0) as [s1 w1].
    now apply IH. }
  assert (Hinit : session_invariant n (SceneSerializer.create n)).
  { split; [unfold history_wf; cbn; lia|].
    split; [unfold history_bounded; cbn; lia|reflexivity]. }
  destruct (Hgen _ w Hinit) as (Hwf & Hb & Hlim).
  cbn zeta. split; [exact Hwf|].
  unfold history_bounded in Hb. rewrite Hlim in Hb. exact Hb.
Qed.

End SessionFacts.

Section UndoRedo.

Variable W : Type.
Variable loadSceneCallback : option (jsval -> W -> outcome unit * W).
Variable decompose : THREE.Mesh -> THREE.Vector3 * THREE.Vector3 * THREE.Vector3.

(** X3.  [undo()] followed by [redo()], when the restore callback succeeds
    both times: the history is as it was before the two calls (same
    commands, same index), [redo] is available in between, and the state
    restored last, which is also [lastState], is the later snapshot of the
    step. *)
Theorem undo_then_redo_restores_history (s : SceneSerializer.t) (w w1 w2 : W)
    (command : SceneSerializer.Entry) :
  let m := SceneSerializer.undoManager s in
  UndoManager.at_index m (UndoManager.index m) = Some command ->
  UndoManager.isExecuting m = false ->
  SceneSerializer.invoke_callback W loadSceneCallback
    (SceneSerializer.prevState command) w = (Ok tt, w1) ->
  SceneSerializer.invoke_callback W loadSceneCallback
    (SceneSerializer.currState command) w1 = (Ok tt, w2) ->
  exists s1 s2,
    SceneSerializer.undo W loadSceneCallback s w
    = (Ok (SceneSerializer.prevState command), s1, w1)
    /\ SceneSerializer.canRedo s1 = true
    /\ SceneSerializer.redo W loadSceneCallback s1 w1
       = (Ok (SceneSerializer.currState command), s2, w2)
    /\ SceneSerializer.undoManager s2 = m
    /\ SceneSerializer.lastState s2 = SceneSerializer.currState command.
Proof.
  intros m Hat Hex Hcb1 Hcb2.
  pose proof (at_index_in_range _ _ _ Hat) as Hrange.
  destruct (serializer_undo_step W loadSceneCallback s w w1 command Hat Hcb1)
    as (s1 & Hundo & Hlast1 & Hcmds1 & Hidx1 & Hlim1 & Hex1).
  assert (Hat1 : UndoManager.at_index (SceneSerializer.undoManager s1)
                   (UndoManager.index (SceneSerializer.undoManager s1) + 1)
                 = Some command).
  { unfold UndoManager.at_index in *. rewrite Hcmds1, Hidx1.
    replace (UndoManager.index (SceneSerializer.undoManager s) - 1 + 1)%Z
      with (UndoManager.index (SceneSerializer.undoManager s)) by lia.
    exact Hat. }
  destruct (serializer_redo_step W loadSceneCallback s1 w1 w2 command Hat1 Hcb2)
    as (s2 & Hredo & Hlast2 & Hcmds2 & Hidx2 & Hlim2 & Hex2).
  exists s1, s2. split; [exact Hundo|]. split.
  { unfold SceneSerializer.canRedo, UndoManager.hasRedo.
    rewrite Hcmds1, Hidx1. apply Z.ltb_lt. fold m. lia. }
  split; [exact Hredo|]. split; [|exact Hlast2].
  destruct (SceneSerializer.undoManager s2) as [c2 i2 l2 e2].
  subst m. destruct (SceneSerializer.undoManager s) as [c0 i0 l0 e0].
  cbn in *. subst. f_equal. lia.
Qed.

(** X4.  When the restore callback throws during [undo()], the exception
    reaches the caller, [lastState] and the index are unchanged, and the
    undo manager is left executing: from then on [saveState] records
    nothing, whatever the objects. *)
Theorem failed_undo_stops_recording (s : SceneSerializer.t) (w w1 : W)
    (command : SceneSerializer.Entry) (err : exn) :
  let m := SceneSerializer.undoManager s in
  UndoManager.at_index m (UndoManager.index m) = Some command ->
  SceneSerializer.invoke_callback W loadSceneCallback
    (SceneSerializer.prevState command) w = (Throw err, w1) ->
  exists s1,
    SceneSerializer.undo W loadSceneCallback s w = (Throw err, s1, w1)
    /\ SceneSerializer.lastState s1 = SceneSerializer.lastState s
    /\ UndoManager.index (SceneSerializer.undoManager s1) = UndoManager.index m
    /\ UndoManager.commands (SceneSerializer.undoManager s1) = UndoManager.commands m
    /\ forall objects : list EditorObject,
         SceneSerializer.undoManager
           (snd (SceneSerializer.saveState decompose objects s1))
         = SceneSerializer.undoManager s1.
Proof.
  intros m Hat Hcb.
  pose proof (at_index_in_range _ _ _ Hat) as Hrange.
  unfold SceneSerializer.undo, SceneSerializer.canUndo, UndoManager.hasUndo.
  fold m. destruct (Z.eqb_spec (UndoManager.index m) (-1)); [lia|]. cbn [negb].
  unfold SceneSerializer.manager_undo, SceneSerializer.restore. fold m.
  rewrite Hat, Hcb.
  eexists. split; [reflexivity|]. repeat split.
  intros objects. unfold SceneSerializer.saveState.
  destruct (JS.bind _ _) as [newState|]; [|reflexivity].
  cbn [SceneSerializer.lastState SceneSerializer.with_manager].
  destruct (SceneSerializer.lastState s); reflexivity.
Qed.

End UndoRedo.



Lemma is_json_not_undefined (v : jsval) : is_json v = true -> v <> VUndefined.
Proof. intros Hv ->. discriminate. Qed.

Lemma deepClone_json (v : jsval) : is_json v = true -> DeepCopy.deepClone v = Ok v.
Proof.
  intros Hv. unfold DeepCopy.deepClone. rewrite (copy_json _ Hv).
  destruct v; try reflexivity. discriminate.
Qed.


Lemma plain_restorable
    (decompose : THREE.Mesh -> THREE.Vector3 * THREE.Vector3 * THREE.Vector3)
    (objects : list EditorObject) :
  Forall (plain decompose) objects -> Forall restorable objects.
Proof. intros Hplain. eapply Forall_impl; [exact Hplain|]. now intros o (Ho & _). Qed.

Lemma plain_string_ids
    (decompose : THREE.Mesh -> THREE.Vector3 * THREE.Vector3 * THREE.Vector3)
    (objects : list EditorObject) :
  Forall (plain decompose) objects ->
  Forall (fun o => exists s, id o = VStr s) objects.
Proof. intros Hplain. eapply Forall_impl; [exact Hplain|]. now intros o (_ & Hs & _). Qed.

Section Snapshots.

Variable decompose : THREE.Mesh -> THREE.Vector3 * THREE.Vector3 * THREE.Vector3.




Lemma snapshot_serializable (objects : list EditorObject) :
  Forall (fun o => data o <> VUndefined) objects ->
  exists snapshot, snapshot_of decompose objects = Ok snapshot.
Proof.
  intros Hall.
  assert (Hvs : exists vs, SceneSerializer.serializeAll decompose objects = Ok vs).
  { induction Hall as [|o rest Ho _ (vs & Hvs)]; [exists []; reflexivity|].
    cbn. unfold SceneSerializer.serializeObject.
    destruct (decompose (mesh o)) as [[p r] s].
    unfold DeepCopy.deepClone. destruct (data o) eqn:Hd; try contradiction;
      cbn [JS.bind]; rewrite Hvs; cbn [JS.bind]; eexists; reflexivity. }
  destruct Hvs as (vs & Hvs).
  unfold snapshot_of, SceneSerializer.serializeObjects. rewrite Hvs.
  eexists; reflexivity.
Qed.

Lemma saveState_baseline (objects : list EditorObject) (s : SceneSerializer.t)
    (snapshot : jsval) :
  snapshot_of decompose objects = Ok snapshot ->
  exists s',
    SceneSerializer.saveState decompose objects s = (Ok tt, s')
    /\ SceneSerializer.lastState s' = snapshot
    /\ UndoManager.isExecuting (SceneSerializer.undoManager s')
       = UndoManager.isExecuting (SceneSerializer.undoManager s).
Proof.
  intros Hsnap. unfold SceneSerializer.saveState.
  unfold snapshot_of in Hsnap. rewrite Hsnap.
  eexists; split; [reflexivity|]. split; [reflexivity|].
  assert (Hadd : forall c,
             UndoManager.isExecuting (UndoManager.add c (SceneSerializer.undoManager s))
             = UndoManager.isExecuting (SceneSerializer.undoManager s)).
  { intros c. unfold UndoManager.add.
    destruct (UndoManager.isExecuting (SceneSerializer.undoManager s)) eqn:Hex;
      [exact Hex|reflexivity]. }
  destruct (SceneSerializer.lastState s); cbn; try apply Hadd; reflexivity.
Qed.

End Snapshots.

Section EditorUndo.

Variable clock : nat -> N * string.
Variable sceneTree : bool.
Variable decompose : THREE.Mesh -> THREE.Vector3 * THREE.Vector3 * THREE.Vector3.




End EditorUndo.

(** ** Maps *)

Section MapFacts.

Context {K V : Type} `{EqDecision K}.

Lemma JSMap_get_set_same (m : list (K * V)) (k : K) (v : V) :
  JSMap.get (JSMap.set m k v) k = Some v.
Proof.
  induction m as [|[k' w] rest IH]; simpl.
  - now rewrite decide_True.
  - destruct (decide (k' = k)) as [Heq|Hne]; simpl.
    + now rewrite decide_True.
    + now rewrite decide_False.
Qed.

Lemma JSMap_get_set_other (m : list (K * V)) (k k' : K) (v : V) :
  k <> k' -> JSMap.get (JSMap.set m k v) k' = JSMap.get m k'.
Proof.
  intros Hne. induction m as [|[k0 w] rest IH]; simpl.
  - now rewrite decide_False.
  - destruct (decide (k0 = k)) as [Heq|Hne0]; simpl.
    + subst k0. now rewrite !decide_False.
    + now rewrite IH.
Qed.

Lemma JSMap_set_get (m : list (K * V)) (k : K) (v : V) :
  JSMap.get m k = Some v -> JSMap.set m k v = m.
Proof.
  induction m as [|[k' w] rest IH]; simpl; [discriminate|].
  destruct (decide (k' = k)) as [Heq|Hne].
  - now intros [= ->].
  - intros Hget. now rewrite IH.
Qed.

Lemma JSMap_set_set (m : list (K * V)) (k : K) (v v' : V) :
  JSMap.set (JSMap.set m k v) k v' = JSMap.set m k v'.
Proof.
  induction m as [|[k' w] rest IH]; simpl.
  - now rewrite decide_True.
  - destruct (decide (k' = k)) as [Heq|Hne]; simpl.
    + now rewrite decide_True.
    + now rewrite decide_False, IH.
Qed.

Lemma JSMap_delete_cons (k' k : K) (w : V) (rest : list (K * V)) :
  JSMap.delete ((k', w) :: rest) k
  = if decide (k' = k) then JSMap.delete rest k else (k', w) :: JSMap.delete rest k.
Proof.
  unfold JSMap.delete. cbn [List.filter fst].
  destruct (decide (k' = k)) as [Heq|Hne].
  - now rewrite bool_decide_eq_true_2.
  - now rewrite bool_decide_eq_false_2.
Qed.

Lemma JSMap_get_delete_same (m : list (K * V)) (k : K) :
  JSMap.get (JSMap.delete m k) k = None.
Proof.
  induction m as [|[k' w] rest IH]; [reflexivity|].
  rewrite JSMap_delete_cons.
  destruct (decide (k' = k)) as [Heq|Hne]; [exact IH|].
  simpl. now rewrite decide_False.
Qed.

Lemma JSMap_get_delete_other (m : list (K * V)) (k k' : K) :
  k <> k' -> JSMap.get (JSMap.delete m k) k' = JSMap.get m k'.
Proof.
  intros Hne. induction m as [|[k0 w] rest IH]; [reflexivity|].
  rewrite JSMap_delete_cons.
  destruct (decide (k0 = k)) as [Heq|Hne0]; simpl.
  - subst k0. now rewrite decide_False.
  - now rewrite IH.
Qed.

Lemma JSMap_delete_fresh (m : list (K * V)) (k : K) :
  JSMap.get m k = None -> JSMap.delete m k = m.
Proof.
  induction m as [|[k' w] rest IH]; [reflexivity|].
  rewrite JSMap_delete_cons. simpl.
  destruct (decide (k' = k)) as [Heq|Hne]; [discriminate|].
  intros Hget. now rewrite IH.
Qed.

Lemma JSMap_delete_set_fresh (m : list (K * V)) (k : K) (v : V) :
  JSMap.get m k = None -> JSMap.delete (JSMap.set m k v) k = m.
Proof.
  induction m as [|[k' w] rest IH]; cbn [JSMap.set JSMap.get].
  - intros _. rewrite JSMap_delete_cons. now rewrite decide_True.
  - destruct (decide (k' = k)) as [Heq|Hne]; [discriminate|].
    intros Hget. rewrite JSMap_delete_cons, decide_False by exact Hne.
    now rewrite IH.
Qed.

End MapFacts.

(** ** The event bus *)

Lemma listeners_on_same (event : string) (callback : EditorEvents.fn)
    (bus : EditorEvents.t) :
  EditorEvents.listeners (EditorEvents.on event callback bus) event
  = EditorEvents.listeners bus event ++ [callback].
Proof.
  unfold EditorEvents.on, EditorEvents.listeners, JSMap.has.
  rewrite JSMap_get_set_same. simpl.
  destruct (JSMap.get bus event) eqn:Hget; [now rewrite Hget|].
  now rewrite JSMap_get_set_same.
Qed.

Lemma listeners_on_other (event event' : string) (callback : EditorEvents.fn)
    (bus : EditorEvents.t) :
  event <> event' ->
  EditorEvents.listeners (EditorEvents.on event callback bus) event'
  = EditorEvents.listeners bus event'.
Proof.
  intros Hne. unfold EditorEvents.on, EditorEvents.listeners, JSMap.has.
  rewrite JSMap_get_set_other by exact Hne.
  destruct (JSMap.get bus event); [reflexivity|].
  now rewrite JSMap_get_set_other.
Qed.

Lemma listeners_off_same (event : string) (callback : EditorEvents.fn)
    (bus : EditorEvents.t) :
  EditorEvents.listeners (EditorEvents.off event callback bus) event
  = JSArray.remove_first callback (EditorEvents.listeners bus event).
Proof.
  unfold EditorEvents.off, EditorEvents.listeners.
  destruct (JSMap.get bus event) eqn:Hget.
  - now rewrite JSMap_get_set_same.
  - now rewrite Hget.
Qed.

Lemma listeners_off_other (event event' : string) (callback : EditorEvents.fn)
    (bus : EditorEvents.t) :
  event <> event' ->
  EditorEvents.listeners (EditorEvents.off event callback bus) event'
  = EditorEvents.listeners bus event'.
Proof.
  intros Hne. unfold EditorEvents.off, EditorEvents.listeners.
  destruct (JSMap.get bus event); [|reflexivity].
  now rewrite JSMap_get_set_other.
Qed.

Lemma remove_first_fresh (c : EditorEvents.fn) (l : list EditorEvents.fn) :
  ~ In c l -> JSArray.remove_first c (l ++ [c]) = l.
Proof.
  induction l as [|d l IH]; simpl; intros Hnot.
  - now rewrite decide_True.
  - rewrite decide_False by (intros ->; apply Hnot; now left).
    rewrite IH; [reflexivity|]. intros Hin; apply Hnot; now right.
Qed.

Lemma remove_first_middle (c : EditorEvents.fn) (pre post : list EditorEvents.fn) :
  ~ In c pre -> JSArray.remove_first c (pre ++ c :: post) = pre ++ post.
Proof.
  induction pre as [|d pre IH]; simpl; intros Hnot.
  - now rewrite decide_True.
  - rewrite decide_False by (intros ->; apply Hnot; now left).
    rewrite IH; [reflexivity|]. intros Hin; apply Hnot; now right.
Qed.

Section EmitFacts.

Variable W : Type.
Variable call : EditorEvents.fn -> jsval -> EditorEvents.t -> W
                -> outcome unit * EditorEvents.t * W.

(** Callbacks that leave the bus as it is. *)
Hypothesis call_keeps_bus :
  forall c data bus w, snd (fst (call c data bus w)) = bus.

Lemma emit_from_call_each (event : string) (data : jsval) (bus : EditorEvents.t) :
  forall (n k : nat) (w : W),
    EditorEvents.emit_from W call n k event data bus w
    = EditorEvents.call_each W call
        (take n (drop k (EditorEvents.listeners bus event))) data bus w.
Proof.
  induction n as [|n IH]; intros k w; simpl; [reflexivity|].
  destruct (EditorEvents.listeners bus event !! k) as [c|] eqn:Hk.
  - rewrite (drop_S _ _ _ Hk). simpl.
    pose proof (call_keeps_bus c data bus w) as Hbus.
    destruct (call c data bus w) as [[[u|e] bus'] w']; simpl in Hbus; subst bus';
      [apply IH|reflexivity].
  - rewrite IH. apply lookup_ge_None in Hk.
    rewrite !drop_ge by lia. now rewrite !take_nil.
Qed.

End EmitFacts.

Lemma listeners_get (bus : EditorEvents.t) (event : string) (c : EditorEvents.fn)
    (l : list EditorEvents.fn) :
  EditorEvents.listeners bus event = c :: l -> JSMap.get bus event = Some (c :: l).
Proof.
  unfold EditorEvents.listeners. destruct (JSMap.get bus event); simpl; congruence.
Qed.

(** X7.  [emit] calls the callbacks subscribed to the event, and only them,
    one after the other in the order in which they were subscribed, each with
    the data, and stops at the first that throws -- as long as the callbacks
    leave the subscriptions alone.  A callback subscribed with [on] comes
    after those subscribed before it. *)
Theorem emit_calls_listeners_in_order
    (W : Type)
    (call : EditorEvents.fn -> jsval -> EditorEvents.t -> W
            -> outcome unit * EditorEvents.t * W)
    (event : string) (data : jsval) (bus : EditorEvents.t) (w : W) :
  (forall c d b w0, snd (fst (call c d b w0)) = b) ->
  EditorEvents.emit W call event data bus w
  = EditorEvents.call_each W call (EditorEvents.listeners bus event) data bus w
  /\ forall callback : EditorEvents.fn,
       EditorEvents.emit W call event data (EditorEvents.on event callback bus) w
       = EditorEvents.call_each W call
           (EditorEvents.listeners bus event ++ [callback]) data
           (EditorEvents.on event callback bus) w.
Proof.
  intros Hkeep.
  assert (Hemit : forall b,
             EditorEvents.emit W call event data b w
             = EditorEvents.call_each W call (EditorEvents.listeners b event) data b w).
  { intros b. unfold EditorEvents.emit, EditorEvents.listeners.
    destruct (JSMap.get b event) as [callbacks|] eqn:Hget; [|reflexivity].
    rewrite (emit_from_call_each W call Hkeep).
    unfold EditorEvents.listeners. rewrite Hget. simpl.
    now rewrite drop_0, firstn_all. }
  split; [apply Hemit|].
  intros callback. now rewrite Hemit, listeners_on_same.
Qed.

Lemma emit_from_add (W : Type)
    (call : EditorEvents.fn -> jsval -> EditorEvents.t -> W
            -> outcome unit * EditorEvents.t * W)
    (event : string) (data : jsval) :
  forall (n1 n2 k : nat) (bus : EditorEvents.t) (w : W),
    EditorEvents.emit_from W call (n1 + n2) k event data bus w
    = match EditorEvents.emit_from W call n1 k event data bus w with
      | (Throw e, bus', w') => (Throw e, bus', w')
      | (Ok _, bus', w') =>
          EditorEvents.emit_from W call n2 (k + n1) event data bus' w'
      end.
Proof.
  induction n1 as [|n1 IH]; intros n2 k bus w; simpl.
  - now rewrite Nat.add_0_r.
  - destruct (EditorEvents.listeners bus event !! k) as [c|].
    + destruct (call c data bus w) as [[[u|e] bus'] w']; [|reflexivity].
      rewrite IH. now replace (S k + n1)%nat with (k + S n1)%nat by lia.
    + rewrite IH. now replace (S k + n1)%nat with (k + S n1)%nat by lia.
Qed.

(** While the self-unsubscribing callback is not met, [emit] goes through
    the callbacks as they are. *)
Lemma emit_from_once_stable (event : string) (a : EditorEvents.fn) (data : jsval)
    (bus : EditorEvents.t) :
  forall (n k : nat) (log : list (EditorEvents.fn * jsval)),
    ~ In a (take n (drop k (EditorEvents.listeners bus event))) ->
    EditorEvents.emit_from _ (EditorEvents.once event a) n k event data bus log
    = (Ok tt, bus,
       log ++ map (fun c => (c, data))
                (take n (drop k (EditorEvents.listeners bus event)))).
Proof.
  induction n as [|n IH]; intros k log Hnot; simpl.
  - now rewrite app_nil_r.
  - destruct (EditorEvents.listeners bus event !! k) as [c|] eqn:Hk.
    + rewrite (drop_S _ _ _ Hk) in Hnot |- *. simpl in Hnot |- *.
      unfold EditorEvents.once at 1.
      rewrite decide_False by (intros ->; apply Hnot; now left).
      rewrite IH by (intros Hin; apply Hnot; now right).
      now rewrite <- app_assoc.
    + rewrite IH.
      * apply lookup_ge_None in Hk. rewrite !drop_ge by lia.
        now rewrite !take_nil.
      * apply lookup_ge_None in Hk. rewrite drop_ge by lia. now rewrite take_nil.
Qed.

(** X8.  A callback that unsubscribes itself while it is called hides the
    callback subscribed after it from that [emit]: it is passed over,
    although it stays subscribed. *)
Theorem self_unsubscribing_listener_hides_next
    (event : string) (data : jsval) (a b : EditorEvents.fn)
    (pre post : list EditorEvents.fn) (bus : EditorEvents.t)
    (log : list (EditorEvents.fn * jsval)) :
  EditorEvents.listeners bus event = pre ++ a :: b :: post ->
  ~ In a pre -> ~ In a post ->
  EditorEvents.emit _ (EditorEvents.once event a) event data bus log
  = (Ok tt, EditorEvents.off event a bus,
     log ++ map (fun c => (c, data)) (pre ++ a :: post))
  /\ EditorEvents.listeners (EditorEvents.off event a bus) event = pre ++ b :: post.
Proof.
  intros HL Hpre Hpost.
  assert (Hoff : EditorEvents.listeners (EditorEvents.off event a bus) event
                 = pre ++ b :: post).
  { rewrite listeners_off_same, HL. now apply remove_first_middle. }
  split; [|exact Hoff].
  assert (Hget : JSMap.get bus event = Some (pre ++ a :: b :: post)).
  { destruct pre; simpl in *; now apply listeners_get. }
  unfold EditorEvents.emit. rewrite Hget.
  replace (List.length (pre ++ a :: b :: post))
    with (List.length pre + (1 + (1 + List.length post)))%nat
    by (rewrite length_app; simpl; lia).
  rewrite emit_from_add.
  rewrite (emit_from_once_stable event a data bus (List.length pre) 0 log);
    rewrite HL, drop_0, take_app_length.
  2: exact Hpre.
  remember (1 + List.length post)%nat as n2 eqn:Hn2.
  rewrite (emit_from_add _ _ event data 1 n2).
  cbn [EditorEvents.emit_from Nat.add].
  rewrite HL, lookup_app_r by lia.
  replace (List.length pre - List.length pre)%nat with 0%nat by lia.
  cbn [lookup list_lookup].
  unfold EditorEvents.once at 1. rewrite decide_True by reflexivity.
  assert (Hdrop : drop (List.length pre + 1) (pre ++ b :: post) = post).
  { rewrite <- drop_drop, drop_app_length. reflexivity. }
  rewrite emit_from_once_stable; rewrite Hoff, Hdrop.
  - rewrite firstn_all2 by lia.
    rewrite map_app. simpl. rewrite <- !app_assoc. reflexivity.
  - rewrite firstn_all2 by lia. exact Hpost.
Qed.

(** X9.  The function [on] returns undoes the subscription only when the
    callback was not subscribed to the event before; when it was, it is the
    oldest subscription that goes, and the callback ends up last. *)
Theorem unsubscribe_removes_oldest_subscription
    (event : string) (callback : EditorEvents.fn) (bus : EditorEvents.t) :
  let bus' := EditorEvents.off event callback (EditorEvents.on event callback bus) in
  (forall event' : string,
      event' <> event ->
      EditorEvents.listeners bus' event' = EditorEvents.listeners bus event')
  /\ (~ In callback (EditorEvents.listeners bus event) ->
      EditorEvents.listeners bus' event = EditorEvents.listeners bus event)
  /\ (forall pre post : list EditorEvents.fn,
        EditorEvents.listeners bus event = pre ++ callback :: post ->
        ~ In callback pre ->
        EditorEvents.listeners bus' event = pre ++ post ++ [callback]).
Proof.
  cbn zeta. split; [|split].
  - intros event' Hne.
    rewrite listeners_off_other, listeners_on_other by congruence. reflexivity.
  - intros Hnot. rewrite listeners_off_same, listeners_on_same.
    now apply remove_first_fresh.
  - intros pre post HL Hnot.
    rewrite listeners_off_same, listeners_on_same, HL.
    rewrite <- app_assoc. cbn [app].
    now rewrite remove_first_middle.
Qed.

(** ** The asset registry *)

(** X10.  [register], [get] and [unregister]: the asset registered last under
    an id is the one [get] returns for it, and registering again under the
    same id keeps one entry; after [unregister] the id is not registered,
    and the event is emitted once, with the asset that was removed; for an
    id that is not registered [unregister] changes nothing and emits
    nothing.  Neither touches the assets of the other ids. *)
Theorem AssetRegistry_register_get_unregister
    (id : string) (a : jsval) (r : AssetRegistry.t) :
  AssetRegistry.get id (AssetRegistry.register id a r) = a
  /\ (forall b : jsval,
        AssetRegistry.assets (AssetRegistry.register id b (AssetRegistry.register id a r))
        = AssetRegistry.assets (AssetRegistry.register id b r))
  /\ AssetRegistry.get id (AssetRegistry.unregister id r) = VUndefined
  /\ JSMap.has (AssetRegistry.assets (AssetRegistry.unregister id r)) id = false
  /\ (JSMap.has (AssetRegistry.assets r) id = false ->
      AssetRegistry.unregister id r = r)
  /\ (forall a0 : jsval,
        JSMap.get (AssetRegistry.assets r) id = Some a0 ->
        AssetRegistry.emissions (AssetRegistry.unregister id r)
        = AssetRegistry.emissions r
            ++ [AssetRegistry.emitted "assetUnregistered" id a0])
  /\ (forall id' : string,
        id' <> id ->
        AssetRegistry.get id' (AssetRegistry.register id a r) = AssetRegistry.get id' r
        /\ AssetRegistry.get id' (AssetRegistry.unregister id r)
           = AssetRegistry.get id' r).
Proof.
  split.
  { unfold AssetRegistry.get, AssetRegistry.register; cbn [AssetRegistry.assets].
    now rewrite JSMap_get_set_same. }
  split.
  { intros b. unfold AssetRegistry.register; cbn [AssetRegistry.assets].
    apply JSMap_set_set. }
  assert (Hreg : forall id' : string,
             id' <> id ->
             AssetRegistry.get id' (AssetRegistry.register id a r)
             = AssetRegistry.get id' r).
  { intros id' Hne. unfold AssetRegistry.get, AssetRegistry.register.
    cbn [AssetRegistry.assets]. now rewrite JSMap_get_set_other by congruence. }
  unfold AssetRegistry.get at 1 3, AssetRegistry.unregister, JSMap.has.
  destruct (JSMap.get (AssetRegistry.assets r) id) as [a1|] eqn:Hget;
    cbn [AssetRegistry.assets AssetRegistry.emissions].
  - rewrite JSMap_get_delete_same.
    split; [reflexivity|]. split; [reflexivity|]. split; [discriminate|].
    split; [now intros a0 [= ->]|].
    intros id' Hne. split; [now apply Hreg|].
    unfold AssetRegistry.get; cbn [AssetRegistry.assets].
    now rewrite JSMap_get_delete_other by congruence.
  - rewrite Hget.
    split; [reflexivity|]. split; [reflexivity|]. split; [reflexivity|].
    split; [discriminate|].
    intros id' Hne. split; [now apply Hreg|reflexivity].
Qed.

(** X11.  [AddAssetCommand]: after [execute()] and [undo()] the id is not
    registered, whatever was registered under it before; the registry
    holds the assets it held before exactly when the id was not in use. *)
Theorem AddAsset_undo_unregisters (c : AddAssetCommand.t) (r : AssetRegistry.t) :
  let r' := AddAssetCommand.undo c (AddAssetCommand.execute c r) in
  AssetRegistry.get (AddAssetCommand.assetId c) r' = VUndefined
  /\ (forall id' : string,
        id' <> AddAssetCommand.assetId c ->
        AssetRegistry.get id' r' = AssetRegistry.get id' r)
  /\ (JSMap.has (AssetRegistry.assets r) (AddAssetCommand.assetId c) = false ->
      AssetRegistry.assets r' = AssetRegistry.assets r)
  /\ (JSMap.has (AssetRegistry.assets r) (AddAssetCommand.assetId c) = true ->
      AssetRegistry.assets r' <> AssetRegistry.assets r).
Proof.
  destruct c as [id a]. cbn [AddAssetCommand.assetId AddAssetCommand.assetData].
  unfold AddAssetCommand.undo, AddAssetCommand.execute.
  cbn [AddAssetCommand.assetId AddAssetCommand.assetData].
  unfold AssetRegistry.unregister, AssetRegistry.register, AssetRegistry.get, JSMap.has.
  cbn [AssetRegistry.assets AssetRegistry.emissions].
  rewrite JSMap_get_set_same. cbn [AssetRegistry.assets].
  split; [now rewrite JSMap_get_delete_same|]. split.
  { intros id' Hne.
    now rewrite JSMap_get_delete_other, JSMap_get_set_other by congruence. }
  split.
  - destruct (JSMap.get (AssetRegistry.assets r) id) eqn:Hget; [discriminate|].
    intros _. now apply JSMap_delete_set_fresh.
  - destruct (JSMap.get (AssetRegistry.assets r) id) eqn:Hget; [|discriminate].
    intros _ Heq.
    pose proof (JSMap_get_delete_same (JSMap.set (AssetRegistry.assets r) id a) id) as Hnone.
    rewrite Heq in Hnone. congruence.
Qed.

Lemma own_not_in (fields : list (string * jsval)) (k : string) :
  ~ In k (map fst fields) -> own fields k = None.
Proof.
  induction fields as [|[k' v] rest IH]; simpl; [reflexivity|].
  intros Hnot. destruct (String.eqb_spec k' k) as [Heq|Hne]; [tauto|].
  apply IH. tauto.
Qed.

(** The properties of [{ ...acc, ...fields }]: those of [fields] first. *)
Lemma own_spread (fields : list (string * jsval)) :
  NoDup (map fst fields) ->
  forall (acc : list (string * jsval)) (k : string),
    own (fold_left (fun a kv => set_own a (fst kv) (snd kv)) fields acc) k
    = match own fields k with
      | Some v => Some v
      | None => own acc k
      end.
Proof.
  induction fields as [|[k0 v0] rest IH]; intros Hnd acc k; [reflexivity|].
  apply NoDup_cons in Hnd as [Hnot Hnd]. cbn [fold_left fst snd].
  rewrite (IH Hnd). cbn [own].
  destruct (String.eqb_spec k0 k) as [Heq|Hne].
  - subst k0. rewrite own_not_in by (rewrite <- list_elem_of_In; exact Hnot).
    apply own_set_own_same.
  - rewrite own_set_own_other by exact Hne. reflexivity.
Qed.

Lemma with_id_listed (entry : string * jsval) :
  object_asset entry ->
  listed entry (AssetRegistry.with_id (fst entry) (snd entry)).
Proof.
  destruct entry as [id a]. intros (fields & Ha & Hnd). cbn [fst snd] in *.
  subst a. unfold listed. cbn [fst snd].
  unfold AssetRegistry.with_id, AssetRegistry.own_properties. cbn [getprop].
  split.
  - rewrite (own_spread fields Hnd). cbn [own String.eqb Ascii.eqb Bool.eqb].
    now destruct (own fields "id").
  - intros k Hk. rewrite (own_spread fields Hnd).
    destruct (own fields k); [reflexivity|].
    cbn [own]. destruct (String.eqb_spec "id" k); [congruence|reflexivity].
Qed.

Lemma matching_objects (type : string) (entries : list (string * jsval)) :
  Forall object_asset entries ->
  AssetRegistry.matching type entries = Ok (List.filter (of_type type) entries).
Proof.
  induction 1 as [|[id a] rest (fields & Ha & _) _ IH]; [reflexivity|].
  cbn [fst snd] in Ha. subst a.
  cbn [AssetRegistry.matching List.filter]. rewrite IH.
  unfold AssetRegistry.has_type, of_type. cbn [snd getprop JS.bind].
  now destruct (default VUndefined (own fields "type")).
Qed.

(** X12.  [listByType(type)], when the assets are objects: one item for each
    registered asset whose [type] is the type asked for, in the order of
    registration; an item has the properties of its asset and an [id],
    which is the id of the registration unless the asset has an [id] of its
    own. *)
Theorem listByType_lists_assets_of_type (type : string) (r : AssetRegistry.t) :
  Forall object_asset (AssetRegistry.assets r) ->
  exists items,
    AssetRegistry.listByType type r = Ok items
    /\ Forall2 listed (List.filter (of_type type) (AssetRegistry.assets r)) items.
Proof.
  intros Hall. unfold AssetRegistry.listByType.
  rewrite (matching_objects type _ Hall). cbn [JS.bind].
  eexists; split; [reflexivity|].
  induction Hall as [|entry rest Hentry _ IH]; [constructor|].
  cbn [List.filter]. destruct (of_type type entry); [|exact IH].
  cbn [map]. constructor; [now apply with_id_listed|exact IH].
Qed.

(** X13.  One asset that is [null] or [undefined] makes [listByType] throw,
    whatever the type asked for. *)
Theorem listByType_throws_on_missing_asset
    (type id : string) (a : jsval) (r : AssetRegistry.t) :
  In (id, a) (AssetRegistry.assets r) ->
  a = VNull \/ a = VUndefined ->
  exists msg, AssetRegistry.listByType type r = Throw (TypeError msg).
Proof.
  intros Hin Ha. unfold AssetRegistry.listByType.
  assert (Hthrow : exists msg,
             AssetRegistry.matching type (AssetRegistry.assets r) = Throw (TypeError msg)).
  { induction (AssetRegistry.assets r) as [|[id' a'] rest IH]; [destruct Hin|].
    cbn [AssetRegistry.matching].
    destruct Hin as [Heq|Hin].
    - inversion Heq; subst id' a'.
      destruct Ha as [-> | ->]; eexists; reflexivity.
    - destruct (IH Hin) as (msg & Hmsg). rewrite Hmsg.
      destruct (AssetRegistry.has_type type a') as [keep|[msg'|msg']] eqn:Hty;
        cbn [JS.bind]; try (eexists; reflexivity).
      unfold AssetRegistry.has_type, JS.bind in Hty.
      destruct (getprop a' "type") as [ty|err] eqn:Hget; [discriminate|].
      inversion Hty; subst err. destruct a'; discriminate. }
  destruct Hthrow as (msg & Hmsg). rewrite Hmsg. eexists; reflexivity.
Qed.

(** ** Scripts *)

Section ArrayFacts.

Context {A : Type} `{EqDecision A}.

Lemma includes_In (x : A) (l : list A) : JSArray.includes x l = true <-> In x l.
Proof.
  unfold JSArray.includes. rewrite existsb_exists. split.
  - intros (y & Hin & Hy). apply bool_decide_eq_true in Hy. now subst.
  - intros Hin. exists x. split; [exact Hin|]. now apply bool_decide_eq_true.
Qed.

Lemma remove_first_absent (x : A) (l : list A) :
  ~ In x l -> JSArray.remove_first x l = l.
Proof.
  induction l as [|y l IH]; simpl; intros Hnot; [reflexivity|].
  rewrite decide_False by (intros ->; apply Hnot; now left).
  rewrite IH; [reflexivity|]. intros Hin; apply Hnot; now right.
Qed.

Lemma remove_first_perm (x : A) (l : list A) :
  In x l -> x :: JSArray.remove_first x l ≡ₚ l.
Proof.
  induction l as [|y l IH]; simpl; intros Hin; [destruct Hin|].
  destruct (decide (y = x)) as [->|Hne]; [reflexivity|].
  destruct Hin as [Heq|Hin]; [congruence|].
  rewrite Permutation_swap. now rewrite IH.
Qed.

Lemma remove_first_snoc_perm (x : A) (l : list A) :
  JSArray.remove_first x (l ++ [x]) ≡ₚ l.
Proof.
  apply (Permutation_cons_inv (a := x)).
  rewrite remove_first_perm by (apply in_or_app; right; now left).
  symmetry. apply Permutation_cons_append.
Qed.

End ArrayFacts.

Section ScriptFacts.

Context {K S : Type} `{EqDecision K} `{EqDecision S}.

Lemma attached_add (k : K) (script : S) (m : ScriptManager.t K S) :
  exists m',
    ScriptManager.add (Some k) script m = (Ok tt, m')
    /\ ScriptManager.attached m' k = ScriptManager.attached m k ++ [script]
    /\ forall k', k' <> k -> ScriptManager.attached m' k' = ScriptManager.attached m k'.
Proof.
  unfold ScriptManager.add, ScriptManager.attached, JSMap.has.
  eexists; split; [reflexivity|]. cbn [ScriptManager.scripts].
  rewrite JSMap_get_set_same. split.
  - destruct (JSMap.get (ScriptManager.scripts m) k) eqn:Hget; cbn [default].
    + now rewrite Hget.
    + now rewrite JSMap_get_set_same.
  - intros k' Hne. rewrite JSMap_get_set_other by congruence.
    destruct (JSMap.get (ScriptManager.scripts m) k); [reflexivity|].
    now rewrite JSMap_get_set_other by congruence.
Qed.

Lemma attached_remove (k : K) (script : S) (m : ScriptManager.t K S) :
  exists m',
    ScriptManager.remove (Some k) script m = (Ok tt, m')
    /\ ScriptManager.attached m' k
       = JSArray.remove_first script (ScriptManager.attached m k)
    /\ forall k', k' <> k -> ScriptManager.attached m' k' = ScriptManager.attached m k'.
Proof.
  unfold ScriptManager.remove, ScriptManager.attached.
  destruct (JSMap.get (ScriptManager.scripts m) k) as [arr|] eqn:Hget.
  - destruct (JSArray.includes script arr) eqn:Hinc.
    + eexists; split; [reflexivity|]. cbn [ScriptManager.scripts].
      rewrite JSMap_get_set_same. split; [reflexivity|].
      intros k' Hne. now rewrite JSMap_get_set_other by congruence.
    + eexists; split; [reflexivity|]. rewrite Hget. cbn [default]. split; [|reflexivity].
      symmetry. apply remove_first_absent.
      intros Hin. apply (proj2 (includes_In script arr)) in Hin. congruence.
  - eexists; split; [reflexivity|]. rewrite Hget. split; reflexivity.
Qed.

(** X14.  [SetScriptCommand]: [execute()] followed by [undo()] leaves the object
    with the scripts it had, possibly in another order (the script that was
    replaced comes back last), provided the replaced script was attached;
    the scripts of the other objects are not touched.  When no script is
    replaced and the new one was not attached yet, the order is kept too. *)
Theorem SetScript_undo_restores_scripts
    (c : SetScriptCommand.t K S) (m : ScriptManager.t K S) (k : K) :
  SetScriptCommand.object c = Some k ->
  (forall old, SetScriptCommand.oldScript c = Some old ->
               In old (ScriptManager.attached m k)) ->
  exists m1 m2,
    SetScriptCommand.execute c m = (Ok tt, m1)
    /\ In (SetScriptCommand.script c) (ScriptManager.attached m1 k)
    /\ SetScriptCommand.undo c m1 = (Ok tt, m2)
    /\ ScriptManager.attached m2 k ≡ₚ ScriptManager.attached m k
    /\ (forall k', k' <> k ->
                   ScriptManager.attached m2 k' = ScriptManager.attached m k')
    /\ (SetScriptCommand.oldScript c = None ->
        ~ In (SetScriptCommand.script c) (ScriptManager.attached m k) ->
        ScriptManager.attached m2 k = ScriptManager.attached m k).
Proof.
  destruct c as [object script oldScript].
  cbn [SetScriptCommand.object SetScriptCommand.script SetScriptCommand.oldScript].
  intros -> Hold.
  unfold SetScriptCommand.execute, SetScriptCommand.undo.
  cbn [SetScriptCommand.object SetScriptCommand.script SetScriptCommand.oldScript].
  destruct oldScript as [old|].
  - destruct (attached_remove k old m) as (ma & Hrem & Hka & Hoa).
    destruct (attached_add k script ma) as (m1 & Hadd & Hk1 & Ho1).
    destruct (attached_remove k script m1) as (mb & Hrem' & Hkb & Hob).
    destruct (attached_add k old mb) as (m2 & Hadd' & Hk2 & Ho2).
    exists m1, m2. rewrite Hrem, Hadd, Hrem', Hadd'.
    split; [reflexivity|].
    split; [rewrite Hk1; apply in_or_app; right; now left|].
    split; [reflexivity|]. split.
    + rewrite Hk2, Hkb, Hk1, Hka, remove_first_snoc_perm.
      rewrite <- Permutation_cons_append. apply remove_first_perm. now apply Hold.
    + split; [|discriminate].
      intros k' Hne. now rewrite Ho2, Hob, Ho1, Hoa.
  - destruct (attached_add k script m) as (m1 & Hadd & Hk1 & Ho1).
    destruct (attached_remove k script m1) as (m2 & Hrem' & Hk2 & Ho2).
    exists m1, m2. rewrite Hadd, Hrem'.
    split; [reflexivity|].
    split; [rewrite Hk1; apply in_or_app; right; now left|].
    split; [reflexivity|]. split.
    + rewrite Hk2, Hk1. apply remove_first_snoc_perm.
    + split.
      * intros k' Hne. now rewrite Ho2, Ho1.
      * intros _ Hnot. rewrite Hk2, Hk1.
        clear -Hnot. induction (ScriptManager.attached m k) as [|y l IH]; simpl.
        -- now rewrite decide_True.
        -- rewrite decide_False by (intros ->; apply Hnot; now left).
           rewrite IH; [reflexivity|]. intros Hin; apply Hnot; now right.
Qed.

(** X15.  When the script a [SetScriptCommand] replaces was not attached to the
    object, [undo()] attaches it all the same: the object ends up with one
    script more than it had. *)
Theorem SetScript_undo_attaches_absent_old
    (c : SetScriptCommand.t K S) (m : ScriptManager.t K S) (k : K) (old : S) :
  SetScriptCommand.object c = Some k ->
  SetScriptCommand.oldScript c = Some old ->
  ~ In old (ScriptManager.attached m k) ->
  exists m1 m2,
    SetScriptCommand.execute c m = (Ok tt, m1)
    /\ SetScriptCommand.undo c m1 = (Ok tt, m2)
    /\ ScriptManager.attached m2 k ≡ₚ old :: ScriptManager.attached m k.
Proof.
  destruct c as [object script oldScript].
  cbn [SetScriptCommand.object SetScriptCommand.script SetScriptCommand.oldScript].
  intros -> -> Hnot.
  unfold SetScriptCommand.execute, SetScriptCommand.undo.
  cbn [SetScriptCommand.object SetScriptCommand.script SetScriptCommand.oldScript].
  destruct (attached_remove k old m) as (ma & Hrem & Hka & Hoa).
  destruct (attached_add k script ma) as (m1 & Hadd & Hk1 & Ho1).
  destruct (attached_remove k script m1) as (mb & Hrem' & Hkb & Hob).
  destruct (attached_add k old mb) as (m2 & Hadd' & Hk2 & Ho2).
  exists m1, m2. rewrite Hrem, Hadd, Hrem', Hadd'.
  split; [reflexivity|]. split; [reflexivity|].
  rewrite Hk2, Hkb, Hk1, Hka, remove_first_snoc_perm.
  rewrite remove_first_absent by exact Hnot.
  symmetry. apply Permutation_cons_append.
Qed.

End ScriptFacts.

(** ** The materials library *)

Lemma own_entry_keys {A} (entries : list (string * A)) (k : string) :
  In k (map fst entries) <-> exists a, Registry.own_entry entries k = Some a.
Proof.
  induction entries as [|[k' a'] rest IH]; simpl.
  - split; [tauto|]. intros (a & Ha). discriminate.
  - destruct (String.eqb_spec k' k) as [Heq|Hne].
    + split; [eauto|]. intros _. now left.
    + rewrite <- IH. split; [intros [Hk|Hin]; [contradiction|exact Hin]|]. now right.
Qed.

(** X16.  The materials library by name.  [getNames()] lists exactly the names
    for which [get] returns a material, and that material is the one
    of that name.  [has(name)] is true for these names, and also for the names
    of the properties every object inherits ([toString], [constructor],
    ...), for which [get] throws; when [has(name)] is false, [get] returns
    [null]. *)
Theorem materials_by_name (name : string) :
  (In name MaterialNames.getNames
   <-> exists m, MaterialsLibrary.get (VStr name) = Ok (Some m))
  /\ (forall m, MaterialsLibrary.get (VStr name) = Ok (Some m) -> THREE.source m = name)
  /\ (MaterialsLibrary.has (VStr name) = Ok true
      <-> In name MaterialNames.getNames \/ Registry.inherited name = true)
  /\ (MaterialsLibrary.has (VStr name) = Ok false ->
      MaterialsLibrary.get (VStr name) = Ok None)
  /\ (~ In name MaterialNames.getNames ->
      Registry.inherited name = true ->
      MaterialsLibrary.has (VStr name) = Ok true
      /\ MaterialsLibrary.get (VStr name)
         = Throw (TypeError "material.clone is not a function")).
Proof.
  unfold MaterialNames.getNames, MaterialsLibrary.get, MaterialsLibrary.has,
    Registry.read, Registry.get, Registry.key_of. cbn [ToString JS.bind].
  rewrite own_entry_keys.
  destruct (Registry.own_entry MaterialsLibrary.materials name) as [m|] eqn:Hown.
  - split; [split; eauto|]. split.
    { intros m' [= <-]. revert Hown.
      unfold MaterialsLibrary.materials. cbn [Registry.own_entry].
      repeat match goal with
             | |- (if String.eqb ?k name then _ else _) = _ -> _ =>
                 destruct (String.eqb_spec k name) as [<-|_]; [now intros [= <-]|]
             end.
      discriminate. }
    split; [split; eauto|]. split; [discriminate|].
    intros Hnot. exfalso. apply Hnot. eauto.
  - destruct (Registry.inherited name) eqn:Hinh.
    + split; [split; [intros (a & Ha)|intros (a & Ha)]; discriminate|].
      split; [discriminate|]. split; [split; auto|].
      split; [discriminate|]. auto.
    + split; [split; [intros (a & Ha)|intros (a & Ha)]; discriminate|].
      split; [discriminate|]. split.
      { split; [discriminate|]. intros [(a & Ha)|Hf]; discriminate. }
      split; [reflexivity|]. discriminate.
Qed.

(** ** Deep copies *)

Lemma is_json_copy : forall v : jsval, v <> VUndefined -> is_json (DeepCopy.copy v) = true.
Proof.
  induction v as [ | | b | q | negative | s | items props IHitems _ | fields IHfields]
    using jsval_induction; intros Hv; try reflexivity; [contradiction| |].
  - cbn [DeepCopy.copy is_json]. rewrite andb_true_r.
    clear Hv. induction IHitems as [|a items Ha _ IH]; [reflexivity|].
    cbn [map forallb]. rewrite IH, andb_true_r.
    destruct a; try reflexivity; apply Ha; discriminate.
  - cbn [DeepCopy.copy is_json].
    clear Hv. induction IHfields as [|[k a] fields Ha _ IH]; [reflexivity|].
    cbn [snd] in Ha.
    destruct a; cbn [forallb snd]; try exact IH;
      (rewrite IH, andb_true_r; try reflexivity; apply Ha; discriminate).
Qed.

(** X17.  [deepClone]: data that is plain JSON is cloned as it is; whatever is
    cloned, the clone is plain JSON and cloning it once more gives it
    back; and the only value [deepClone] throws on is [undefined]. *)
Theorem deepClone_settles (v : jsval) :
  (is_json v = true -> DeepCopy.deepClone v = Ok v)
  /\ (forall c : jsval,
        DeepCopy.deepClone v = Ok c ->
        is_json c = true /\ DeepCopy.deepClone c = Ok c)
  /\ (is_ok (DeepCopy.deepClone v) = false <-> v = VUndefined).
Proof.
  split; [apply deepClone_json|]. split.
  - intros c Hc.
    assert (Hv : v <> VUndefined) by (intros ->; discriminate).
    assert (Hcopy : c = DeepCopy.copy v) by (destruct v; inversion Hc; reflexivity).
    subst c. pose proof (is_json_copy v Hv) as Hj.
    split; [exact Hj|now apply deepClone_json].
  - destruct v; cbn; split; congruence.
Qed.

(** ** Clones *)

Lemma in_sync_data_object (o : EditorObject) :
  Sync.in_sync o -> is_json (data o) = true -> exists fields, data o = VObj fields.
Proof.
  intros (Hp & _ & _) Hjson. unfold Sync.data_vector, JS.bind in Hp.
  destruct (data o) as [ | | b | q | negative | s | items props | fields]; cbn in Hp;
    try discriminate; [|eauto].
  cbn in Hjson. apply andb_true_iff in Hjson as [_ Hprops].
  destruct props; [cbn in Hp; discriminate|discriminate].
Qed.

(** X18.  [clone]: the copy of an object that is in sync and restorable (its
    type and its material key can be made property names, and are not
    inherited ones) is in sync; it sits at the new position, with the
    rotation and the scale of the original; its data are those of the
    original but for the position; and its id is a newly generated one. *)
Theorem clone_keeps_sync (o : EditorObject) (p : THREE.Vector3)
    (now : N) (random36 : string) :
  Sync.in_sync o ->
  restorable o ->
  exists c,
    Cloning.clone o p now random36 = Ok c
    /\ Sync.in_sync c
    /\ THREE.position (mesh c) = p
    /\ THREE.rotation (mesh c) = THREE.rotation (mesh o)
    /\ THREE.scale (mesh c) = THREE.scale (mesh o)
    /\ (forall k : string, k <> "position" -> getprop (data c) k = getprop (data o) k)
    /\ id c = VStr (ObjectFactory.generateId now random36).
Proof.
  intros Hsync (_ & Hjson & type & materialType & Htype & Hmat & Hnotype & Hnomat).
  destruct (in_sync_data_object o Hsync Hjson) as (fields & Hfields).
  unfold Cloning.clone. rewrite Htype, Hmat. cbn [JS.bind].
  pose proof (proj2 (create_succeeds_iff type p VNull now random36) Hnotype) as Hok.
  destruct (ObjectFactory.create type p VNull now random36) as [obj|] eqn:Hcreate;
    [|discriminate Hok].
  destruct (create_result _ _ _ _ _ _ Hcreate) as [Hpos Hid]. cbn [truthy] in Hid.
  cbn [JS.bind]. rewrite (deepClone_json _ Hjson). cbn [JS.bind].
  rewrite Hfields. cbn [setprop JS.bind].
  destruct (material_lookup_ok materialType (THREE.mat (mesh obj)) Hnomat) as [k Hk].
  destruct (MaterialsLibrary.has materialType) as [known|]; [|discriminate Hk].
  cbn [JS.bind] in *. rewrite Hk. cbn [JS.bind].
  eexists. split; [reflexivity|].
  assert (Hset : setprop (data o) "position" (THREE.toObject p)
                 = Ok (VObj (set_own fields "position" (THREE.toObject p)))).
  { rewrite Hfields. reflexivity. }
  destruct Hsync as (Hsp & Hsr & Hss).
  unfold Sync.in_sync, Sync.data_vector in *. cbn [id mesh data].
  rewrite (getprop_setprop_same _ _ _ _ Hset).
  rewrite (getprop_setprop_other _ "position" "rotation" _ _ ltac:(discriminate) Hset).
  rewrite (getprop_setprop_other _ "position" "scale" _ _ ltac:(discriminate) Hset).
  destruct obj as [oi [g mt pp rr ss cs rs] od]. cbn in Hpos, Hid. subst pp oi.
  cbn. split.
  { split; [now destruct p|]. split; assumption. }
  repeat split.
  intros k' Hk'. now rewrite own_set_own_other by congruence.
Qed.

(** ** Transform commands *)

Lemma alter_fixed {A} (f : A -> A) (l : list A) (i : nat) (x : A) :
  l !! i = Some x -> f x = x -> alter f i l = l.
Proof.
  intros Hi Hf. rewrite <- (list_alter_id (fun y => y) l i) at 2 by reflexivity.
  apply list_alter_ext; [|reflexivity]. intros y Hy. congruence.
Qed.

Lemma update_mesh_twice (r : nat) (f g : THREE.Mesh -> THREE.Mesh) (ed : Editor.t)
    (o : EditorObject) :
  Editor.store ed !! r = Some o ->
  g (f (mesh o)) = mesh o ->
  Editor.store
    (Editor.update_mesh r g (Editor.dispatch_objectChanged r (Editor.update_mesh r f ed)))
  = Editor.store ed.
Proof.
  intros Ho Hgf. unfold Editor.update_mesh, Editor.dispatch_objectChanged.
  cbn [Editor.store]. rewrite list_alter_alter_eq.
  apply (alter_fixed _ _ _ o Ho). unfold compose. cbn [id mesh data].
  rewrite Hgf. now destruct o.
Qed.

(** X19.  A position, scale or rotation command made for an object of the
    editor, without an old value: [execute()] followed by [undo()] leaves
    every object as it was, mesh and data, and has dispatched
    [objectChanged] twice for the object. *)
Theorem transform_command_undo_inverts_execute
    (ed : Editor.t) (r : nat) (o : EditorObject) (v : THREE.Vector3) :
  Editor.store ed !! r = Some o ->
  (exists c ed1 ed2,
      SetPositionCommand.create ed (Some r) (Some v) None = Ok c
      /\ SetPositionCommand.execute c ed = (Ok tt, ed1)
      /\ SetPositionCommand.undo c ed1 = (Ok tt, ed2)
      /\ Editor.store ed2 = Editor.store ed
      /\ Editor.signals ed2 = r :: r :: Editor.signals ed)
  /\ (exists c ed1 ed2,
        SetScaleCommand.create ed (Some r) (Some v) None = Ok c
        /\ SetScaleCommand.execute c ed = (Ok tt, ed1)
        /\ SetScaleCommand.undo c ed1 = (Ok tt, ed2)
        /\ Editor.store ed2 = Editor.store ed
        /\ Editor.signals ed2 = r :: r :: Editor.signals ed)
  /\ (exists c ed1 ed2,
        SetRotationCommand.create ed (Some r) (Some v) None = Ok c
        /\ SetRotationCommand.execute c ed = (Ok tt, ed1)
        /\ SetRotationCommand.undo c ed1 = (Ok tt, ed2)
        /\ Editor.store ed2 = Editor.store ed
        /\ Editor.signals ed2 = r :: r :: Editor.signals ed).
Proof.
  intros Ho.
  split; [|split]; do 3 eexists;
    (split; [reflexivity|]); (split; [reflexivity|]); (split; [reflexivity|]);
    (split; [|reflexivity]);
    cbn [Editor.dispatch_objectChanged Editor.store
         SetPositionCommand.oldPosition SetPositionCommand.newPosition
         SetScaleCommand.oldScale SetScaleCommand.newScale
         SetRotationCommand.oldRotation SetRotationCommand.newRotation];
    apply (update_mesh_twice r _ _ ed o Ho); rewrite Ho;
    now destruct o as [i [g k p rt s cs rs] d].
Qed.

(** ** Commands as JSON *)

(** X20.  [toJSON()] and [fromJSON()] of a position command: what [toJSON]
    writes on top of an object, [fromJSON] reads back as the same target
    and the same two positions, provided the editor resolves the id of the
    target to the target. *)
Theorem SetPosition_toJSON_fromJSON
    (objectById : jsval -> option Editor.ref) (fields : list (string * jsval))
    (c c0 : SetPositionCommand.t) (ed : Editor.t) (r : nat) (o : EditorObject) :
  SetPositionCommand.object c = Some r ->
  Editor.store ed !! r = Some o ->
  objectById (id o) = Some r ->
  exists json,
    SetPositionJSON.toJSON (VObj fields) c ed = Ok json
    /\ getprop json "objectUuid" = Ok (id o)
    /\ SetPositionCommand.fromJSON objectById json c0 = Ok c
    /\ forall k : string,
         k <> "objectUuid" -> k <> "oldPosition" -> k <> "newPosition" ->
         getprop json k = getprop (VObj fields) k.
Proof.
  intros Hobj Ho Hres. unfold SetPositionJSON.toJSON. rewrite Hobj, Ho.
  cbn [setprop JS.bind].
  eexists. split; [reflexivity|].
  assert (Huuid : forall v w x,
             own (set_own (set_own (set_own fields "objectUuid" v) "oldPosition" w)
                    "newPosition" x) "objectUuid" = Some v).
  { intros v w x. rewrite !own_set_own_other by discriminate. apply own_set_own_same. }
  assert (Hold : forall v w x,
             own (set_own (set_own (set_own fields "objectUuid" v) "oldPosition" w)
                    "newPosition" x) "oldPosition" = Some w).
  { intros v w x. rewrite own_set_own_other by discriminate. apply own_set_own_same. }
  split; [cbn [getprop]; now rewrite Huuid|].
  split.
  - unfold SetPositionCommand.fromJSON. cbn [getprop].
    rewrite Huuid, Hold, own_set_own_same.
    cbv beta iota delta [default from_option Datatypes.id JS.bind].
    fold (@JS.bind THREE.Vector3 SetPositionCommand.t).
    rewrite !fromArray_toArray. cbn [JS.bind]. rewrite Hres.
    destruct c as [t n old]. cbn in Hobj |- *. now subst.
  - intros k H1 H2 H3. cbn [getprop].
    now rewrite !own_set_own_other by congruence.
Qed.

(** X21.  [fromJSON] of a composite whose JSON holds a member of a class that
    cannot be constructed without its object -- [SetPositionCommand] is
    one: its constructor reads [object.mesh] -- throws that class's
    exception or an earlier one; it never returns the composite. *)
Theorem MultiCmds_fromJSON_member_needs_object
    (C : Type) (Commands : list (string * MultiCmdsJSON.class C))
    (ed : Editor.t) (json item : jsval) (items : list jsval)
    (props : list (string * jsval)) (name : string) (cls : MultiCmdsJSON.class C)
    (err : exn) :
  getprop json "commands" = Ok (VArr items props) ->
  In item items ->
  getprop item "type" = Ok (VStr name) ->
  Registry.own_entry Commands name = Some cls ->
  MultiCmdsJSON.construct cls ed = Throw err ->
  exists e, MultiCmdsJSON.fromJSON Commands ed json = Throw e.
Proof.
  intros Hcmds Hin Hty Hcls Hctor. unfold MultiCmdsJSON.fromJSON.
  rewrite Hcmds. cbn [JS.bind truthy]. clear Hcmds.
  induction items as [|first rest IH]; [destruct Hin|].
  cbn [MultiCmdsJSON.members].
  destruct Hin as [->|Hin].
  - unfold MultiCmdsJSON.member, Registry.key_of. rewrite Hty.
    cbn [JS.bind ToString].
    rewrite Hcls, Hctor. cbn [JS.bind]. eexists; reflexivity.
  - destruct (MultiCmdsJSON.member Commands ed first) as [c|e]; cbn [JS.bind];
      [|eexists; reflexivity].
    destruct (IH Hin) as (e & He). rewrite He. cbn [JS.bind]. eexists; reflexivity.
Qed.



(** ** Objects keep their shape *)

Lemma set_data_object (d : jsval) (k c : string) (v : jsval)
    (fields inner : list (string * jsval)) :
  d = VObj fields ->
  getprop d k = Ok (VObj inner) ->
  Sync.set_data d k c v = Ok (VObj (set_own fields k (VObj (set_own inner c v)))).
Proof.
  intros -> Hk. unfold Sync.set_data. rewrite Hk. reflexivity.
Qed.

Lemma shaped_fields_after (fields : list (string * jsval)) (k : string) (w : jsval)
    (inner : list (string * jsval)) :
  w = VObj inner \/ ~ In k ["position"; "rotation"; "scale"; "size"] ->
  (forall k0 : string,
      In k0 ["position"; "rotation"; "scale"; "size"] ->
      exists inner0, getprop (VObj fields) k0 = Ok (VObj inner0)) ->
  forall k0 : string,
    In k0 ["position"; "rotation"; "scale"; "size"] ->
    exists inner0, getprop (VObj (set_own fields k w)) k0 = Ok (VObj inner0).
Proof.
  intros Hw Hall k0 Hk0. cbn [getprop].
  destruct (String.eqb_spec k k0) as [<-|Hne].
  - rewrite own_set_own_same. destruct Hw as [->|Hnot]; [eauto|contradiction].
  - rewrite own_set_own_other by exact Hne. exact (Hall k0 Hk0).
Qed.

Lemma create_shaped (type : jsval) (position : THREE.Vector3) (i : jsval)
    (now : N) (random36 : string) (o : EditorObject) :
  ObjectFactory.create type position i now random36 = Ok o -> shaped o.
Proof.
  intros Hcreate. split; [eapply create_in_sync; eassumption|].
  revert Hcreate. unfold ObjectFactory.create.
  destruct (ObjectFactory.config_for type) as [[config| |]|]; cbn [JS.bind];
    try discriminate.
  destruct (MaterialsLibrary.get (VStr (ObjectFactory.material config)));
    cbn [JS.bind]; [|discriminate].
  intros [= <-]. cbn [data]. split; [eauto|].
  intros k Hk. cbn in Hk. cbn [getprop].
  destruct Hk as [<-|[<-|[<-|[<-|[]]]]]; cbn; eauto.
Qed.

Section Updates.

Variable divide : jsval -> jsval -> jsval.
Variable parseFloat : jsval -> jsval.
Variable degToRad : jsval -> jsval.

(** The names [update] has a case for. *)
Lemma update_other_property (o : EditorObject) (property : string) (value : jsval) :
  ~ In property ["materialType"; "width"; "height"; "depth"; "x"; "y"; "z";
                 "rot-x"; "rot-y"; "rot-z"] ->
  PropertyUpdater.update divide parseFloat degToRad o property value = (Ok tt, o).
Proof.
  intros Hnot. unfold PropertyUpdater.update.
  repeat match goal with
         | |- context [String.eqb property ?s] =>
             destruct (String.eqb_spec property s) as [Heq|_];
             [exfalso; apply Hnot; rewrite Heq; cbn; tauto|]
         end.
  reflexivity.
Qed.

(** X22.  [PropertyUpdater.update] on an object of the editor, for every
    property name and for every value that can be made a primitive, the
    sizes it is divided by being such values too: it returns, and the
    object it leaves is still in shape and in sync, with the same id --
    unless the property is [materialType] and the value names a property
    that the materials inherit from [Object.prototype]. *)
Theorem PropertyUpdater_update_keeps_shape
    (o : EditorObject) (property : string) (value : jsval) :
  shaped o ->
  is_ok (ToPrimitive value) = true ->
  (forall sz d : jsval,
      getprop (data o) "size" = Ok sz -> getprop sz property = Ok d ->
      is_ok (ToPrimitive d) = true) ->
  (property = "materialType" ->
   Registry.safe MaterialsLibrary.materials value = true) ->
  exists o',
    PropertyUpdater.update divide parseFloat degToRad o property value = (Ok tt, o')
    /\ shaped o'
    /\ id o' = id o.
Proof.
  intros (Hsync & (fields & Hfields) & Hparts) Hvalue Hsize Hmat.
  assert (Hv : ToPrimitive value = Ok tt).
  { destruct (ToPrimitive value) as [[]|]; [reflexivity|discriminate]. }
  assert (Hex : exists o',
             PropertyUpdater.update divide parseFloat degToRad o property value
             = (Ok tt, o')
             /\ id o' = id o
             /\ (exists fields', data o' = VObj fields')
             /\ forall k : string,
                  In k ["position"; "rotation"; "scale"; "size"] ->
                  exists inner, getprop (data o') k = Ok (VObj inner)).
  { destruct (Hparts "position" ltac:(cbn; tauto)) as (ip & Hip).
    destruct (Hparts "rotation" ltac:(cbn; tauto)) as (ir & Hir).
    destruct (Hparts "scale" ltac:(cbn; tauto)) as (isc & His).
    destruct (Hparts "size" ltac:(cbn; tauto)) as (isz & Hisz).
    assert (Hd : forall d, getprop (VObj isz) property = Ok d -> ToPrimitive d = Ok tt).
    { intros d Hget. pose proof (Hsize _ d Hisz Hget) as Hok.
      destruct (ToPrimitive d) as [[]|]; [reflexivity|discriminate]. }
    rewrite Hfields in Hparts.
    unfold PropertyUpdater.update.
    destruct (String.eqb_spec property "materialType") as [Hp|_].
    { specialize (Hmat Hp). unfold PropertyUpdater.update_material.
      unfold Registry.safe in Hmat.
      unfold MaterialsLibrary.has, MaterialsLibrary.get.
      destruct (Registry.read MaterialsLibrary.materials value) as [[m|name|]|e];
        cbn [JS.bind]; try discriminate Hmat.
      - rewrite Hfields. cbn [setprop]. eexists. split; [reflexivity|].
        cbn [id data]. split; [reflexivity|]. split; [eauto|].
        apply (shaped_fields_after fields "materialType" value []); [|exact Hparts].
        right. cbn. intros [H|[H|[H|[H|[]]]]]; discriminate.
      - exists o. rewrite Hfields. split; [reflexivity|]. split; [reflexivity|].
        split; [eauto|exact Hparts]. }
    repeat match goal with
           | |- context [String.eqb property ?s] =>
               destruct (String.eqb_spec property s) as [Heq|_];
               [try (rewrite Heq in Hd; specialize (Hd _ eq_refl))|]
           end;
      unfold PropertyUpdater.update_size, PropertyUpdater.update_position,
        PropertyUpdater.update_rotation;
      rewrite ?Hisz, ?Hv; cbn [JS.bind getprop]; rewrite ?Hv; cbn [JS.bind];
      try (rewrite Hd; cbn [JS.bind]);
      try (rewrite (set_data_object _ "scale" _ _ fields isc Hfields His));
      try (rewrite (set_data_object _ "position" _ _ fields ip Hfields Hip));
      try (rewrite (set_data_object _ "rotation" _ _ fields ir Hfields Hir));
      try (eexists; split; [reflexivity|]; cbn [id data];
           split; [reflexivity|]; split; [eauto|];
           eapply shaped_fields_after; [left; reflexivity|exact Hparts]).
    exists o. rewrite Hfields. split; [reflexivity|]. split; [reflexivity|].
    split; [eauto|exact Hparts]. }
  destruct Hex as (o' & Hrun & Hid & Hobj & Hparts').
  exists o'. split; [exact Hrun|]. split; [|exact Hid].
  split; [|split; assumption].
  eapply PropertyUpdater_update_keeps_sync; eassumption.
Qed.

(** A value that cannot be made a primitive, such as the object that
    [JSON.parse] makes of [{ "toString": 1 }]: for every property that
    [update] has a case for, [update] throws and leaves the object as it
    was. *)
Lemma PropertyUpdater_update_unconvertible_throws
    (o : EditorObject) (property : string) (value : jsval) (e : exn) :
  shaped o ->
  ToString value = Throw e ->
  In property ["materialType"; "width"; "height"; "depth"; "x"; "y"; "z";
               "rot-x"; "rot-y"; "rot-z"] ->
  PropertyUpdater.update divide parseFloat degToRad o property value = (Throw e, o).
Proof.
  intros (_ & _ & Hparts) Hthrow Hin.
  destruct (Hparts "size" ltac:(cbn; tauto)) as (isz & Hisz).
  assert (Hp : ToPrimitive value = Throw e) by (unfold ToPrimitive; now rewrite Hthrow).
  cbn [In] in Hin.
  repeat (destruct Hin as [<-|Hin]);
    try (exfalso; exact Hin);
    cbv beta iota delta [PropertyUpdater.update String.eqb Ascii.eqb Bool.eqb];
    unfold PropertyUpdater.update_material, PropertyUpdater.update_size,
      PropertyUpdater.update_position, PropertyUpdater.update_rotation,
      MaterialsLibrary.has, Registry.read, Registry.key_of;
    rewrite ?Hisz, ?Hthrow, ?Hp; cbn [JS.bind getprop]; rewrite ?Hp; reflexivity.
Qed.

End Updates.

(** X23.  [GridManager.snapObject] on an object of the editor: it returns; the
    mesh is where [snapPosition] puts it, its [y] untouched; and the object
    is still in shape and in sync. *)
Theorem snapObject_keeps_shape (Math_round : jsval -> jsval) (o : EditorObject) :
  shaped o ->
  exists o',
    GridManager.snapObject Math_round (Some o) = (Ok tt, Some o')
    /\ shaped o'
    /\ THREE.position (mesh o')
       = GridManager.snapPosition Math_round (THREE.position (mesh o)) false
    /\ THREE.y (THREE.position (mesh o')) = THREE.y (THREE.position (mesh o))
    /\ id o' = id o.
Proof.
  intros (Hsync & (fields & Hfields) & Hparts).
  destruct (Hparts "position" ltac:(cbn; tauto)) as (ip & Hip).
  assert (Hrun : exists o',
             GridManager.snapObject Math_round (Some o) = (Ok tt, Some o')
             /\ THREE.position (mesh o')
                = GridManager.snapPosition Math_round (THREE.position (mesh o)) false
             /\ id o' = id o
             /\ (exists fields', data o' = VObj fields')
             /\ forall k : string,
                  In k ["position"; "rotation"; "scale"; "size"] ->
                  exists inner, getprop (data o') k = Ok (VObj inner)).
  { unfold GridManager.snapObject.
    rewrite (set_data_object _ "position" _ _ fields ip Hfields Hip).
    erewrite (set_data_object _ "position" "z" _ _ _ eq_refl);
      [|cbn [getprop]; rewrite own_set_own_same; reflexivity].
    eexists. split; [reflexivity|]. cbn [id mesh data THREE.position THREE.set_position].
    split; [reflexivity|]. split; [reflexivity|]. split; [eauto|].
    rewrite Hfields in Hparts.
    eapply shaped_fields_after; [left; reflexivity|].
    eapply shaped_fields_after; [left; reflexivity|exact Hparts]. }
  destruct Hrun as (o' & Hrun & Hpos & Hid & Hobj & Hparts').
  exists o'. split; [exact Hrun|].
  split; [split; [eapply snapObject_keeps_sync; eassumption|split; assumption]|].
  split; [exact Hpos|]. split; [now rewrite Hpos|exact Hid].
Qed.

(** ** The editor, step by step *)

Section EditorSteps.

Variable clock : nat -> N * string.
Variable sceneTree : bool.
Variable decompose : THREE.Mesh -> THREE.Vector3 * THREE.Vector3 * THREE.Vector3.





(** X25.  [importScene] of a text that holds the serialized scene of plain
    objects (string ids, data that are JSON, type and material keys that
    can be made property names and are not inherited ones): the scene is
    restored whole -- one object for each serialized object, in order, with
    its id, its data and its recorded transform --, the state is saved, and
    [true] is returned. *)
Theorem importScene_restores_serialized_scene
    (text : string) (state : jsval) (objects : list EditorObject) (ed : LevelEditor.t) :
  JSON.parse text = Some state ->
  SceneSerializer.serializeObjects decompose objects = Ok state ->
  Forall (plain decompose) objects ->
  Forall (fun o => THREE.mat (mesh o) <> None)
    (LevelEditor.selectedObjects (LevelEditor.live ed)) ->
  exists ed',
    LevelEditor.importScene clock decompose sceneTree text ed = (Ok true, ed')
    /\ Forall2 (restored_from decompose) objects
         (LevelEditor.objects (LevelEditor.live ed'))
    /\ LevelEditor.selectedObjects (LevelEditor.live ed') = []
    /\ SceneSerializer.lastState (LevelEditor.serializer ed') <> VNull.
Proof.
  intros Hparse Hser Hplain Hsel.
  assert (Hall : Forall restorable objects).
  { eapply Forall_impl; [exact Hplain|]. now intros o (Ho & _). }
  destruct (loadScene_restores_snapshot clock sceneTree decompose objects state
              (LevelEditor.live ed) Hall (plain_string_ids _ _ Hplain) Hsel Hser)
    as (restored & Hload & Hfrom).
  assert (Hdata : Forall (fun o => data o <> VUndefined) restored).
  { clear Hload Hser. induction Hfrom as [|o o' l l' Hone _ IH]; [constructor|].
    inversion Hplain as [|? ? Hp Hrest]; subst.
    inversion Hall; subst.
    constructor; [|auto].
    destruct Hp as ((_ & Hjson & _) & _). destruct Hone as (_ & Hd & _).
    rewrite Hd. now apply is_json_not_undefined. }
  destruct (snapshot_serializable decompose _ Hdata) as (snapshot & Hsnap).
  destruct (saveState_baseline decompose _ (LevelEditor.serializer ed) _ Hsnap)
    as (s' & Hsave & Hlast & _).
  unfold LevelEditor.importScene, SceneSerializer.parseJSON. rewrite Hparse.
  assert (Htruthy : truthy state = true).
  { unfold SceneSerializer.serializeObjects, JS.bind in Hser.
    destruct (SceneSerializer.serializeAll decompose objects); [|discriminate].
    now inversion Hser. }
  rewrite Htruthy, Hload. unfold LevelEditor.saveState.
  cbn [LevelEditor.live LevelEditor.serializer LevelEditor.objects].
  rewrite Hsave. eexists. split; [reflexivity|].
  cbn [LevelEditor.live LevelEditor.serializer LevelEditor.objects
       LevelEditor.selectedObjects].
  split; [exact Hfrom|]. split; [reflexivity|].
  rewrite Hlast. eapply snapshot_not_null; eassumption.
Qed.

End EditorSteps.

(** ** The bounds of the grid *)

Lemma Qle_bool_false (p q : Q) : Qle_bool p q = false -> (q < p)%Q.
Proof.
  intros Hf. apply Qnot_le_lt. intros Hle. apply Qle_bool_iff in Hle. congruence.
Qed.

Section GridFacts.

Context `{Num.Engine}.

Lemma clamp_number (n v : Q) :
  (0 <= n)%Q ->
  exists r,
    GridBounds.clamp (VNum n) (VNum v) = VNum r
    /\ (- n <= r)%Q /\ (r <= n)%Q
    /\ ((- n <= v)%Q -> (v <= n)%Q -> (r == v)%Q)
    /\ ((n < v)%Q -> r = n)
    /\ ((v < - n)%Q -> r = (- n)%Q)
    /\ GridBounds.clamp (VNum n) (VNum r) = VNum r.
Proof.
  intros Hn. unfold GridBounds.clamp. cbn [Num.negate Num.Math_min Num.Math_max].
  destruct (Qle_bool n v) eqn:Hnv.
  - apply Qle_bool_iff in Hnv.
    assert (Hnn : Qle_bool (- n) n = true) by (apply Qle_bool_iff; lra).
    rewrite Hnn. exists n. split; [reflexivity|].
    split; [lra|]. split; [lra|]. split; [intros; lra|]. split; [reflexivity|].
    split; [intros; lra|].
    assert (Hrefl : Qle_bool n n = true) by (apply Qle_bool_iff; lra).
    now rewrite Hrefl, Hnn.
  - apply Qle_bool_false in Hnv.
    destruct (Qle_bool (- n) v) eqn:Hlow.
    + apply Qle_bool_iff in Hlow. exists v. split; [reflexivity|].
      split; [lra|]. split; [lra|]. split; [intros; lra|].
      split; [intros; lra|]. split; [intros; lra|].
      assert (Hf : Qle_bool n v = false).
      { destruct (Qle_bool n v) eqn:Hb; [|reflexivity].
        apply Qle_bool_iff in Hb. lra. }
      rewrite Hf.
      assert (Ht : Qle_bool (- n) v = true) by (apply Qle_bool_iff; lra).
      now rewrite Ht.
    + apply Qle_bool_false in Hlow. exists (- n)%Q. split; [reflexivity|].
      split; [lra|]. split; [lra|]. split; [intros; lra|].
      split; [intros; lra|]. split; [reflexivity|].
      destruct (Qle_bool n (- n)) eqn:Hb.
      * apply Qle_bool_iff in Hb.
        assert (Hzero : Qnum n = 0%Z).
        { assert (Hq : (n == 0)%Q) by lra. unfold Qeq in Hq. simpl in Hq. lia. }
        assert (Hnn : Qle_bool (- n) n = true) by (apply Qle_bool_iff; lra).
        rewrite Hnn. destruct n as [num den]. simpl in Hzero. subst num. reflexivity.
      * assert (Ht : Qle_bool (- n) (- n) = true) by (apply Qle_bool_iff; lra).
        now rewrite Ht.
Qed.

(** X26.  [clampToGrid] on a position made of numbers, for a grid size that is
    not negative: [x] and [z] end up between [-gridSize] and [gridSize], a
    coordinate that was within these bounds keeps its value, one beyond them is
    put on the bound, [y] is not touched, and clamping once more changes
    nothing. *)
Theorem clampToGrid_within_grid (n a b c : Q) :
  (0 <= n)%Q ->
  let p := GridBounds.clampToGrid (VNum n) (THREE.vec3 (VNum a) (VNum b) (VNum c)) in
  within n (THREE.x p) /\ within n (THREE.z p)
  /\ THREE.y p = VNum b
  /\ ((- n <= a)%Q -> (a <= n)%Q -> exists a', THREE.x p = VNum a' /\ (a' == a)%Q)
  /\ ((- n <= c)%Q -> (c <= n)%Q -> exists c', THREE.z p = VNum c' /\ (c' == c)%Q)
  /\ ((n < a)%Q -> THREE.x p = VNum n)
  /\ ((a < - n)%Q -> THREE.x p = VNum (- n))
  /\ GridBounds.clampToGrid (VNum n) p = p.
Proof.
  intros Hn. cbn zeta. unfold GridBounds.clampToGrid. cbn [THREE.x THREE.y THREE.z].
  destruct (clamp_number n a Hn) as (ra & Hra & Hlo & Hhi & Hin & Hup & Hdown & Hagain).
  destruct (clamp_number n c Hn) as (rc & Hrc & Hlo' & Hhi' & Hin' & _ & _ & Hagain').
  rewrite Hra, Hrc, Hagain, Hagain'.
  split; [exists ra; auto|]. split; [exists rc; auto|]. split; [reflexivity|].
  split; [intros H1 H2; exists ra; auto|].
  split; [intros H1 H2; exists rc; auto|].
  split; [intros H1; now rewrite (Hup H1)|].
  split; [intros H1; now rewrite (Hdown H1)|reflexivity].
Qed.

End GridFacts.

Section ResizeFacts.

Context `{Num.Engine}.

Lemma bound_number (n v : Q) :
  (0 <= n)%Q ->
  exists (r : Q) (changed : bool),
    GridBounds.bound (VNum n) (VNum v) = (VNum r, changed)
    /\ (- n <= r)%Q /\ (r <= n)%Q
    /\ (changed = false -> r = v)
    /\ ((- n <= v)%Q -> (v <= n)%Q -> changed = false).
Proof.
  intros Hn. unfold GridBounds.bound, Num.less.
  cbn [Num.greater Num.negate].
  destruct (Qle_bool v n) eqn:Hvn; cbn [negb].
  - apply Qle_bool_iff in Hvn.
    destruct (Qle_bool (- n) v) eqn:Hlow; cbn [negb].
    + apply Qle_bool_iff in Hlow. exists v, false. repeat split; auto.
    + apply Qle_bool_false in Hlow. exists (- n)%Q, true.
      split; [reflexivity|]. split; [lra|]. split; [lra|].
      split; [discriminate|]. intros; lra.
  - apply Qle_bool_false in Hvn.
    assert (Hnn : Qle_bool (- n) n = true) by (apply Qle_bool_iff; lra).
    rewrite Hnn. cbn [negb]. exists n, true.
    split; [reflexivity|]. split; [lra|]. split; [lra|].
    split; [discriminate|]. intros; lra.
Qed.

Lemma bound_object_shaped (n : Q) (o : EditorObject) :
  (0 <= n)%Q ->
  shaped o ->
  number_vector (THREE.position (mesh o)) ->
  exists o',
    GridBounds.bound_object (VNum n) o = (Ok tt, o')
    /\ id o' = id o
    /\ shaped o'
    /\ number_vector (THREE.position (mesh o'))
    /\ within n (THREE.x (THREE.position (mesh o')))
    /\ within n (THREE.z (THREE.position (mesh o')))
    /\ THREE.y (THREE.position (mesh o')) = THREE.y (THREE.position (mesh o))
    /\ THREE.rotation (mesh o') = THREE.rotation (mesh o)
    /\ THREE.scale (mesh o') = THREE.scale (mesh o)
    /\ (within n (THREE.x (THREE.position (mesh o))) ->
        within n (THREE.z (THREE.position (mesh o))) -> o' = o).
Proof.
  intros Hn (Hsync & (fields & Hfields) & Hparts) (a & b & c & Hpos).
  destruct (Hparts "position" ltac:(cbn; tauto)) as (ip & Hip).
  unfold GridBounds.bound_object. rewrite Hpos. cbn [THREE.x THREE.y THREE.z].
  destruct (bound_number n a Hn) as (ra & ca & Hba & Hloa & Hhia & Hsamea & Hina).
  destruct (bound_number n c Hn) as (rc & cc & Hbc & Hloc & Hhic & Hsamec & Hinc).
  rewrite Hba, Hbc.
  destruct (ca || cc) eqn:Hchanged.
  - rewrite (set_data_object _ "position" _ _ fields ip Hfields Hip).
    erewrite (set_data_object _ "position" "z" _ _ _ eq_refl);
      [|cbn [getprop]; rewrite own_set_own_same; reflexivity].
    eexists. split; [reflexivity|]. cbn [id mesh data THREE.position THREE.set_position
                                         THREE.x THREE.y THREE.z THREE.rotation THREE.scale].
    split; [reflexivity|]. split.
    { split.
      - assert (H1 : Sync.set_data (data o) "position" "x" (VNum ra)
                     = Ok (VObj (set_own fields "position"
                                   (VObj (set_own ip "x" (VNum ra))))))
          by (apply (set_data_object _ _ _ _ fields ip Hfields Hip)).
        pose proof (in_sync_set_position o "x" _ _ ltac:(unfold axis; tauto) Hsync H1)
          as Hx.
        assert (H2 : Sync.set_data
                       (VObj (set_own fields "position" (VObj (set_own ip "x" (VNum ra)))))
                       "position" "z" (VNum rc)
                     = Ok (VObj (set_own
                                   (set_own fields "position"
                                      (VObj (set_own ip "x" (VNum ra))))
                                   "position"
                                   (VObj (set_own (set_own ip "x" (VNum ra)) "z"
                                            (VNum rc))))))
          by (apply (set_data_object _ _ _ _ _ _ eq_refl);
              cbn [getprop]; rewrite own_set_own_same; reflexivity).
        pose proof (in_sync_set_position _ "z" _ _ ltac:(unfold axis; tauto) Hx H2)
          as Hz.
        cbn [id mesh data] in Hz. rewrite Hpos in Hz.
        destruct o as [i [g k p r s cs rs] d]. cbn in Hpos. subst p. exact Hz.
      - split; [eauto|]. rewrite Hfields in Hparts.
        eapply shaped_fields_after; [left; reflexivity|].
        eapply shaped_fields_after; [left; reflexivity|exact Hparts]. }
    split; [exists ra, b, rc; reflexivity|].
    split; [exists ra; auto|]. split; [exists rc; auto|].
    split; [reflexivity|]. split; [reflexivity|]. split; [reflexivity|].
    intros (qa & Hqa & Hqlo & Hqhi) (qc & Hqc & Hqlo' & Hqhi').
    inversion Hqa; subst qa. inversion Hqc; subst qc.
    rewrite (Hina Hqlo Hqhi), (Hinc Hqlo' Hqhi') in Hchanged. discriminate.
  - apply orb_false_iff in Hchanged as [-> ->].
    rewrite (Hsamea eq_refl), (Hsamec eq_refl) in *.
    assert (Hsame : editorObject (id o)
                      (THREE.set_position (THREE.vec3 (VNum a) (VNum b) (VNum c)) (mesh o))
                      (data o) = o).
    { destruct o as [i [g k p r s cs rs] d]. cbn in Hpos. now subst p. }
    rewrite Hsame. exists o. split; [reflexivity|]. split; [reflexivity|].
    split; [split; [exact Hsync|split; eauto]|].
    split; [exists a, b, c; exact Hpos|].
    rewrite Hpos. cbn [THREE.x THREE.y THREE.z].
    split; [exists a; auto|]. split; [exists c; auto|].
    repeat split.
Qed.

(** X27.  [updateSize(newSize, objects)] when [parseInt(newSize)] is a number
    that is not negative and the objects are objects of the editor at
    positions made of numbers: it returns, the grid size is that number, and
    every object is left within the grid, in shape and in sync; an object
    that was within the grid is not touched. *)
Theorem updateSize_brings_objects_within_grid
    (newSize : jsval) (n : Q) (objects : list EditorObject) :
  Num.parseInt newSize = VNum n ->
  (0 <= n)%Q ->
  Forall shaped objects ->
  Forall (fun o => number_vector (THREE.position (mesh o))) objects ->
  exists objects',
    GridBounds.updateSize newSize objects = (Ok tt, VNum n, objects')
    /\ Forall2 (resized n) objects objects'.
Proof.
  intros Hparse Hn Hshaped Hnum. unfold GridBounds.updateSize. rewrite Hparse.
  assert (Hall : exists objects',
             GridBounds.bound_objects (VNum n) objects = (Ok tt, objects')
             /\ Forall2 (resized n) objects objects').
  { induction Hshaped as [|o rest Ho _ IH]; [exists []; split; [reflexivity|constructor]|].
    inversion Hnum as [|? ? Hno Hnrest]; subst.
    destruct (bound_object_shaped n o Hn Ho Hno)
      as (o' & Hrun & Hid & Hsh & _ & Hx & Hz & Hy & Hr & Hs & Hsame).
    destruct (IH Hnrest) as (rest' & Hrest & Hall).
    exists (o' :: rest'). cbn [GridBounds.bound_objects]. rewrite Hrun, Hrest.
    split; [reflexivity|]. constructor; [|exact Hall].
    unfold resized. auto 10. }
  destruct Hall as (objects' & Hrun & Hall). rewrite Hrun. eauto.
Qed.

End ResizeFacts.

(** ** Dragging *)

Section DragFacts.

Context `{Num.Engine}.

Lemma move_shaped (n : Q) (start delta : THREE.Vector3) (tool : string)
    (snapToGrid : bool) (o : EditorObject) :
  (0 <= n)%Q ->
  number_vector start -> number_vector delta ->
  shaped o ->
  exists o',
    DragController.move start delta tool snapToGrid (VNum n) o = (Ok tt, o')
    /\ dragged n o o'
    /\ (String.eqb tool "move-y" = false ->
        THREE.y (THREE.position (mesh o')) = THREE.y start).
Proof.
  intros Hn (sx & sy & sz & ->) (dx & dy & dz & ->)
    ((Hsp & Hsr & Hss) & (fields & Hfields) & Hparts).
  unfold DragController.move. cbn [THREE.x THREE.y THREE.z].
  set (along_xz := String.eqb tool "select" || String.eqb tool "move-x").
  set (along_y := String.eqb tool "move-y").
  assert (Hx : exists qx,
             (if snapToGrid
              then Num.Math_round (if along_xz then Num.add (VNum sx) (VNum dx) else VNum sx)
              else if along_xz then Num.add (VNum sx) (VNum dx) else VNum sx) = VNum qx)
    by (destruct snapToGrid, along_xz; cbn; eexists; reflexivity).
  assert (Hz : exists qz,
             (if snapToGrid
              then Num.Math_round (if along_xz then Num.add (VNum sz) (VNum dz) else VNum sz)
              else if along_xz then Num.add (VNum sz) (VNum dz) else VNum sz) = VNum qz)
    by (destruct snapToGrid, along_xz; cbn; eexists; reflexivity).
  assert (Hy : exists qy,
             (if snapToGrid && along_y
              then Num.Math_round (if along_y then Num.add (VNum sy) (VNum dy) else VNum sy)
              else if along_y then Num.add (VNum sy) (VNum dy) else VNum sy) = VNum qy
             /\ (along_y = false -> qy = sy))
    by (destruct snapToGrid, along_y; cbn; eexists; (split; [reflexivity|]);
        first [discriminate | reflexivity]).
  destruct Hx as (qx & ->). destruct Hz as (qz & ->). destruct Hy as (qy & -> & Hystay).
  destruct (clamp_number n qx Hn) as (rx & -> & Hlox & Hhix & _).
  destruct (clamp_number n qz Hn) as (rz & -> & Hloz & Hhiz & _).
  rewrite Hfields. cbn [setprop].
  eexists. split; [reflexivity|].
  cbn [DragController.set].
  split.
  - unfold dragged.
    cbn [id mesh data THREE.position THREE.rotation THREE.scale THREE.set_position
         THREE.x THREE.y THREE.z].
    split; [reflexivity|]. split.
    { split.
      - assert (Hset : setprop (data o) "position"
                         (VObj [("x", VNum rx); ("y", VNum qy); ("z", VNum rz)])
                       = Ok (VObj (set_own fields "position"
                                     (VObj [("x", VNum rx); ("y", VNum qy);
                                            ("z", VNum rz)]))))
          by (rewrite Hfields; reflexivity).
        unfold Sync.in_sync, Sync.data_vector in *. cbn [id mesh data].
        rewrite (getprop_setprop_same _ _ _ _ Hset).
        rewrite (getprop_setprop_other _ "position" "rotation" _ _
                   ltac:(discriminate) Hset).
        rewrite (getprop_setprop_other _ "position" "scale" _ _
                   ltac:(discriminate) Hset).
        cbn. repeat split; assumption.
      - split; [eauto|]. rewrite Hfields in Hparts.
        eapply shaped_fields_after; [left; reflexivity|exact Hparts]. }
    split; [exists rx, qy, rz; reflexivity|].
    split; [exists rx; auto|]. split; [exists rz; auto|]. split; reflexivity.
  - intros Hy. cbn [mesh THREE.position THREE.set_position THREE.y].
    now rewrite (Hystay Hy).
Qed.

(** X28.  [applyMoveDrag] on objects of the editor, with a start position for
    each, numbers for the start positions and for the drag, and a grid size
    that is not negative: it returns, and every object is left in shape and
    in sync -- the position in its data is the position of its mesh --
    within the grid along x and z, its rotation and scale untouched. *)
Theorem applyMoveDrag_keeps_objects_in_sync
    (n : Q) (objects : list EditorObject) (delta : THREE.Vector3)
    (startPositions : list THREE.Vector3) (tool : string) (snapToGrid : bool) :
  (0 <= n)%Q ->
  number_vector delta ->
  Forall number_vector startPositions ->
  (List.length objects <= List.length startPositions)%nat ->
  Forall shaped objects ->
  exists objects',
    DragController.applyMoveDrag objects delta startPositions tool snapToGrid (VNum n)
    = (Ok tt, objects')
    /\ Forall2 (dragged n) objects objects'.
Proof.
  intros Hn Hdelta Hstarts Hlen Hshaped. revert startPositions Hstarts Hlen.
  induction Hshaped as [|o rest Ho _ IH]; intros starts Hstarts Hlen.
  - exists []. split; [reflexivity|constructor].
  - destruct starts as [|start starts]; [cbn in Hlen; lia|].
    inversion Hstarts as [|? ? Hstart Hrest]; subst.
    destruct (move_shaped n start delta tool snapToGrid o Hn Hstart Hdelta Ho)
      as (o' & Hmove & Hdragged & _).
    destruct (IH starts Hrest ltac:(cbn in Hlen; lia)) as (rest' & Hrun & Hall).
    exists (o' :: rest'). cbn [DragController.applyMoveDrag].
    rewrite Hmove, Hrun. split; [reflexivity|]. now constructor.
Qed.

(** X29.  With fewer start positions than objects, [applyMoveDrag] throws,
    whatever else it is given; the objects that come before the first one
    without a start position have been moved by then. *)
Theorem applyMoveDrag_needs_start_positions
    (objects : list EditorObject) (delta : THREE.Vector3)
    (startPositions : list THREE.Vector3) (tool : string) (snapToGrid : bool)
    (gridSize : jsval) :
  (List.length startPositions < List.length objects)%nat ->
  exists e objects',
    DragController.applyMoveDrag objects delta startPositions tool snapToGrid gridSize
    = (Throw e, objects')
    /\ List.length objects' = List.length objects.
Proof.
  revert startPositions.
  induction objects as [|o rest IH]; intros starts Hlen; [cbn in Hlen; lia|].
  cbn [DragController.applyMoveDrag].
  destruct starts as [|start starts]; [do 2 eexists; split; reflexivity|].
  destruct (DragController.move start delta tool snapToGrid gridSize o) as [[u|e] o'].
  - destruct (IH starts ltac:(cbn in Hlen; lia)) as (e & rest' & Hrun & Hl).
    rewrite Hrun. do 2 eexists. split; [reflexivity|]. cbn. now rewrite Hl.
  - do 2 eexists. split; reflexivity.
Qed.

(** X30.  [applyScale] on one object of the editor with a scale made of
    numbers: the object is left in shape and in sync, its data holding the
    new scale of the mesh.  On several objects with a selection group it is
    the group that is scaled: the objects, mesh and data, are as they
    were. *)
Theorem applyScale_keeps_object_in_sync
    (o : EditorObject) (group : option THREE.Vector3) (deltaY : jsval) :
  shaped o ->
  number_vector (THREE.scale (mesh o)) ->
  (exists o',
      DragController.applyScale [o] group deltaY = (Ok tt, [o'], group)
      /\ id o' = id o
      /\ shaped o'
      /\ number_vector (THREE.scale (mesh o'))
      /\ THREE.position (mesh o') = THREE.position (mesh o)
      /\ THREE.rotation (mesh o') = THREE.rotation (mesh o))
  /\ forall (o2 : EditorObject) (rest : list EditorObject) (groupScale : THREE.Vector3),
       exists groupScale',
         DragController.applyScale (o :: o2 :: rest) (Some groupScale) deltaY
         = (Ok tt, o :: o2 :: rest, Some groupScale').
Proof.
  intros ((Hsp & Hsr & Hss) & (fields & Hfields) & Hparts) (a & b & c & Hscale).
  split; [|intros; eexists; reflexivity].
  unfold DragController.applyScale. rewrite Hscale, Hfields.
  set (amount := if Num.greater deltaY (VNum 0) then VNum (19 # 20) else VNum (21 # 20)).
  assert (Hamount : exists q, amount = VNum q)
    by (subst amount; destruct (Num.greater deltaY (VNum 0)); eauto).
  destruct Hamount as (q & ->).
  cbn [DragController.multiplyScalar Num.multiply THREE.x THREE.y THREE.z setprop].
  eexists. split; [reflexivity|].
  cbn [id mesh data THREE.position THREE.rotation THREE.scale THREE.set_scale].
  split; [reflexivity|]. split.
  { split.
    - assert (Hset : forall w, setprop (data o) "scale" w
                               = Ok (VObj (set_own fields "scale" w)))
        by (intros w; rewrite Hfields; reflexivity).
      unfold Sync.in_sync, Sync.data_vector in *. cbn [id mesh data].
      rewrite (getprop_setprop_same _ _ _ _ (Hset _)).
      rewrite (getprop_setprop_other _ "scale" "position" _ _
                 ltac:(discriminate) (Hset _)).
      rewrite (getprop_setprop_other _ "scale" "rotation" _ _
                 ltac:(discriminate) (Hset _)).
      cbn. repeat split; assumption.
    - split; [eauto|]. rewrite Hfields in Hparts.
      eapply shaped_fields_after; [left; reflexivity|exact Hparts]. }
  split; [do 3 eexists; reflexivity|]. split; reflexivity.
Qed.

End DragFacts.

(** ** The theorems above on sample inputs *)

Lemma sample_box_shaped : shaped sample_box.
Proof. exact (create_shaped _ _ _ _ _ _ sample_box_created). Qed.

Lemma far_box_shaped : shaped far_box.
Proof.
  apply (create_shaped (VStr "box") (THREE.vec3 (VNum (25 # 2)) (VNum 1) (VNum (-3)))
           (VStr "far") 0%N "0.i").
  reflexivity.
Qed.

Lemma sample_box_plain : plain local_transform sample_box.
Proof.
  split.
  { split; [reflexivity|]. split; [reflexivity|].
    exists (VStr "box"), (VStr "obstacle").
    split; [reflexivity|]. split; [reflexivity|].
    split; reflexivity. }
  split; [now exists "a"|].
  repeat split; reflexivity.
Qed.


Lemma undo_then_redo_restores_history_witness :
  exists s1 s2,
    SceneSerializer.undo LevelEditor.Scene (LevelEditor.callback sample_clock true)
      sample_serializer sample_scene
    = (Ok empty_snapshot, s1, LevelEditor.scene [] [] "select" 0)
    /\ SceneSerializer.redo LevelEditor.Scene (LevelEditor.callback sample_clock true)
         s1 (LevelEditor.scene [] [] "select" 0)
       = (Ok sample_snapshot, s2, sample_scene)
    /\ SceneSerializer.undoManager s2 = SceneSerializer.undoManager sample_serializer
    /\ SceneSerializer.lastState s2 = sample_snapshot.
Proof.
  destruct (undo_then_redo_restores_history LevelEditor.Scene
              (LevelEditor.callback sample_clock true) sample_serializer
              sample_scene (LevelEditor.scene [] [] "select" 0) sample_scene
              (SceneSerializer.entry empty_snapshot sample_snapshot)
              eq_refl eq_refl eq_refl eq_refl)
    as (s1 & s2 & Hundo & _ & Hredo & Hm & Hlast).
  exists s1, s2. repeat split; assumption.
Defined.

Lemma failed_undo_stops_recording_witness :
  let failing : option (jsval -> unit -> outcome unit * unit) :=
    Some (fun _ w => (Throw (TypeError "the scene cannot be loaded"), w)) in
  exists s1,
    SceneSerializer.undo unit failing sample_serializer tt
    = (Throw (TypeError "the scene cannot be loaded"), s1, tt)
    /\ SceneSerializer.canUndo s1 = true
    /\ SceneSerializer.undoManager
         (snd (SceneSerializer.saveState local_transform [] s1))
       = SceneSerializer.undoManager s1.
Proof.
  intros failing.
  destruct (failed_undo_stops_recording unit failing local_transform
              sample_serializer tt tt
              (SceneSerializer.entry empty_snapshot sample_snapshot)
              (TypeError "the scene cannot be loaded") eq_refl eq_refl)
    as (s1 & Hundo & _ & Hidx & Hcmds & Hsave).
  exists s1. split; [exact Hundo|]. split; [|apply Hsave].
  unfold SceneSerializer.canUndo, UndoManager.hasUndo. now rewrite Hidx.
Defined.




Lemma importScene_restores_serialized_scene_witness :
  JSON.parse one_box_text = Some sample_snapshot
  /\ SceneSerializer.serializeObjects local_transform [sample_box] = Ok sample_snapshot
  /\ exists ed',
       LevelEditor.importScene sample_clock local_transform true one_box_text empty_editor
       = (Ok true, ed')
       /\ Forall2 (restored_from local_transform) [sample_box]
            (LevelEditor.objects (LevelEditor.live ed')).
Proof.
  split; [reflexivity|]. split; [reflexivity|].
  destruct (importScene_restores_serialized_scene sample_clock true local_transform
              one_box_text sample_snapshot [sample_box] empty_editor)
    as (ed' & H1 & H2 & _).
  - reflexivity.
  - reflexivity.
  - repeat constructor; apply sample_box_plain.
  - constructor.
  - exists ed'. split; assumption.
Defined.

Lemma emit_calls_listeners_in_order_witness :
  let bus := EditorEvents.on "change" 1%nat
               (EditorEvents.on "change" 0%nat EditorEvents.create) in
  EditorEvents.emit _ EditorEvents.logging "change" (VStr "x") bus []
  = (Ok tt, bus, [(0%nat, VStr "x"); (1%nat, VStr "x")])
  /\ EditorEvents.emit _ EditorEvents.logging "change" (VStr "x")
       (EditorEvents.on "change" 2%nat bus) []
     = (Ok tt, EditorEvents.on "change" 2%nat bus,
        [(0%nat, VStr "x"); (1%nat, VStr "x"); (2%nat, VStr "x")]).
Proof.
  intros bus.
  destruct (emit_calls_listeners_in_order _ EditorEvents.logging "change" (VStr "x")
              bus [] (fun _ _ _ _ => eq_refl)) as [Hemit Hon].
  split; [rewrite Hemit; reflexivity|].
  rewrite (Hon 2%nat). reflexivity.
Defined.

Lemma self_unsubscribing_listener_hides_next_witness :
  let bus := EditorEvents.on "change" 2%nat
               (EditorEvents.on "change" 1%nat
                  (EditorEvents.on "change" 0%nat EditorEvents.create)) in
  EditorEvents.listeners bus "change" = [0; 1; 2]%nat
  /\ EditorEvents.emit _ (EditorEvents.once "change" 1%nat) "change" VNull bus []
     = (Ok tt, EditorEvents.off "change" 1%nat bus, [(0%nat, VNull); (1%nat, VNull)])
  /\ EditorEvents.listeners (EditorEvents.off "change" 1%nat bus) "change"
     = [0; 2]%nat.
Proof.
  intros bus. split; [reflexivity|].
  apply (self_unsubscribing_listener_hides_next "change" VNull 1%nat 2%nat
           [0%nat] [] bus []).
  - reflexivity.
  - simpl. lia.
  - simpl. tauto.
Defined.

Lemma listByType_lists_assets_of_type_witness :
  let r := AssetRegistry.register "m1" (VObj [("type", VStr "model")])
             (AssetRegistry.register "t1" sample_texture AssetRegistry.create) in
  exists item,
    AssetRegistry.listByType "texture" r = Ok [item]
    /\ getprop item "id" = Ok (VStr "t1")
    /\ getprop item "url" = Ok (VStr "floor.png").
Proof.
  intros r.
  destruct (listByType_lists_assets_of_type "texture" r) as (items & Hlist & Hall).
  - repeat constructor.
    + exists [("type", VStr "texture"); ("url", VStr "floor.png")].
      split; [reflexivity|]. cbn [map fst].
      apply (bool_decide_unpack _). vm_compute. exact I.
    + exists [("type", VStr "model")].
      split; [reflexivity|]. cbn [map fst].
      apply (bool_decide_unpack _). vm_compute. exact I.
  - change (List.filter (of_type "texture") (AssetRegistry.assets r))
      with [("t1", sample_texture)] in Hall.
    inversion Hall as [|e item l l' Hone Hnil]; subst.
    inversion Hnil; subst.
    destruct Hone as [Hid Hrest].
    exists item. split; [exact Hlist|]. split; [exact Hid|].
    rewrite Hrest by discriminate. reflexivity.
Defined.

Lemma listByType_throws_on_missing_asset_witness :
  exists msg,
    AssetRegistry.listByType "texture"
      (AssetRegistry.register "gone" VNull
         (AssetRegistry.register "t1" sample_texture AssetRegistry.create))
    = Throw (TypeError msg).
Proof.
  apply (listByType_throws_on_missing_asset "texture" "gone" VNull).
  - right. left. reflexivity.
  - left. reflexivity.
Defined.

Lemma SetScript_undo_restores_scripts_witness :
  let m : ScriptManager.t nat nat := ScriptManager.scriptManager [(0%nat, [5; 6]%nat)] false [] in
  let c := SetScriptCommand.command (Some 0%nat) 7%nat (Some 5%nat) in
  exists m1 m2,
    SetScriptCommand.execute c m = (Ok tt, m1)
    /\ ScriptManager.attached m1 0%nat = [6; 7]%nat
    /\ SetScriptCommand.undo c m1 = (Ok tt, m2)
    /\ ScriptManager.attached m2 0%nat = [6; 5]%nat
    /\ ScriptManager.attached m2 0%nat ≡ₚ ScriptManager.attached m 0%nat.
Proof.
  intros m c.
  destruct (SetScript_undo_restores_scripts c m 0%nat eq_refl)
    as (m1 & m2 & Hexec & _ & Hundo & Hperm & _).
  - intros old [= <-]. left. reflexivity.
  - exists m1, m2.
    assert (Hm1 : m1 = snd (SetScriptCommand.execute c m)) by now rewrite Hexec.
    assert (Hm2 : m2 = snd (SetScriptCommand.undo c m1)) by now rewrite Hundo.
    split; [exact Hexec|]. split; [rewrite Hm1; reflexivity|].
    split; [exact Hundo|]. split; [rewrite Hm2, Hm1; reflexivity|exact Hperm].
Defined.

Lemma SetScript_undo_attaches_absent_old_witness :
  let m : ScriptManager.t nat nat := ScriptManager.scriptManager [(0%nat, [6]%nat)] false [] in
  let c := SetScriptCommand.command (Some 0%nat) 7%nat (Some 5%nat) in
  exists m1 m2,
    SetScriptCommand.execute c m = (Ok tt, m1)
    /\ SetScriptCommand.undo c m1 = (Ok tt, m2)
    /\ ScriptManager.attached m2 0%nat = [6; 5]%nat.
Proof.
  intros m c.
  destruct (SetScript_undo_attaches_absent_old c m 0%nat 5%nat eq_refl eq_refl)
    as (m1 & m2 & Hexec & Hundo & _).
  - simpl. lia.
  - exists m1, m2.
    assert (Hm1 : m1 = snd (SetScriptCommand.execute c m)) by now rewrite Hexec.
    assert (Hm2 : m2 = snd (SetScriptCommand.undo c m1)) by now rewrite Hundo.
    split; [exact Hexec|]. split; [exact Hundo|]. rewrite Hm2, Hm1. reflexivity.
Defined.

Lemma clone_keeps_sync_witness :
  exists c,
    Cloning.clone sample_box (THREE.vec3 (VNum 2) (VNum 0) (VNum 2))
      1700000000000%N "0.4fzyo82mvyr" = Ok c
    /\ Sync.in_sync c
    /\ THREE.position (mesh c) = THREE.vec3 (VNum 2) (VNum 0) (VNum 2)
    /\ id c = VStr "obj_1700000000000_4fzyo82mv".
Proof.
  destruct (clone_keeps_sync sample_box (THREE.vec3 (VNum 2) (VNum 0) (VNum 2))
              1700000000000%N "0.4fzyo82mvyr")
    as (c & Hclone & Hsync & Hpos & _ & _ & _ & Hid).
  - apply sample_box_shaped.
  - apply sample_box_plain.
  - exists c. repeat split; try assumption; apply Hsync.
Defined.

Lemma transform_command_undo_inverts_execute_witness :
  let ed := Editor.editor [sample_box] [] in
  exists c ed1 ed2,
    SetScaleCommand.create ed (Some 0%nat)
      (Some (THREE.vec3 (VNum 2) (VNum 2) (VNum 2))) None = Ok c
    /\ SetScaleCommand.execute c ed = (Ok tt, ed1)
    /\ SetScaleCommand.undo c ed1 = (Ok tt, ed2)
    /\ Editor.store ed2 = [sample_box]
    /\ Editor.signals ed2 = [0; 0]%nat.
Proof.
  intros ed.
  destruct (transform_command_undo_inverts_execute ed 0%nat sample_box
              (THREE.vec3 (VNum 2) (VNum 2) (VNum 2)) eq_refl)
    as (_ & (c & ed1 & ed2 & H) & _).
  exists c, ed1, ed2. exact H.
Defined.

Lemma SetPosition_toJSON_fromJSON_witness :
  let ed := Editor.editor [sample_box] [] in
  let c := SetPositionCommand.command (Some 0%nat)
             (THREE.vec3 (VNum 5) (VNum 0) (VNum 5)) THREE.zero in
  exists json,
    SetPositionJSON.toJSON (VObj [("type", VStr "SetPositionCommand")]) c ed = Ok json
    /\ getprop json "objectUuid" = Ok (VStr "a")
    /\ SetPositionCommand.fromJSON sample_objectById json
         (SetPositionCommand.command None THREE.zero THREE.zero) = Ok c.
Proof.
  intros ed c.
  destruct (SetPosition_toJSON_fromJSON sample_objectById
              [("type", VStr "SetPositionCommand")] c
              (SetPositionCommand.command None THREE.zero THREE.zero)
              ed 0%nat sample_box eq_refl eq_refl eq_refl)
    as (json & Hto & Huuid & Hfrom & _).
  exists json. repeat split; assumption.
Defined.

Lemma MultiCmds_fromJSON_member_needs_object_witness :
  exists e,
    MultiCmdsJSON.fromJSON
      [("SetPositionCommand", MultiCmdsJSON.SetPosition sample_objectById)]
      (Editor.editor [sample_box] [])
      (VObj [("type", VStr "MultiCmdsCommand");
             ("commands",
              VArr [VObj [("type", VStr "SetPositionCommand");
                          ("objectUuid", VStr "a");
                          ("oldPosition", VArr [VNum 0; VNum 0; VNum 0] []);
                          ("newPosition", VArr [VNum 1; VNum 0; VNum 1] [])]] [])])
    = Throw e.
Proof.
  eapply (MultiCmds_fromJSON_member_needs_object SetPositionCommand.t
            [("SetPositionCommand", MultiCmdsJSON.SetPosition sample_objectById)]
            (Editor.editor [sample_box] []) _ _ _ []
            "SetPositionCommand" (MultiCmdsJSON.SetPosition sample_objectById)).
  - reflexivity.
  - left. reflexivity.
  - reflexivity.
  - reflexivity.
  - reflexivity.
Defined.

Lemma PropertyUpdater_update_keeps_shape_witness :
  let divide := fun a b : jsval =>
    match a, b with VNum p, VNum q => VNum (p / q) | _, _ => a end in
  let same := fun v : jsval => v in
  exists o',
    PropertyUpdater.update divide same same sample_box "width" (VNum 4) = (Ok tt, o')
    /\ shaped o'
    /\ THREE.scale (mesh o') = THREE.vec3 (VNum (4 / 2)) (VNum 1) (VNum 1).
Proof.
  intros divide same.
  destruct (PropertyUpdater_update_keeps_shape divide same same sample_box
              "width" (VNum 4) sample_box_shaped) as (o' & Hupdate & Hshaped & _).
  - reflexivity.
  - intros sz d Hsz Hd. cbv in Hsz. injection Hsz as <-.
    cbv in Hd. injection Hd as <-. reflexivity.
  - discriminate.
  - exists o'. split; [exact Hupdate|]. split; [exact Hshaped|].
    assert (Ho : o' = snd (PropertyUpdater.update divide same same sample_box
                             "width" (VNum 4))) by now rewrite Hupdate.
    rewrite Ho. reflexivity.
Defined.

Lemma snapObject_keeps_shape_witness :
  exists o',
    GridManager.snapObject (@Num.Math_round sample_engine) (Some far_box)
    = (Ok tt, Some o')
    /\ shaped o'
    /\ THREE.position (mesh o') = THREE.vec3 (VNum 13) (VNum 1) (VNum (-3)).
Proof.
  destruct (snapObject_keeps_shape (@Num.Math_round sample_engine) far_box
              far_box_shaped) as (o' & Hsnap & Hshaped & Hpos & _).
  exists o'. split; [exact Hsnap|]. split; [exact Hshaped|].
  rewrite Hpos. reflexivity.
Defined.

Lemma clampToGrid_within_grid_witness :
  (0 <= 10)%Q
  /\ THREE.x (@GridBounds.clampToGrid sample_engine (VNum 10)
                (THREE.vec3 (VNum (25 # 2)) (VNum 40) (VNum (-3))))
     = VNum 10
  /\ @GridBounds.clampToGrid sample_engine (VNum 10)
       (THREE.vec3 (VNum 10) (VNum 40) (VNum (-3)))
     = THREE.vec3 (VNum 10) (VNum 40) (VNum (-3)).
Proof.
  assert (Hn : (0 <= 10)%Q) by (apply Qle_bool_imp_le; reflexivity).
  split; [exact Hn|].
  destruct (@clampToGrid_within_grid sample_engine 10 (25 # 2) 40 (-3) Hn)
    as (_ & _ & _ & _ & _ & Hx & _ & Hagain).
  split; [apply Hx; reflexivity|exact Hagain].
Defined.

Lemma updateSize_brings_objects_within_grid_witness :
  exists far',
    @GridBounds.updateSize sample_engine (VNum (21 # 2)) [sample_box; far_box]
    = (Ok tt, VNum 10, [sample_box; far'])
    /\ shaped far'
    /\ THREE.position (mesh far') = THREE.vec3 (VNum 10) (VNum 1) (VNum (-3)).
Proof.
  destruct (@updateSize_brings_objects_within_grid sample_engine (VNum (21 # 2)) 10
              [sample_box; far_box]) as (objects' & Hupdate & Hall).
  - reflexivity.
  - apply Qle_bool_imp_le; reflexivity.
  - constructor; [apply sample_box_shaped|].
    constructor; [apply far_box_shaped|constructor].
  - repeat constructor; do 3 eexists; reflexivity.
  - pose proof Hall as Hlen. apply Forall2_length in Hlen.
    destruct objects' as [|box' [|far' [|other rest]]]; try discriminate Hlen.
    inversion Hall as [|? ? ? ? _ Hrest]; subst.
    inversion Hrest as [|? ? ? ? Hfar _]; subst.
    assert (Ho : [box'; far']
                 = snd (@GridBounds.updateSize sample_engine (VNum (21 # 2))
                          [sample_box; far_box])) by now rewrite Hupdate.
    injection Ho as Ho1 Ho2.
    exists far'. rewrite Ho1 in Hupdate.
    split; [exact Hupdate|]. split; [apply Hfar|]. rewrite Ho2. reflexivity.
Defined.

Lemma applyMoveDrag_keeps_objects_in_sync_witness :
  exists box' far',
    @DragController.applyMoveDrag sample_engine [sample_box; far_box]
      (THREE.vec3 (VNum (7 # 2)) (VNum 9) (VNum 20))
      [THREE.zero; THREE.vec3 (VNum (25 # 2)) (VNum 1) (VNum (-3))]
      "select" true (VNum 10)
    = (Ok tt, [box'; far'])
    /\ shaped box' /\ shaped far'
    /\ THREE.position (mesh box') = THREE.vec3 (VNum 4) (VNum 0) (VNum 10)
    /\ THREE.position (mesh far') = THREE.vec3 (VNum 10) (VNum 1) (VNum 10).
Proof.
  destruct (@applyMoveDrag_keeps_objects_in_sync sample_engine 10
              [sample_box; far_box]
              (THREE.vec3 (VNum (7 # 2)) (VNum 9) (VNum 20))
              [THREE.zero; THREE.vec3 (VNum (25 # 2)) (VNum 1) (VNum (-3))]
              "select" true) as (objects' & Hdrag & Hall).
  - apply Qle_bool_imp_le; reflexivity.
  - do 3 eexists; reflexivity.
  - repeat constructor; do 3 eexists; reflexivity.
  - simpl. lia.
  - constructor; [apply sample_box_shaped|].
    constructor; [apply far_box_shaped|constructor].
  - pose proof Hall as Hlen. apply Forall2_length in Hlen.
    destruct objects' as [|box' [|far' [|other rest]]]; try discriminate Hlen.
    inversion Hall as [|? ? ? ? Hbox Hrest]; subst.
    inversion Hrest as [|? ? ? ? Hfar _]; subst.
    assert (Ho : [box'; far']
                 = snd (@DragController.applyMoveDrag sample_engine [sample_box; far_box]
                          (THREE.vec3 (VNum (7 # 2)) (VNum 9) (VNum 20))
                          [THREE.zero; THREE.vec3 (VNum (25 # 2)) (VNum 1) (VNum (-3))]
                          "select" true (VNum 10))) by now rewrite Hdrag.
    injection Ho as Ho1 Ho2.
    exists box', far'. split; [exact Hdrag|].
    split; [apply Hbox|]. split; [apply Hfar|].
    rewrite Ho1, Ho2. split; reflexivity.
Defined.

Lemma applyMoveDrag_needs_start_positions_witness :
  exists e objects',
    @DragController.applyMoveDrag sample_engine [sample_box; far_box]
      (THREE.vec3 (VNum 1) (VNum 0) (VNum 1)) [THREE.zero] "select" false (VNum 10)
    = (Throw e, objects')
    /\ List.length objects' = 2%nat.
Proof.
  apply (@applyMoveDrag_needs_start_positions sample_engine [sample_box; far_box]
           (THREE.vec3 (VNum 1) (VNum 0) (VNum 1)) [THREE.zero] "select" false
           (VNum 10)).
  simpl. lia.
Defined.

Lemma applyScale_keeps_object_in_sync_witness :
  exists o',
    @DragController.applyScale sample_engine [sample_box] None (VNum (-100))
    = (Ok tt, [o'], None)
    /\ shaped o'
    /\ THREE.scale (mesh o')
       = THREE.vec3 (VNum (21 # 20)) (VNum (21 # 20)) (VNum (21 # 20)).
Proof.
  destruct (@applyScale_keeps_object_in_sync sample_engine sample_box None
              (VNum (-100)) sample_box_shaped) as ((o' & Hscale & _ & Hshaped & _) & _).
  - do 3 eexists; reflexivity.
  - exists o'. split; [exact Hscale|]. split; [exact Hshaped|].
    assert (Ho : [o'] = snd (fst (@DragController.applyScale sample_engine [sample_box]
                                    None (VNum (-100))))) by now rewrite Hscale.
    injection Ho as Ho. rewrite Ho. reflexivity.
Defined.
